(** * Mainframe data migration: a shallow embedding of the core routines

    The development follows the Python sources of [mf_spark]:
    - [utils/encoding.py]        (EBCDICConverter: packed, zoned, binary)
    - [converters/vsam_types.py] (VSAMTypeConverter: PIC clause analysis)
    - [parsers/copybook_parser.py] (CopybookParser)
    - [parsers/ddl_parser.py]    (DDLParser)

    Python [int] is [Z], [str] is [string] (the development covers ASCII
    text: character classes and case mapping are given on code points
    below 128), [bytes] is [list byte], [None] is [option], a raised
    exception is the [Raise] case of [result].  [int()] and [str()] are
    taken without the interpreter's optional limit on the number of
    digits. *)

From Stdlib Require Import ZArith NArith Ascii String Lia.
From Stdlib.Init Require Import Byte.
From stdpp Require Import base strings gmap list.

Open Scope Z_scope.

(* ================================================================== *)
(** ** Python primitives *)
(* ================================================================== *)

Module Py.

(** Exceptions that the modelled code can raise. *)
Inductive exn : Type :=
  | ValueError
  | IndexError
  | InvalidOperation   (* decimal.InvalidOperation (a conversion syntax error) *)
  | Overflow.          (* decimal.Overflow, trapped by the default context *)

Inductive result (A : Type) : Type :=
  | Ok (a : A)
  | Raise (e : exn).
Arguments Ok {A} a.
Arguments Raise {A} e.

#[global] Instance result_ret : MRet result := fun _ a => Ok a.
#[global] Instance result_bind : MBind result := fun _ _ f m =>
  match m with
  | Ok a => f a
  | Raise e => Raise e
  end.

Definition is_ok {A} (r : result A) : bool :=
  match r with Ok _ => true | Raise _ => false end.

(** Monadic map over a list (a [for] loop that collects its results and
    stops at the first exception). *)
Fixpoint mapM {A B} (f : A -> result B) (l : list A) : result (list B) :=
  match l with
  | [] => Ok []
  | a :: l' => b ← f a; bs ← mapM f l'; Ok (b :: bs)
  end.

(** *** Characters *)

Definition code (c : ascii) : N := N_of_ascii c.

Definition in_range (lo hi : N) (c : ascii) : bool :=
  ((lo <=? code c) && (code c <=? hi))%N.

(** [str.isdigit] / the class [\d]. *)
Definition is_digit (c : ascii) : bool := in_range 48 57 c.

(** [str.isspace] / the class [\s]: TAB LF VT FF CR, FS GS RS US, SPACE. *)
Definition is_space (c : ascii) : bool :=
  in_range 9 13 c || in_range 28 32 c.

Definition is_upper (c : ascii) : bool := in_range 65 90 c.
Definition is_lower (c : ascii) : bool := in_range 97 122 c.
Definition is_alpha (c : ascii) : bool := is_upper c || is_lower c.

(** The class [\w]. *)
Definition is_word (c : ascii) : bool :=
  is_alpha c || is_digit c || (code c =? 95)%N.

Definition upper_char (c : ascii) : ascii :=
  if is_lower c then ascii_of_N (code c - 32) else c.

Definition lower_char (c : ascii) : ascii :=
  if is_upper c then ascii_of_N (code c + 32) else c.

Definition eqc (a b : ascii) : bool := (code a =? code b)%N.

(** *** Strings *)

Fixpoint map_str (f : ascii -> ascii) (s : string) : string :=
  match s with
  | EmptyString => EmptyString
  | String c s' => String (f c) (map_str f s')
  end.

(** [s.upper()] *)
Definition upper (s : string) : string := map_str upper_char s.

Fixpoint rev_str_acc (s acc : string) : string :=
  match s with
  | EmptyString => acc
  | String c s' => rev_str_acc s' (String c acc)
  end.
Definition rev_str (s : string) : string := rev_str_acc s EmptyString.

Fixpoint take_str (n : nat) (s : string) : string :=
  match n, s with
  | S n', String c s' => String c (take_str n' s')
  | _, _ => EmptyString
  end.

Fixpoint drop_str (n : nat) (s : string) : string :=
  match n, s with
  | S n', String _ s' => drop_str n' s'
  | _, _ => s
  end.

Definition len (s : string) : Z := Z.of_nat (String.length s).

(** [s[:-k]] and [s[-k:]] for [k > 0]. *)
Definition slice_upto_neg (s : string) (k : Z) : string :=
  take_str (String.length s - Z.to_nat k) s.
Definition slice_from_neg (s : string) (k : Z) : string :=
  drop_str (String.length s - Z.to_nat k) s.

(** [s[a:b]] for non-negative [a], [b]. *)
Definition slice (s : string) (a b : nat) : string :=
  take_str (b - a) (drop_str a s).

(** [s[i]] for a non-negative index. *)
Fixpoint str_get (s : string) (i : nat) : result ascii :=
  match s, i with
  | EmptyString, _ => Raise IndexError
  | String c _, O => Ok c
  | String _ s', S i' => str_get s' i'
  end.

(** [s[-1]] *)
Fixpoint str_last (s : string) : result ascii :=
  match s with
  | EmptyString => Raise IndexError
  | String c EmptyString => Ok c
  | String _ s' => str_last s'
  end.

(** [c * n] for a one-character string [c]. *)
Fixpoint repeat_char (c : ascii) (n : nat) : string :=
  match n with
  | O => EmptyString
  | S n' => String c (repeat_char c n')
  end.

Fixpoint lstrip_by (p : ascii -> bool) (s : string) : string :=
  match s with
  | EmptyString => EmptyString
  | String c s' => if p c then lstrip_by p s' else s
  end.
Definition rstrip_by (p : ascii -> bool) (s : string) : string :=
  rev_str (lstrip_by p (rev_str s)).

(** [s.strip()], [s.lstrip()], [s.rstrip()], [s.rstrip(".")] *)
Definition lstrip (s : string) : string := lstrip_by is_space s.
Definition rstrip (s : string) : string := rstrip_by is_space s.
Definition strip (s : string) : string := rstrip (lstrip s).
Definition rstrip_chars (chars : string) (s : string) : string :=
  rstrip_by (fun c => existsb (eqc c) (list_ascii_of_string chars)) s.

Fixpoint all_str (p : ascii -> bool) (s : string) : bool :=
  match s with
  | EmptyString => true
  | String c s' => p c && all_str p s'
  end.

Definition is_empty (s : string) : bool :=
  match s with EmptyString => true | _ => false end.

(** [s.startswith(p)] *)
Fixpoint startswith (p s : string) : bool :=
  match p, s with
  | EmptyString, _ => true
  | String a p', String b s' => eqc a b && startswith p' s'
  | _, _ => false
  end.

(** [s.endswith(p)] *)
Definition endswith (p s : string) : bool := startswith (rev_str p) (rev_str s).

(** [sep.join(l)] *)
Fixpoint join (sep : string) (l : list string) : string :=
  match l with
  | [] => EmptyString
  | [x] => x
  | x :: l' => x +:+ sep +:+ join sep l'
  end.

(** [s.split(c)] for a one-character separator [c]. *)
Fixpoint split_on_acc (c : ascii) (s : string) (cur : string) : list string :=
  match s with
  | EmptyString => [rev_str cur]
  | String a s' =>
      if eqc a c then rev_str cur :: split_on_acc c s' EmptyString
      else split_on_acc c s' (String a cur)
  end.
Definition split_on (c : ascii) (s : string) : list string :=
  split_on_acc c s EmptyString.

(** [s.split()]: the maximal runs of non-whitespace characters. *)
Fixpoint split_ws_acc (s : string) (cur : string) : list string :=
  match s with
  | EmptyString => if is_empty cur then [] else [rev_str cur]
  | String a s' =>
      if is_space a
      then (if is_empty cur then split_ws_acc s' EmptyString
            else rev_str cur :: split_ws_acc s' EmptyString)
      else split_ws_acc s' (String a cur)
  end.
Definition split_ws (s : string) : list string := split_ws_acc s EmptyString.

(** *** Integers and their decimal text *)

Definition digit_char (d : N) : ascii := ascii_of_N (48 + d).

Fixpoint str_of_N_aux (fuel : nat) (n : N) (acc : string) : string :=
  match fuel with
  | O => acc
  | S f =>
      let acc' := String (digit_char (n mod 10)) acc in
      if (n / 10 =? 0)%N then acc' else str_of_N_aux f (n / 10) acc'
  end.

(** [str(n)] for [n >= 0]; the binary logarithm of [n] bounds the number
    of its decimal digits. *)
Definition str_of_N (n : N) : string :=
  str_of_N_aux (S (N.to_nat (N.log2 n))) n EmptyString.

(** [str(z)] *)
Definition str (z : Z) : string :=
  if z <? 0 then String "-" (str_of_N (Z.abs_N z)) else str_of_N (Z.abs_N z).

(** [int(c)] for a one-character string. *)
Definition int_of_char (c : ascii) : result Z :=
  if is_digit c then Ok (Z.of_N (code c - 48)) else Raise ValueError.

Fixpoint int_of_digits (s : string) (acc : N) : result N :=
  match s with
  | EmptyString => Ok acc
  | String c s' =>
      if is_digit c then int_of_digits s' (10 * acc + (code c - 48))%N
      else Raise ValueError
  end.

(** [int(s)] for a text of decimal digits (what the callers pass: a
    capture of [\d+], or the coefficient of a Decimal). *)
Definition int (s : string) : result Z :=
  if is_empty s then Raise ValueError
  else n ← int_of_digits s 0%N; Ok (Z.of_N n).

(** [s.zfill(width)] for a text without a sign prefix. *)
Definition zfill (s : string) (width : Z) : string :=
  repeat_char "0" (Z.to_nat (width - len s)) +:+ s.

(** [range(start, stop, 2)] *)
Fixpoint range2_aux (fuel : nat) (i stop : Z) : list Z :=
  match fuel with
  | O => []
  | S f => if i <? stop then i :: range2_aux f (i + 2) stop else []
  end.
Definition range2 (start stop : Z) : list Z :=
  range2_aux (Z.to_nat (stop - start)) start stop.

(** *** Bytes *)

Definition byte_val (b : byte) : Z := Z.of_N (Byte.to_N b).

(** The element check of [bytearray.append] and of item assignment. *)
Definition to_byte (z : Z) : result byte :=
  if (0 <=? z) && (z <? 256) then
    match Byte.of_N (Z.to_N z) with
    | Some b => Ok b
    | None => Raise ValueError
    end
  else Raise ValueError.

End Py.

Import Py.

(* ================================================================== *)
(** ** [decimal.Decimal] under the default context *)
(* ================================================================== *)

Module Dec.

(** A finite Decimal, as the interpreter keeps it: [_sign] (0 or 1),
    [_int] (the coefficient as a text of digits without leading zeros)
    and [_exp].  The value is [(-1)^_sign * int(_int) * 10^_exp]. *)
Record Decimal : Type := mkDecimal {
  _sign : bool;
  _int : string;
  _exp : Z;
}.

(** The default context: [prec=28], [rounding=ROUND_HALF_EVEN],
    [Emin=-999999], [Emax=999999], [clamp=0]; among the signals that
    finite arithmetic can produce only [Overflow] is trapped. *)
Definition prec : Z := 28.
Definition Emax : Z := 999999.
Definition Emin : Z := -999999.
Definition Etiny : Z := Emin - prec + 1.
Definition Etop : Z := Emax - prec + 1.

(** [str(int(s))] on a text of digits. *)
Definition normal_int (s : string) : result string :=
  n ← int s; Ok (str n).

(** [Decimal(z)] for a Python int. *)
Definition of_int (z : Z) : Decimal :=
  mkDecimal (z <? 0) (str_of_N (Z.abs_N z)) 0.

(** [Decimal(s)] for the texts the decoders build: an optional sign,
    digits, optionally a point and more digits, with at least one digit.
    Anything else is reported as a conversion syntax error (exponents,
    NaN and infinities never reach the constructor from this code). *)
Definition split_point (s : string) : string * option string :=
  match split_on "." s with
  | [i] => (i, None)
  | [i; f] => (i, Some f)
  | _ => (s, None)
  end.

Definition split_sign (s : string) : bool * string :=
  match s with
  | String c r =>
      if eqc c "-" then (true, r)
      else if eqc c "+" then (false, r)
      else (false, s)
  | EmptyString => (false, s)
  end.

Definition of_str (s : string) : result Decimal :=
  let '(sg, body) := split_sign s in
  let '(intpart, frac) := split_point body in
  let fracpart := default EmptyString frac in
  if all_str is_digit intpart && all_str is_digit fracpart
     && negb (is_empty (intpart +:+ fracpart))
  then
    match normal_int (intpart +:+ fracpart) with
    | Ok coeff => Ok (mkDecimal sg coeff (- len fracpart))
    | Raise _ => Raise InvalidOperation
    end
  else Raise InvalidOperation.

(** [bool(d)] *)
Definition nonzero (d : Decimal) : bool := negb (String.eqb (_int d) "0").

(** [_round_half_even(self, prec)]: [true] when the coefficient cut to
    its first [digits] characters has to be incremented. *)
Definition exact_half (tail : string) : bool :=
  match tail with
  | String "5" z => all_str (eqc "0") z
  | _ => false
  end.

Definition round_half_up (i : string) (digits : nat) : bool :=
  match str_get i digits with
  | Ok c => in_range 53 57 c           (* in '56789' *)
  | Raise _ => false
  end.

Definition last_is_even (kept : string) : bool :=
  match str_last kept with
  | Ok c => N.even (code c)            (* in '02468', on a digit *)
  | Raise _ => true
  end.

Definition round_half_even (i : string) (digits : nat) : bool :=
  if exact_half (drop_str digits i)
     && ((digits =? 0)%nat || last_is_even (take_str digits i))
  then false
  else round_half_up i digits.

(** [Decimal._fix(context)]: round to the context precision and keep the
    exponent within bounds. *)
Definition _fix (d : Decimal) : result Decimal :=
  if negb (nonzero d) then
    let new_exp := Z.min (Z.max (_exp d) Etiny) Emax in
    Ok (mkDecimal (_sign d) "0" new_exp)
  else
    let exp_min := len (_int d) + _exp d - prec in
    if exp_min >? Etop then Raise Overflow
    else
      let exp_min := if exp_min <? Etiny then Etiny else exp_min in
      if _exp d <? exp_min then
        let digits := len (_int d) + _exp d - exp_min in
        let '(i, digits) :=
          if digits <? 0 then ("1"%string, 0) else (_int d, digits) in
        let digits := Z.to_nat digits in
        let changed := round_half_even i digits in
        let coeff :=
          if is_empty (take_str digits i) then "0"%string
          else take_str digits i in
        match (if changed then
                 c ← int coeff;
                 let coeff' := str (c + 1) in
                 if len coeff' >? prec
                 then Ok (slice_upto_neg coeff' 1, exp_min + 1)
                 else Ok (coeff', exp_min)
               else Ok (coeff, exp_min)) with
        | Ok (coeff, exp_min) =>
            if exp_min >? Etop then Raise Overflow
            else Ok (mkDecimal (_sign d) coeff exp_min)
        | Raise e => Raise e
        end
      else Ok d.

(** [a * b] *)
Definition mul (a b : Decimal) : result Decimal :=
  let resultsign := xorb (_sign a) (_sign b) in
  let resultexp := _exp a + _exp b in
  if negb (nonzero a) || negb (nonzero b) then
    _fix (mkDecimal resultsign "0" resultexp)
  else if String.eqb (_int a) "1" then
    _fix (mkDecimal resultsign (_int b) resultexp)
  else if String.eqb (_int b) "1" then
    _fix (mkDecimal resultsign (_int a) resultexp)
  else
    x ← int (_int a);
    y ← int (_int b);
    _fix (mkDecimal resultsign (str (x * y)) resultexp).

(** [d * z] with a Python int on the right. *)
Definition mul_int (d : Decimal) (z : Z) : result Decimal := mul d (of_int z).

(** [abs(d)] *)
Definition abs (d : Decimal) : result Decimal :=
  _fix (mkDecimal false (_int d) (_exp d)).

(** [d >= 0] *)
Definition ge_zero (d : Decimal) : bool := negb (nonzero d) || negb (_sign d).

(** [d < 0] *)
Definition lt_zero (d : Decimal) : bool := nonzero d && _sign d.

(** [d.is_signed()] *)
Definition is_signed (d : Decimal) : bool := _sign d.

(** [int(d)]: truncation towards zero. *)
Definition to_int (d : Decimal) : result Z :=
  let s := if _sign d then -1 else 1 in
  if _exp d >=? 0 then
    c ← int (_int d); Ok (s * c * 10 ^ _exp d)
  else
    let kept := slice_upto_neg (_int d) (- _exp d) in
    c ← int (if is_empty kept then "0"%string else kept); Ok (s * c).

End Dec.

(* ================================================================== *)
(** ** utils/encoding.py: EBCDICConverter *)
(* ================================================================== *)

Module EBCDICConverter.

Import Dec.

(** The block shared by both decimal decoders:
<<
        if scale > 0:
            if len(num_str) <= scale:
                num_str = "0" * (scale - len(num_str) + 1) + num_str
            num_str = num_str[:-scale] + "." + num_str[-scale:]
>> *)
Definition insert_decimal_point (num_str : string) (scale : Z) : string :=
  if scale >? 0 then
    let num_str :=
      if len num_str <=? scale
      then repeat_char "0" (Z.to_nat (scale - len num_str + 1)) +:+ num_str
      else num_str in
    slice_upto_neg num_str scale +:+ "." +:+ slice_from_neg num_str scale
  else num_str.

Definition hi_nibble (b : byte) : Z := Z.shiftr (byte_val b) 4.
Definition lo_nibble (b : byte) : Z := Z.land (byte_val b) 15.

Definition decode_packed_decimal (data : list byte) (scale : Z)
  : result Decimal :=
  match data with
  | [] => Ok (of_int 0)
  | _ =>
      let digits :=
        flat_map (fun b => [hi_nibble b; lo_nibble b]) (removelast data)
        ++ [hi_nibble (List.last data x00)] in
      let sign_nibble := lo_nibble (List.last data x00) in
      let num_str := join EmptyString (map str digits) in
      let num_str := insert_decimal_point num_str scale in
      let num_str :=
        if sign_nibble =? 13 then String "-" num_str else num_str in
      of_str num_str
  end.

(** The packing loop of [encode_packed_decimal]. *)
Definition pack_pair (digits : string) (i : Z) : result byte :=
  c ← str_get digits (Z.to_nat i);
  high ← int_of_char c;
  low ← (if i + 1 <? len digits
         then c' ← str_get digits (Z.to_nat (i + 1)); int_of_char c'
         else Ok 0);
  to_byte (Z.lor (Z.shiftl high 4) low).

Definition encode_packed_decimal (value : Decimal) (precision scale : Z)
  : result (list byte) :=
  let sign := if ge_zero value then 12 else 13 in
  value ← abs value;
  value ← (if scale >? 0 then mul_int value (10 ^ scale) else Ok value);
  value ← to_int value;
  let digits := zfill (str value) precision in
  result ← mapM (pack_pair digits) (range2 0 (len digits - 1));
  if (len digits) mod 2 =? 0 then
    c ← str_last digits;
    last_digit ← int_of_char c;
    b ← to_byte (Z.lor (Z.shiftl last_digit 4) sign);
    Ok (result ++ [b])
  else
    match result with
    | [] => Raise IndexError
    | _ =>
        b ← to_byte (Z.lor (Z.land (byte_val (List.last result x00)) 240) sign);
        Ok (removelast result ++ [b])
    end.

Definition decode_zoned_decimal (data : list byte) (scale : Z)
  : result Decimal :=
  match data with
  | [] => Ok (of_int 0)
  | _ =>
      let digits := map (fun b => str (lo_nibble b)) data in
      let sign := if hi_nibble (List.last data x00) =? 13 then -1 else 1 in
      let num_str := join EmptyString digits in
      let num_str := insert_decimal_point num_str scale in
      result ← of_str num_str;
      mul_int result sign
  end.

(** [int.from_bytes(data, byteorder="big", signed=signed)] *)
Definition from_bytes_big (data : list byte) (signed : bool) : Z :=
  let u := fold_left (fun acc b => acc * 256 + byte_val b) data 0 in
  let bits := 8 * Z.of_nat (length data) in
  if signed && (2 ^ (bits - 1) <=? u) && negb (bits =? 0) then u - 2 ^ bits
  else u.

Definition decode_binary (data : list byte) (signed : bool) : Z :=
  match data with
  | [] => 0
  | _ => from_bytes_big data signed
  end.

(** The module-level dict [CCSID_CODECS], in the order of its literal
    (the order in which [items()] yields it). *)
Definition CCSID_CODECS : list (Z * string) :=
  [ (37, "cp037"); (500, "cp500"); (1047, "cp1047"); (1140, "cp1140");
    (1200, "utf-16"); (1208, "utf-8");
    (930, "cp930"); (935, "cp935"); (937, "cp937");
    (273, "cp273"); (284, "cp284"); (285, "cp285"); (297, "cp297") ]%string.

(** [CCSID_CODECS.get(ccsid, default)] *)
Definition codecs_get (ccsid : Z) (default : string) : string :=
  match find (fun e => fst e =? ccsid) CCSID_CODECS with
  | Some (_, name) => name
  | None => default
  end.

(** [_get_ccsid]: the first entry of the dict with that codec name. *)
Definition _get_ccsid (codec : string) : option Z :=
  match find (fun e => String.eqb (snd e) codec) CCSID_CODECS with
  | Some (ccsid, _) => Some ccsid
  | None => None
  end.

(** [s.isdigit()] *)
Definition isdigit (s : string) : bool :=
  all_str is_digit s && negb (is_empty s).

(** The attributes of a converter object. *)
Record Converter : Type := mkConverter {
  codec : string;
  ccsid : option Z;
}.

(** [EBCDICConverter(codec)] *)
Definition __init__ (codec : string) : result Converter :=
  codec ← (if isdigit codec
           then ccsid ← int codec; Ok (codecs_get ccsid "cp037")
           else Ok codec);
  Ok (mkConverter codec (_get_ccsid codec)).

End EBCDICConverter.

(* ================================================================== *)
(** ** Python's [re]: a backtracking matcher with capture groups *)
(* ================================================================== *)

Module Re.

(** The constructs the patterns of this code base use.  Alternation is
    ordered, [Star] is greedy and [LazyStar] is not, as in [re]. *)
Inductive regex : Type :=
  | Eps
  | Cls (p : ascii -> bool)        (* one character of a class *)
  | Cat (r1 r2 : regex)
  | Alt (r1 r2 : regex)
  | Star (r : regex)               (* r*  *)
  | LazyStar (r : regex)           (* r*? *)
  | Grp (i : nat) (r : regex)      (* the i-th capture group *)
  | Bos                            (* ^ without MULTILINE *)
  | Eos                            (* $ without MULTILINE *)
  | Eol.                           (* $ with MULTILINE *)

Definition caps : Type := list (nat * string).

Fixpoint lookup_cap (i : nat) (c : caps) : option string :=
  match c with
  | [] => None
  | (j, s) :: c' => if (i =? j)%nat then Some s else lookup_cap i c'
  end.

(** A matcher state: the text still to read, its position in the
    subject, the groups captured so far. *)
Definition cont : Type := string -> nat -> caps -> option (string * nat * caps).

Definition newline : ascii := ascii_of_N 10.

Fixpoint run (r : regex) (s : string) (p : nat) (c : caps) (k : cont)
  : option (string * nat * caps) :=
  match r with
  | Eps => k s p c
  | Cls f =>
      match s with
      | String a s' => if f a then k s' (S p) c else None
      | EmptyString => None
      end
  | Cat r1 r2 => run r1 s p c (fun s' p' c' => run r2 s' p' c' k)
  | Alt r1 r2 =>
      match run r1 s p c k with
      | Some x => Some x
      | None => run r2 s p c k
      end
  | Star r' =>
      (fix loop (n : nat) (s : string) (p : nat) (c : caps) :=
         match n with
         | O => k s p c
         | S n' =>
             match run r' s p c
                     (fun s' p' c' =>
                        if (p <? p')%nat then loop n' s' p' c' else None) with
             | Some x => Some x
             | None => k s p c
             end
         end) (String.length s) s p c
  | LazyStar r' =>
      (fix loop (n : nat) (s : string) (p : nat) (c : caps) :=
         match k s p c with
         | Some x => Some x
         | None =>
             match n with
             | O => None
             | S n' =>
                 run r' s p c
                   (fun s' p' c' =>
                      if (p <? p')%nat then loop n' s' p' c' else None)
             end
         end) (String.length s) s p c
  | Grp i r' =>
      run r' s p c (fun s' p' c' => k s' p' ((i, take_str (p' - p) s) :: c'))
  | Bos => if (p =? 0)%nat then k s p c else None
  | Eos =>
      match s with
      | EmptyString => k s p c
      | String a EmptyString => if eqc a newline then k s p c else None
      | _ => None
      end
  | Eol =>
      match s with
      | EmptyString => k s p c
      | String a _ => if eqc a newline then k s p c else None
      end
  end.

(** A match object: where it starts and ends, and its groups. *)
Record Match : Type := mkMatch {
  m_start : nat;
  m_end : nat;
  m_text : string;          (* group(0) *)
  m_rest : string;          (* the subject after the match *)
  m_caps : caps;
}.

(** [m.group(i)] for [i >= 1]: [None] when the group took no part. *)
Definition group (m : Match) (i : nat) : option string :=
  lookup_cap i (m_caps m).

Definition match_at (r : regex) (s : string) (p : nat) : option Match :=
  match run r s p [] (fun s' p' c' => Some (s', p', c')) with
  | Some (s', p', c') => Some (mkMatch p p' (take_str (p' - p) s) s' c')
  | None => None
  end.

(** [pattern.match(s)] *)
Definition match_ (r : regex) (s : string) : option Match := match_at r s 0.

(** [pattern.search(s)]: the leftmost match. *)
Fixpoint search_from (r : regex) (s : string) (p : nat) : option Match :=
  match match_at r s p with
  | Some m => Some m
  | None =>
      match s with
      | EmptyString => None
      | String _ s' => search_from r s' (S p)
      end
  end.
Definition search (r : regex) (s : string) : option Match := search_from r s 0.

(** [pattern.sub] with the empty replacement, for a pattern that matches
    no empty text: every
    match is dropped, left to right. *)
Fixpoint sub_empty_aux (fuel : nat) (r : regex) (s : string) (p : nat)
  : string :=
  match fuel with
  | O => s
  | S f =>
      match match_at r s p with
      | Some m =>
          if (m_start m <? m_end m)%nat then sub_empty_aux f r (m_rest m) (m_end m)
          else match s with
               | EmptyString => EmptyString
               | String a s' => String a (sub_empty_aux f r s' (S p))
               end
      | None =>
          match s with
          | EmptyString => EmptyString
          | String a s' => String a (sub_empty_aux f r s' (S p))
          end
      end
  end.
Definition sub_empty (r : regex) (s : string) : string :=
  sub_empty_aux (S (String.length s)) r s 0.

(** *** Pattern combinators *)

Definition chr (c : ascii) : regex := Cls (eqc c).
(** A letter under [re.IGNORECASE]. *)
Definition ichr (c : ascii) : regex :=
  Cls (fun a => eqc (upper_char a) (upper_char c)).
Fixpoint seq (l : list regex) : regex :=
  match l with
  | [] => Eps
  | [r] => r
  | r :: l' => Cat r (seq l')
  end.
(** A literal word, with and without [re.IGNORECASE]. *)
Definition ilit (s : string) : regex := seq (map ichr (list_ascii_of_string s)).
Definition lit (s : string) : regex := seq (map chr (list_ascii_of_string s)).
Definition opt (r : regex) : regex := Alt r Eps.            (* r? *)
Definition plus (r : regex) : regex := Cat r (Star r).      (* r+ *)
Definition one_of (s : string) : regex :=                   (* [...] *)
  Cls (fun a => existsb (eqc a) (list_ascii_of_string s)).
(** [[...]] under [re.IGNORECASE]. *)
Definition ione_of (s : string) : regex :=
  Cls (fun a => existsb (fun b => eqc (upper_char a) (upper_char b))
                        (list_ascii_of_string s)).
Definition none_of (s : string) : regex :=                  (* [^...] *)
  Cls (fun a => negb (existsb (eqc a) (list_ascii_of_string s))).
Definition digit : regex := Cls is_digit.                   (* \d *)
Definition space : regex := Cls is_space.                   (* \s *)
Definition word : regex := Cls is_word.                     (* \w *)
Definition dot : regex := Cls (fun a => negb (eqc a newline)).  (* . *)
Definition dot_all : regex := Cls (fun _ => true).          (* . with DOTALL *)

End Re.

(* ================================================================== *)
(** ** converters/vsam_types.py *)
(* ================================================================== *)

(** The part of [pyspark.sql.types] that the converters return. *)
Inductive DataType : Type :=
  | StringType
  | IntegerType
  | LongType
  | ShortType
  | FloatType
  | DoubleType
  | DecimalType (precision scale : Z)
  | DateType
  | TimestampType
  | BinaryType.

Inductive CobolUsage : Type :=
  | DISPLAY | COMP | COMP_1 | COMP_2 | COMP_3 | COMP_4 | COMP_5.

Inductive CobolPicType : Type :=
  | ALPHANUMERIC | ALPHABETIC | NUMERIC | SIGNED_NUMERIC.

Record ParsedPicClause : Type := mkParsedPicClause {
  pic_type : CobolPicType;
  integer_digits : Z;
  decimal_digits : Z;
  usage : CobolUsage;
  total_length : Z;
  is_signed : bool;
}.

Module ParsedPic.

Definition total_digits (p : ParsedPicClause) : Z :=
  integer_digits p + decimal_digits p.

Definition is_alphanumeric (p : ParsedPicClause) : bool :=
  match pic_type p with
  | ALPHANUMERIC | ALPHABETIC => true
  | _ => false
  end.

Definition is_packed (p : ParsedPicClause) : bool :=
  match usage p with COMP_3 => true | _ => false end.

Definition is_binary (p : ParsedPicClause) : bool :=
  match usage p with COMP | COMP_4 | COMP_5 => true | _ => false end.

End ParsedPic.

Module VSAMTypeConverter.

Import Re ParsedPic.

(** [COMP(?:-[1-5])?] under IGNORECASE, as it occurs in three patterns. *)
Definition comp_re : regex :=
  Cat (ilit "COMP") (opt (Cat (chr "-") (one_of "12345"))).

(**
<<
    PIC\s+ (S)? ([XA9]) \((\d+)\) (?:V(?:9\((\d+)\)|(\d+)))?
    (?:\s+(COMP(?:-[1-5])?))? (?:\s+OCCURS\s+(\d+))?       IGNORECASE
>> *)
Definition PIC_PATTERN : regex :=
  seq [ ilit "PIC"; plus space;
        opt (Grp 1 (ichr "S"));
        Grp 2 (ione_of "XA9");
        chr "("; Grp 3 (plus digit); chr ")";
        opt (Cat (ichr "V")
                 (Alt (seq [chr "9"; chr "("; Grp 4 (plus digit); chr ")"])
                      (Grp 5 (plus digit))));
        opt (Cat (plus space) (Grp 6 comp_re));
        opt (seq [plus space; ilit "OCCURS"; plus space; Grp 7 (plus digit)]) ].

(**
<<
    PIC\s+ (S)? ([XA9]+) (?:V([9]+))? (?:\s+(COMP(?:-[1-5])?))?   IGNORECASE
>> *)
Definition PIC_INLINE_PATTERN : regex :=
  seq [ ilit "PIC"; plus space;
        opt (Grp 1 (ichr "S"));
        Grp 2 (plus (ione_of "XA9"));
        opt (Cat (ichr "V") (Grp 3 (plus (chr "9"))));
        opt (Cat (plus space) (Grp 4 comp_re)) ].

(** [x or y] on optional texts that are non-empty when present. *)
Definition or_else (a b : option string) : option string :=
  match a with Some _ => a | None => b end.

(** [s.replace] of a blank by nothing. *)
Fixpoint remove_spaces (s : string) : string :=
  match s with
  | EmptyString => EmptyString
  | String a s' =>
      if eqc a " " then remove_spaces s' else String a (remove_spaces s')
  end.

(** [usage_map.get(comp, CobolUsage.DISPLAY)] *)
Definition usage_map_get (comp : string) : CobolUsage :=
  if String.eqb comp "COMP" then COMP
  else if String.eqb comp "COMP-1" then COMP_1
  else if String.eqb comp "COMP-2" then COMP_2
  else if String.eqb comp "COMP-3" then COMP_3
  else if String.eqb comp "COMP-4" then COMP_4
  else if String.eqb comp "COMP-5" then COMP_5
  else DISPLAY.

(** What the two patterns extract: [sign], [base_type], [integer_digits],
    [decimal_digits], [comp]. *)
Definition pic_parts : Type :=
  option string * string * Z * Z * option string.

Definition match_pic (pic_clause : string) : result pic_parts :=
  match match_ PIC_PATTERN pic_clause with
  | Some m =>
      let sign := group m 1 in
      let base_type := default EmptyString (group m 2) in
      let length := default EmptyString (group m 3) in
      let decimal_paren := group m 4 in
      let decimal_inline := group m 5 in
      let comp := group m 6 in
      integer_digits ← int length;
      decimal_digits ←
        match or_else decimal_paren decimal_inline with
        | Some d => int d
        | None => Ok 0
        end;
      Ok (sign, base_type, integer_digits, decimal_digits, comp)
  | None =>
      match match_ PIC_INLINE_PATTERN pic_clause with
      | Some m =>
          let sign := group m 1 in
          let type_chars := default EmptyString (group m 2) in
          let decimal_chars := group m 3 in
          let comp := group m 4 in
          let base_type := take_str 1 type_chars in
          let integer_digits := len type_chars in
          let decimal_digits :=
            match decimal_chars with
            | Some d => len d
            | None => 0
            end in
          Ok (sign, base_type, integer_digits, decimal_digits, comp)
      | None => Raise ValueError
      end
  end.

Definition parse_pic_clause (pic_clause : string) : result ParsedPicClause :=
  let pic_clause := upper (strip pic_clause) in
  '(sign, base_type, integer_digits, decimal_digits, comp) ←
     match_pic pic_clause;
  (* Determine PIC type *)
  let pic_type :=
    if String.eqb base_type "X" then ALPHANUMERIC
    else if String.eqb base_type "A" then ALPHABETIC
    else if bool_decide (is_Some sign) then SIGNED_NUMERIC
    else NUMERIC in
  (* Determine USAGE *)
  let usage :=
    match comp with
    | Some comp => usage_map_get (remove_spaces (upper comp))
    | None => DISPLAY
    end in
  (* Calculate storage length *)
  let total_digits := integer_digits + decimal_digits in
  let total_length :=
    match usage with
    | DISPLAY => total_digits
    | COMP_3 => (total_digits + 1) / 2 + 1
    | COMP | COMP_4 | COMP_5 =>
        if total_digits <=? 4 then 2
        else if total_digits <=? 9 then 4
        else 8
    | COMP_1 => 4
    | COMP_2 => 8
    end in
  Ok (mkParsedPicClause pic_type integer_digits decimal_digits usage
        total_length
        (bool_decide (is_Some sign)
         || match pic_type with SIGNED_NUMERIC => true | _ => false end)).

Definition _get_binary_type (digits : Z) : DataType :=
  if digits <=? 4 then ShortType
  else if digits <=? 9 then IntegerType
  else LongType.

Definition _get_integer_type (digits : Z) : DataType :=
  if digits <=? 4 then ShortType
  else if digits <=? 9 then IntegerType
  else LongType.

Definition _map_to_spark_type (parsed : ParsedPicClause) : DataType :=
  if is_alphanumeric parsed then StringType
  else match usage parsed with
       | COMP_1 => FloatType
       | COMP_2 => DoubleType
       | _ =>
           if is_packed parsed || (decimal_digits parsed >? 0) then
             DecimalType (total_digits parsed) (decimal_digits parsed)
           else if is_binary parsed then
             _get_binary_type (total_digits parsed)
           else _get_integer_type (total_digits parsed)
       end.

(** [convert]: only [ValueError] is caught. *)
Definition convert (pic_clause : string) : result DataType :=
  match parse_pic_clause pic_clause with
  | Ok parsed => Ok (_map_to_spark_type parsed)
  | Raise ValueError => Ok StringType
  | Raise e => Raise e
  end.

Definition get_storage_bytes (pic_clause : string) : result Z :=
  parsed ← parse_pic_clause pic_clause;
  Ok (total_length parsed).

End VSAMTypeConverter.

(* ================================================================== *)
(** ** parsers/copybook_parser.py *)
(* ================================================================== *)

(** The dataclass [CopybookField]. *)
Module Field.

Record t : Type := mk {
  name : string;
  level : Z;
  pic_clause : option string;
  length : Z;
  offset : Z;
  is_filler : bool;
  is_group : bool;
  occurs : Z;
  redefines : option string;
  parent : option string;
  children : list string;
}.

Definition is_elementary (f : t) : bool :=
  bool_decide (is_Some (pic_clause f)) && negb (is_group f).

Definition total_length (f : t) : Z := length f * occurs f.

(** Attribute assignments. *)
Definition set_offset (o : Z) (f : t) : t :=
  mk (name f) (level f) (pic_clause f) (length f) o (is_filler f)
     (is_group f) (occurs f) (redefines f) (parent f) (children f).
Definition set_length (l : Z) (f : t) : t :=
  mk (name f) (level f) (pic_clause f) l (offset f) (is_filler f)
     (is_group f) (occurs f) (redefines f) (parent f) (children f).
Definition set_parent (p : option string) (f : t) : t :=
  mk (name f) (level f) (pic_clause f) (length f) (offset f) (is_filler f)
     (is_group f) (occurs f) (redefines f) p (children f).
Definition append_child (c : string) (f : t) : t :=
  mk (name f) (level f) (pic_clause f) (length f) (offset f) (is_filler f)
     (is_group f) (occurs f) (redefines f) (parent f) (children f ++ [c]).

End Field.

Abbreviation CopybookField := Field.t.

Module CopybookParser.

Import Re.

(** [^\s*(\d{2})\s+([\w-]+)( .* )$]   IGNORECASE; the third group is
    dot-star *)
Definition LEVEL_PATTERN : regex :=
  seq [ Bos; Star space; Grp 1 (Cat digit digit); plus space;
        Grp 2 (plus (Cls (fun a => is_word a || eqc a "-")));
        Grp 3 (Star dot); Eos ].

(** [[XA9]+(?:\(\d+\))?] and [[9]+(?:\(\d+\))?] *)
Definition run_with_count (cls : regex) : regex :=
  Cat (plus cls) (opt (seq [chr "("; plus digit; chr ")"])).

(** [PIC(?:TURE)?\s+(S)?([XA9]+(?:\(\d+\))?)(?:V([9]+(?:\(\d+\))?))?]
    IGNORECASE *)
Definition PIC_PATTERN : regex :=
  seq [ ilit "PIC"; opt (ilit "TURE"); plus space;
        opt (Grp 1 (ichr "S"));
        Grp 2 (run_with_count (ione_of "XA9"));
        opt (Cat (ichr "V") (Grp 3 (run_with_count (chr "9")))) ].

(** [OCCURS\s+(\d+)]   IGNORECASE *)
Definition OCCURS_PATTERN : regex :=
  seq [ ilit "OCCURS"; plus space; Grp 1 (plus digit) ].

(** [REDEFINES\s+([\w-]+)]   IGNORECASE *)
Definition REDEFINES_PATTERN : regex :=
  seq [ ilit "REDEFINES"; plus space;
        Grp 1 (plus (Cls (fun a => is_word a || eqc a "-"))) ].

(** [(COMP(?:-[1-5])?)]   IGNORECASE *)
Definition COMP_PATTERN : regex := Grp 1 VSAMTypeConverter.comp_re.

(** The loop state of [_clean_content]: [lines] and [current_line]. *)
Definition clean_step (st : list string * string) (line : string)
  : list string * string :=
  let '(lines, current_line) := st in
  if is_empty (strip line) then st
  else
    let indicator :=
      match str_get line 6 with Ok c => Some c | Raise _ => None end in
    match indicator with
    | Some "*"%char => st
    | Some "-"%char => (lines, rstrip current_line +:+ lstrip (drop_str 7 line))
    | _ =>
        let line_content :=
          if 7 <=? len line
          then (if 7 <? len line then slice line 7 72 else EmptyString)
          else line in
        (* a pending continuation is completed *)
        let '(lines, current_line) :=
          if is_empty current_line then (lines, current_line)
          else (lines ++ [current_line], EmptyString) in
        (* inline comments *)
        let line_content :=
          if existsb (eqc "*") (list_ascii_of_string line_content)
          then default EmptyString (head (split_on "*" line_content))
          else line_content in
        let line_content := strip line_content in
        if is_empty line_content then (lines, current_line)
        else if endswith "." line_content
             then (lines ++ [line_content], current_line)
             else (lines, line_content)
    end.

Definition _clean_content (content : string) : list string :=
  let '(lines, current_line) :=
    fold_left clean_step (split_on newline content) ([], EmptyString) in
  if is_empty current_line then lines else lines ++ [current_line].

Definition _parse_line (line : string) : result (option CopybookField) :=
  let line := rstrip_chars "." line in
  match match_ LEVEL_PATTERN line with
  | None => Ok None
  | Some m =>
      level ← int (default EmptyString (group m 1));
      let name := upper (default EmptyString (group m 2)) in
      let rest := default EmptyString (group m 3) in
      if (level =? 66) || (level =? 88) then Ok None
      else
        let is_filler := String.eqb name "FILLER" in
        let redefines :=
          match search REDEFINES_PATTERN rest with
          | Some rm => Some (upper (default EmptyString (group rm 1)))
          | None => None
          end in
        occurs ←
          match search OCCURS_PATTERN rest with
          | Some om => int (default EmptyString (group om 1))
          | None => Ok 1
          end;
        let pic_clause :=
          match search PIC_PATTERN rest with
          | Some pm =>
              let sign := default EmptyString (group pm 1) in
              let integer_part := default EmptyString (group pm 2) in
              let decimal_part := default EmptyString (group pm 3) in
              let pic := "PIC " +:+ sign +:+ integer_part in
              let pic :=
                if is_empty decimal_part then pic
                else pic +:+ "V" +:+ decimal_part in
              match search COMP_PATTERN rest with
              | Some cm =>
                  Some (pic +:+ " " +:+ upper (default EmptyString (group cm 1)))
              | None => Some pic
              end
          | None => None
          end in
        let is_group :=
          negb (bool_decide (is_Some pic_clause)) && negb is_filler in
        Ok (Some (Field.mk name level pic_clause 0 0 is_filler is_group
                    occurs redefines None []))
  end.

Definition _calculate_length (pic_clause : option string) : result Z :=
  match pic_clause with
  | None => Ok 0
  | Some p =>
      if is_empty p then Ok 0 else VSAMTypeConverter.get_storage_bytes p
  end.

(** [for f in reversed(fields): if f.name == n: ...; break], as the
    search for the last field of that name. *)
Definition find_last (n : string) (fields : list CopybookField)
  : option CopybookField :=
  find (fun f => String.eqb (Field.name f) n) (rev fields).

(** [f.children.append(c)] on the last field named [n]. *)
Fixpoint append_child_rev (n c : string) (rfields : list CopybookField)
  : list CopybookField :=
  match rfields with
  | [] => []
  | f :: r =>
      if String.eqb (Field.name f) n then Field.append_child c f :: r
      else f :: append_child_rev n c r
  end.
Definition append_child_last (n c : string) (fields : list CopybookField)
  : list CopybookField :=
  rev (append_child_rev n c (rev fields)).

(** An entry [(level, name, offset)] of [parent_stack]; the head of the
    list is the top [parent_stack[-1]]. *)
Definition stack_entry : Type := Z * string * Z.

Fixpoint pop_while (lvl : Z) (stack : list stack_entry) : list stack_entry :=
  match stack with
  | (l, n, o) :: stack' =>
      if l >=? lvl then pop_while lvl stack' else stack
  | [] => []
  end.

(** The loop state of [parse_content]. *)
Record state : Type := mkState {
  fields : list CopybookField;
  current_offset : Z;
  parent_stack : list stack_entry;
}.

(** The body of the loop for a line that holds a field. *)
Definition place_field (ignore_fillers : bool) (st : state)
  (field : CopybookField) : result state :=
  let fields := fields st in
  let current_offset := current_offset st in
  (* hierarchy by level numbers *)
  let parent_stack := pop_while (Field.level field) (parent_stack st) in
  let field :=
    match parent_stack with
    | (_, pname, _) :: _ =>
        let field := Field.set_parent (Some pname) field in
        if Field.is_group field then Field.set_offset current_offset field
        else field
    | [] => Field.set_offset current_offset field
    end in
  (* offset of elementary items *)
  '(field, current_offset) ←
    (if Field.is_elementary field then
       let field := Field.set_offset current_offset field in
       l ← _calculate_length (Field.pic_clause field);
       let field := Field.set_length l field in
       Ok (field, current_offset + Field.total_length field)
     else Ok (field, current_offset));
  (* REDEFINES *)
  let field :=
    match Field.redefines field with
    | Some r =>
        if is_empty r then field
        else match find_last r fields with
             | Some f => Field.set_offset (Field.offset f) field
             | None => field
             end
    | None => field
    end in
  (* children of the parent *)
  let fields :=
    match parent_stack with
    | (_, pname, _) :: _ => append_child_last pname (Field.name field) fields
    | [] => fields
    end in
  (* group items go on the stack *)
  let parent_stack :=
    if Field.is_group field
    then (Field.level field, Field.name field, Field.offset field)
         :: parent_stack
    else parent_stack in
  (* filter *)
  let fields :=
    if ignore_fillers && Field.is_filler field then fields
    else fields ++ [field] in
  Ok (mkState fields current_offset parent_stack).

Definition parse_step (ignore_fillers : bool) (st : state) (line : string)
  : result state :=
  field ← _parse_line line;
  match field with
  | None => Ok st
  | Some field => place_field ignore_fillers st field
  end.

Fixpoint parse_lines (ignore_fillers : bool) (st : state)
  (lines : list string) : result state :=
  match lines with
  | [] => Ok st
  | line :: lines' =>
      st' ← parse_step ignore_fillers st line;
      parse_lines ignore_fillers st' lines'
  end.

(** [parse_content] of a parser built with [ignore_fillers]. *)
Definition parse_content (ignore_fillers : bool) (content : string)
  : result (list CopybookField) :=
  st ← parse_lines ignore_fillers (mkState [] 0 []) (_clean_content content);
  Ok (fields st).

Definition get_elementary_fields (fields : list CopybookField)
  : list CopybookField :=
  filter (fun f => Field.is_elementary f && negb (Field.is_filler f)) fields.

Definition get_record_length (fields : list CopybookField) : Z :=
  fold_left
    (fun max_offset f =>
       if Field.is_elementary f
       then Z.max max_offset (Field.offset f + Field.total_length f)
       else max_offset)
    fields 0.

End CopybookParser.

(* ================================================================== *)
(** ** parsers/ddl_parser.py *)
(* ================================================================== *)

(** The dataclass [DDLColumn]. *)
Module Column.

Record t : Type := mk {
  name : string;
  data_type : string;
  nullable : bool;
  default_value : option string;
  is_primary_key : bool;
  foreign_key_ref : option string;
}.

Definition set_is_primary_key (b : bool) (c : t) : t :=
  mk (name c) (data_type c) (nullable c) (default_value c) b
     (foreign_key_ref c).
Definition set_foreign_key_ref (r : option string) (c : t) : t :=
  mk (name c) (data_type c) (nullable c) (default_value c)
     (is_primary_key c) r.

End Column.

(** The dataclass [DDLTable]. *)
Module Table.

Record t : Type := mk {
  schema : string;
  name : string;
  columns : list Column.t;
  primary_key : list string;
  foreign_keys : gmap string string;
}.

End Table.

Abbreviation DDLColumn := Column.t.
Abbreviation DDLTable := Table.t.

Module DDLParser.

Import Re.

(** [CREATE\s+TABLE\s+(?:(\w+)\.)?(\w+)\s*\(( .* )\)]   IGNORECASE, DOTALL;
    the third group is dot-star *)
Definition CREATE_TABLE_PATTERN : regex :=
  seq [ ilit "CREATE"; plus space; ilit "TABLE"; plus space;
        opt (Cat (Grp 1 (plus word)) (chr "."));
        Grp 2 (plus word); Star space;
        chr "("; Grp 3 (Star dot_all); chr ")" ].

(** [(\w+)\s+([A-Z]+(?:\s*\([^)]+\))?(?:\s+FOR\s+BIT\s+DATA)?)
     (\s+NOT\s+NULL)?(\s+WITH\s+DEFAULT\s+[^,]+)?]   IGNORECASE *)
Definition COLUMN_PATTERN : regex :=
  seq [ Grp 1 (plus word); plus space;
        Grp 2 (seq [ plus (Cls is_alpha);
                     opt (seq [Star space; chr "("; plus (none_of ")"); chr ")"]);
                     opt (seq [plus space; ilit "FOR"; plus space; ilit "BIT";
                               plus space; ilit "DATA"]) ]);
        opt (Grp 3 (seq [plus space; ilit "NOT"; plus space; ilit "NULL"]));
        opt (Grp 4 (seq [plus space; ilit "WITH"; plus space; ilit "DEFAULT";
                         plus space; plus (none_of ",")])) ].

(** [PRIMARY\s+KEY\s*\(([^)]+)\)]   IGNORECASE *)
Definition PRIMARY_KEY_PATTERN : regex :=
  seq [ ilit "PRIMARY"; plus space; ilit "KEY"; Star space;
        chr "("; Grp 1 (plus (none_of ")")); chr ")" ].

(** [FOREIGN\s+KEY\s+(\w+)\s*\(([^)]+)\)\s*
     REFERENCES\s+(\w+(?:\.\w+)?)\s*\(([^)]+)\)]   IGNORECASE *)
Definition FOREIGN_KEY_PATTERN : regex :=
  seq [ ilit "FOREIGN"; plus space; ilit "KEY"; plus space;
        Grp 1 (plus word); Star space;
        chr "("; Grp 2 (plus (none_of ")")); chr ")"; Star space;
        ilit "REFERENCES"; plus space;
        Grp 3 (Cat (plus word) (opt (Cat (chr ".") (plus word))));
        Star space;
        chr "("; Grp 4 (plus (none_of ")")); chr ")" ].

(** [--.*$] with MULTILINE, and [/\*.*?\*/] with DOTALL. *)
Definition LINE_COMMENT : regex := seq [ lit "--"; Star dot; Eol ].
Definition BLOCK_COMMENT : regex := seq [ lit "/*"; LazyStar dot_all; lit "*/" ].

(** [^\s*WITH\s+DEFAULT\s*]   IGNORECASE *)
Definition WITH_DEFAULT_PREFIX : regex :=
  seq [ Bos; Star space; ilit "WITH"; plus space; ilit "DEFAULT"; Star space ].

Definition _clean_content (content : string) : string :=
  let content := sub_empty LINE_COMMENT content in
  let content := sub_empty BLOCK_COMMENT content in
  join " " (split_ws content).

(** The loop state of [_split_columns]: [parts], [current] (kept
    reversed), [paren_depth]. *)
Definition split_step (st : list string * string * Z) (char : ascii)
  : list string * string * Z :=
  let '(parts, current, paren_depth) := st in
  if eqc char "(" then (parts, String char current, paren_depth + 1)
  else if eqc char ")" then (parts, String char current, paren_depth - 1)
  else if eqc char "," && (paren_depth =? 0)
       then (parts ++ [strip (rev_str current)], EmptyString, paren_depth)
       else (parts, String char current, paren_depth).

Definition _split_columns (content : string) : list string :=
  let '(parts, current, _) :=
    fold_left split_step (list_ascii_of_string content) ([], EmptyString, 0) in
  if is_empty (strip (rev_str current)) then parts
  else parts ++ [strip (rev_str current)].

Definition _parse_column (column_def : string) : option DDLColumn :=
  match match_ COLUMN_PATTERN column_def with
  | None => None
  | Some m =>
      let name := upper (default EmptyString (group m 1)) in
      let data_type := upper (strip (default EmptyString (group m 2))) in
      let not_null := bool_decide (is_Some (group m 3)) in
      let default_value :=
        match group m 4 with
        | Some default_clause =>
            if is_empty default_clause then None
            else
              let v := strip default_clause in
              Some (match match_ WITH_DEFAULT_PREFIX v with
                    | Some dm => m_rest dm
                    | None => v
                    end)
        | None => None
        end in
      Some (Column.mk name data_type (negb not_null) default_value false None)
  end.

(** [x in l] on a list of texts. *)
Definition mem (x : string) (l : list string) : bool :=
  existsb (String.eqb x) l.

(** The loop state of [parse_content]: [columns], [primary_key],
    [foreign_keys]. *)
Record state : Type := mkState {
  columns : list DDLColumn;
  primary_key : list string;
  foreign_keys : gmap string string;
}.

Definition part_step (st : state) (part : string) : state :=
  let part := strip part in
  if is_empty part then st
  else
    match match_ PRIMARY_KEY_PATTERN part with
    | Some pk_match =>
        let pk_cols := default EmptyString (group pk_match 1) in
        mkState (columns st) (map strip (split_on "," pk_cols))
                (foreign_keys st)
    | None =>
        match match_ FOREIGN_KEY_PATTERN part with
        | Some fk_match =>
            let fk_col := strip (default EmptyString (group fk_match 2)) in
            let ref_table := default EmptyString (group fk_match 3) in
            let ref_col := strip (default EmptyString (group fk_match 4)) in
            mkState (columns st) (primary_key st)
                    (<[fk_col := ref_table +:+ "." +:+ ref_col]> (foreign_keys st))
        | None =>
            if existsb (fun p => startswith p (upper part))
                       ["CONSTRAINT"; "UNIQUE"; "CHECK"; "INDEX"]%string
            then st
            else
              match _parse_column part with
              | Some col =>
                  mkState (columns st ++ [col]) (primary_key st)
                          (foreign_keys st)
              | None => st
              end
        end
    end.

(** The final pass that sets the key flags on the columns. *)
Definition flag_column (primary_key : list string)
  (foreign_keys : gmap string string) (col : DDLColumn) : DDLColumn :=
  let col :=
    if mem (Column.name col) primary_key
    then Column.set_is_primary_key true col else col in
  match foreign_keys !! Column.name col with
  | Some r => Column.set_foreign_key_ref (Some r) col
  | None => col
  end.

Definition parse_content (content : string) : result DDLTable :=
  let content := _clean_content content in
  match search CREATE_TABLE_PATTERN content with
  | None => Raise ValueError
  | Some m =>
      let schema :=
        match group m 1 with
        | Some s => if is_empty s then "DBO"%string else s
        | None => "DBO"%string
        end in
      let table_name := default EmptyString (group m 2) in
      let columns_content := default EmptyString (group m 3) in
      let parts := _split_columns columns_content in
      let st := fold_left part_step parts (mkState [] [] ∅) in
      Ok (Table.mk schema table_name
            (map (flag_column (primary_key st) (foreign_keys st)) (columns st))
            (primary_key st) (foreign_keys st))
  end.

End DDLParser.

(* ================================================================== *)
(** ** parsers/dcl_parser.py *)
(* ================================================================== *)

(** The dataclass [CobolHostVariable]. *)
Module HostVariable.

Record t : Type := mk {
  name : string;
  level : Z;
  pic_clause : option string;
  sql_column : option string;
}.

Definition set_sql_column (c : option string) (v : t) : t :=
  mk (name v) (level v) (pic_clause v) c.

End HostVariable.

(** The dataclass [DCLGenResult]. *)
Module DCLGen.

Record t : Type := mk {
  table_name : string;
  schema : string;
  table : string;
  sql_columns : list Column.t;
  host_variables : list HostVariable.t;
  column_count : Z;
}.

End DCLGen.

Abbreviation CobolHostVariable := HostVariable.t.
Abbreviation DCLGenResult := DCLGen.t.

Module DCLParser.

Import Re.

(** [EXEC\s+SQL\s+DECLARE\s+(\w+(?:\.\w+)?)\s+TABLE\s*\(( .*? )\)\s*END-EXEC]
    IGNORECASE, DOTALL; the second group is the lazy dot-star *)
Definition DECLARE_PATTERN : regex :=
  seq [ ilit "EXEC"; plus space; ilit "SQL"; plus space; ilit "DECLARE";
        plus space;
        Grp 1 (Cat (plus word) (opt (Cat (chr ".") (plus word))));
        plus space; ilit "TABLE"; Star space;
        chr "("; Grp 2 (LazyStar dot_all); chr ")"; Star space;
        ilit "END-EXEC" ].

(** [(\w+)\s+([A-Z]+(?:\s*\([^)]+\))?)(\s+NOT\s+NULL)?]   IGNORECASE *)
Definition SQL_COLUMN_PATTERN : regex :=
  seq [ Grp 1 (plus word); plus space;
        Grp 2 (Cat (plus (Cls is_alpha))
                   (opt (seq [Star space; chr "("; plus (none_of ")");
                              chr ")"])));
        opt (Grp 3 (seq [plus space; ilit "NOT"; plus space; ilit "NULL"])) ].

(** [(\d{2})\s+([\w-]+)(?:\s+PIC\s+([^\s.]+))?(?:\s+(COMP(?:-[1-5])?))?
     (?:\s+USAGE\s+(\w+))?]   IGNORECASE *)
Definition COBOL_FIELD_PATTERN : regex :=
  seq [ Grp 1 (Cat digit digit); plus space;
        Grp 2 (plus (Cls (fun a => is_word a || eqc a "-")));
        opt (seq [plus space; ilit "PIC"; plus space;
                  Grp 3 (plus (Cls (fun a => negb (is_space a || eqc a "."))))]);
        opt (seq [plus space;
                  Grp 4 (Cat (ilit "COMP")
                             (opt (Cat (chr "-") (one_of "12345"))))]);
        opt (seq [plus space; ilit "USAGE"; plus space; Grp 5 (plus word)]) ].

(** [NUMBER\s+OF\s+COLUMNS\s+.*?IS\s+(\d+)]   IGNORECASE *)
Definition COLUMN_COUNT_PATTERN : regex :=
  seq [ ilit "NUMBER"; plus space; ilit "OF"; plus space; ilit "COLUMNS";
        plus space; LazyStar dot; ilit "IS"; plus space; Grp 1 (plus digit) ].

(** [_split_by_comma]: the loop of the DDL parser's [_split_columns],
    statement for statement. *)
Definition _split_by_comma (content : string) : list string :=
  let '(parts, current, _) :=
    fold_left DDLParser.split_step (list_ascii_of_string content)
              ([], EmptyString, 0) in
  if is_empty (strip (rev_str current)) then parts
  else parts ++ [strip (rev_str current)].

(** The loop body of [_parse_sql_columns]. *)
Definition sql_column_step (columns : list DDLColumn) (part : string)
  : list DDLColumn :=
  let part := strip part in
  if is_empty part then columns
  else
    match match_ SQL_COLUMN_PATTERN part with
    | Some m =>
        let name := upper (default EmptyString (group m 1)) in
        let data_type := upper (strip (default EmptyString (group m 2))) in
        let not_null := bool_decide (is_Some (group m 3)) in
        columns ++ [Column.mk name data_type (negb not_null) None false None]
    | None => columns
    end.

Definition _parse_sql_columns (content : string) : list DDLColumn :=
  fold_left sql_column_step (_split_by_comma content) [].

(** [if match.group(i):] the group took part and is not empty. *)
Definition truthy (g : option string) : option string :=
  match g with
  | Some s => if is_empty s then None else Some s
  | None => None
  end.

(** The loop body of [_parse_cobol_record]. *)
Definition cobol_step (variables : list CobolHostVariable) (line : string)
  : result (list CobolHostVariable) :=
  let line := strip line in
  if is_empty line then Ok variables
  else
    match search COBOL_FIELD_PATTERN line with
    | Some m =>
        level ← int (default EmptyString (group m 1));
        let name := upper (default EmptyString (group m 2)) in
        if level =? 1 then Ok variables
        else if level =? 49 then Ok variables
        else
          let pic_clause :=
            match truthy (group m 3) with
            | Some g3 =>
                let pic_clause := "PIC " +:+ g3 in
                Some (match truthy (group m 4) with
                      | Some g4 => pic_clause +:+ " " +:+ g4
                      | None =>
                          match truthy (group m 5) with
                          | Some g5 => pic_clause +:+ " " +:+ g5
                          | None => pic_clause
                          end
                      end)
            | None => None
            end in
          Ok (variables ++ [HostVariable.mk name level pic_clause None])
    | None => Ok variables
    end.

Fixpoint cobol_lines (variables : list CobolHostVariable)
  (lines : list string) : result (list CobolHostVariable) :=
  match lines with
  | [] => Ok variables
  | line :: lines' =>
      variables ← cobol_step variables line;
      cobol_lines variables lines'
  end.

Definition _parse_cobol_record (content : string)
  : result (list CobolHostVariable) :=
  cobol_lines [] (split_on newline content).

(** [s.replace(a, b)] for one-character texts. *)
Definition replace_char (a b : ascii) (s : string) : string :=
  map_str (fun c => if eqc c a then b else c) s.

(** The inner loop of [_map_columns_to_variables]: the first column of
    that name, then [break]. *)
Fixpoint find_column (sql_name : string) (cols : list DDLColumn)
  : option string :=
  match cols with
  | [] => None
  | col :: cols' =>
      if String.eqb (Column.name col) sql_name then Some (Column.name col)
      else find_column sql_name cols'
  end.

Definition sql_name_of (var : CobolHostVariable) : string :=
  let sql_name := HostVariable.name var in
  let sql_name :=
    if startswith "DCL-" sql_name then drop_str 4 sql_name else sql_name in
  replace_char "-" "_" sql_name.

Definition map_variable (cols : list DDLColumn) (var : CobolHostVariable)
  : CobolHostVariable :=
  match find_column (sql_name_of var) cols with
  | Some c => HostVariable.set_sql_column (Some c) var
  | None => var
  end.

Definition _map_columns_to_variables (cols : list DDLColumn)
  (vars : list CobolHostVariable) : list CobolHostVariable :=
  map (map_variable cols) vars.

(** [s.split(c, 1)] *)
Fixpoint split1_acc (c : ascii) (s : string) (cur : string) : list string :=
  match s with
  | EmptyString => [rev_str cur]
  | String a s' =>
      if eqc a c then [rev_str cur; s'] else split1_acc c s' (String a cur)
  end.
Definition split1 (c : ascii) (s : string) : list string :=
  split1_acc c s EmptyString.

Definition parse_content (content : string) : result DCLGenResult :=
  (* EXEC SQL DECLARE *)
  '(table_name, schema, table, sql_columns) ←
    match search DECLARE_PATTERN content with
    | Some declare_match =>
        let table_name := default EmptyString (group declare_match 1) in
        '(schema, table) ←
          (if existsb (eqc ".") (list_ascii_of_string table_name)
           then match split1 "." table_name with
                | [schema; table] => Ok (schema, table)
                | _ => Raise ValueError
                end
           else Ok (EmptyString, table_name));
        let columns_content := default EmptyString (group declare_match 2) in
        Ok (table_name, schema, table, _parse_sql_columns columns_content)
    | None => Ok (EmptyString, EmptyString, EmptyString, [])
    end;
  (* COBOL record *)
  host_variables ← _parse_cobol_record content;
  (* column count *)
  column_count ←
    match search COLUMN_COUNT_PATTERN content with
    | Some count_match => int (default EmptyString (group count_match 1))
    | None => Ok (Z.of_nat (length sql_columns))
    end;
  (* SQL columns and host variables *)
  Ok (DCLGen.mk table_name schema table sql_columns
        (_map_columns_to_variables sql_columns host_variables) column_count).

End DCLParser.

(* ================================================================== *)
(** ** Statements of the specification, and its scenarios *)
(* ================================================================== *)

Module Spec.

Import Dec EBCDICConverter.

(** Section 8, packed decimal sign nibbles: 0xA, 0xC, 0xE, 0xF decode
    as non-negative, 0xB and 0xD as negative, any other nibble is an
    error. *)
Definition packed_sign_rule (data : list byte) (scale : Z) : Prop :=
  let n := lo_nibble (List.last data x00) in
  (n = 10 \/ n = 12 \/ n = 14 \/ n = 15 ->
     exists d, decode_packed_decimal data scale = Ok d /\ ge_zero d = true) /\
  (n = 11 \/ n = 13 ->
     exists d, decode_packed_decimal data scale = Ok d /\ lt_zero d = true) /\
  (n < 10 -> exists e, decode_packed_decimal data scale = Raise e).

(** Section 8, round-trip law, for packed decimals: encoding what was
    decoded gives the bytes back. *)
Definition packed_roundtrip (data : list byte) (precision scale : Z) : Prop :=
  forall v, decode_packed_decimal data scale = Ok v ->
            encode_packed_decimal v precision scale = Ok data.

(** Section 8, invariant 1: the sum over elementary, non-REDEFINES
    fields of width times occurs. *)
Definition counts_in_sum (f : CopybookField) : bool :=
  Field.is_elementary f && negb (bool_decide (is_Some (Field.redefines f))).

Definition layout_sum (fields : list CopybookField) : Z :=
  foldr (fun f acc => if counts_in_sum f then Field.total_length f + acc
                      else acc) 0 fields.

Definition layout_sum_law (ignore_fillers : bool) (content : string) : Prop :=
  forall fields,
    CopybookParser.parse_content ignore_fillers content = Ok fields ->
    layout_sum fields = CopybookParser.get_record_length fields.

(** Section 4.2, the width of a packed decimal of [d] digits:
    the ceiling of [(d+1)/2]. *)
Definition packed_width (d : Z) : Z := (d + 2) / 2.

(** Scenario S4, area-encoded: columns 1-6 and the indicator column
    are blank. *)
Definition S4 : string :=
  "       01 REC.
         05 A   PIC X(4).
         05 B   PIC X(4).
         05 C REDEFINES B   PIC 9(4).
         05 D   PIC X(2).
".

(** The same statements without the sequence and indicator columns. *)
Definition S4_free_format : string :=
  "01 REC.
  05 A   PIC X(4).
  05 B   PIC X(4).
  05 C REDEFINES B   PIC 9(4).
  05 D   PIC X(2).
".

(** A record whose first item is a FILLER. *)
Definition filler_first : string :=
  "       01 REC.
         05 FILLER PIC X(2).
         05 A      PIC X(4).
".

(** Scenario S5. *)
Definition S5 : string :=
  "CREATE TABLE S.T (K INTEGER NOT NULL, V DECIMAL(15,2), PRIMARY KEY(K))".

End Spec.

(* ================================================================== *)
(** ** Predicates used in the proofs *)
(* ================================================================== *)

(** A text of digits, not empty. *)
Definition digit_text (s : string) : Prop :=
  all_str is_digit s = true /\ is_empty s = false.

(** The texts the decoders hand to [Decimal]: digits, or digits with a
    point among them. *)
Inductive number_text : string -> Z -> Z -> Prop :=
  | nt_plain (s : string) :
      digit_text s -> number_text s (len s) 0
  | nt_point (ip fp : string) :
      digit_text ip -> all_str is_digit fp = true ->
      number_text (ip +:+ String "." fp) (len ip + len fp) (len fp).

(** The number that a list of decimal digits spells. *)
Definition horner (ds : list Z) : Z :=
  fold_left (fun acc d => 10 * acc + d) ds 0.

(** The digit nibbles of a packed field, as [decode_packed_decimal]
    collects them: two of every byte but the last, and the high nibble
    of the last. *)
Definition packed_nibbles (data : list byte) : list Z :=
  flat_map (fun b => [EBCDICConverter.hi_nibble b; EBCDICConverter.lo_nibble b])
           (removelast data)
  ++ [EBCDICConverter.hi_nibble (List.last data x00)].

(** Whether a pattern holds the capture group [i]. *)
Fixpoint has_group (i : nat) (r : Re.regex) : bool :=
  match r with
  | Re.Cat r1 r2 | Re.Alt r1 r2 => has_group i r1 || has_group i r2
  | Re.Star r' | Re.LazyStar r' => has_group i r'
  | Re.Grp j r' => (i =? j)%nat || has_group i r'
  | _ => false
  end.




(** A DCLGEN member: the declaration of a table and its host
    variables. *)
Definition dclgen_member : string :=
  "           EXEC SQL DECLARE CARDDEMO.TRANSACTION_TYPE TABLE
           ( TR_TYPE                        CHAR(2) NOT NULL,
             TR_DESCRIPTION                 VARCHAR(50) NOT NULL,
             TR_AMOUNT                      DECIMAL(10, 2)
           ) END-EXEC.
       01  DCLTRANSACTION-TYPE.
           10 DCL-TR-TYPE          PIC X(2).
           10 DCL-TR-DESCRIPTION.
              49 DCL-TR-DESCRIPTION-LEN  PIC S9(4) USAGE COMP.
              49 DCL-TR-DESCRIPTION-TEXT PIC X(50).
           10 DCL-TR-AMOUNT        PIC S9(8)V9(2) USAGE COMP-3.
           10 OTHER                PIC S9(4) COMP-5.
".

Import CopybookParser.

(** What the sum and the record length see of a field. *)
Definition view (f : CopybookField) : bool * option string * Z * Z :=
  (Field.is_elementary f, Field.redefines f, Field.offset f,
   Field.total_length f).

Definition no_redefines (fs : list CopybookField) : Prop :=
  Forall (fun f => Field.redefines f = None) fs.

(** The link between the cursor and the fields placed so far, for a
    layout free of REDEFINES. *)
Definition cursor_inv (st : state) : Prop :=
  no_redefines (fields st) ->
  Spec.layout_sum (fields st) = current_offset st /\
  get_record_length (fields st) = current_offset st /\
  0 <= current_offset st.



(* ================================================================== *)
(** * Properties *)
(* ================================================================== *)

Import Dec EBCDICConverter VSAMTypeConverter.

(** ** Scenarios evaluated *)

Example packed_S2_positive :
  decode_packed_decimal [x12; x34; x5c] 2 = Ok (mkDecimal false "12345" (-2)).
Proof. vm_compute. reflexivity. Qed.

Example packed_S2_negative :
  decode_packed_decimal [x00; x12; x3d] 2 = Ok (mkDecimal true "123" (-2)).
Proof. vm_compute. reflexivity. Qed.

Example encode_drops_odd_tail :
  encode_packed_decimal (mkDecimal false "12345" (-2)) 5 2 = Ok [x12; x3c].
Proof. vm_compute. reflexivity. Qed.

Example encode_repeats_even_tail :
  encode_packed_decimal (mkDecimal false "1234" 0) 4 0 = Ok [x12; x34; x4c].
Proof. vm_compute. reflexivity. Qed.

Example pic_paren_fraction :
  parse_pic_clause "PIC S9(7)V9(2) COMP-3" =
  Ok (mkParsedPicClause SIGNED_NUMERIC 7 2 COMP_3 6 true).
Proof. vm_compute. reflexivity. Qed.

Example pic_inline :
  parse_pic_clause "PIC S999V99 COMP-3" =
  Ok (mkParsedPicClause SIGNED_NUMERIC 3 2 COMP_3 4 true).
Proof. vm_compute. reflexivity. Qed.

Example pic_unparseable : parse_pic_clause "hello" = Raise ValueError.
Proof. vm_compute. reflexivity. Qed.

Example clean_S4 :
  CopybookParser._clean_content Spec.S4 =
  ["01 REC."; "05 A   PIC X(4)."; "05 B   PIC X(4).";
   "05 C REDEFINES B   PIC 9(4)."; "05 D   PIC X(2)."]%string.
Proof. vm_compute. reflexivity. Qed.

(** Without the area columns the first seven characters of each line
    are cut off and no statement is left that starts with a level. *)
Example parse_S4_free_format :
  CopybookParser.parse_content false Spec.S4_free_format = Ok [].
Proof. vm_compute. reflexivity. Qed.

Example decode_binary_signed :
  decode_binary [xff; xfe] true = -2 /\ decode_binary [xff; xfe] false = 65534.
Proof. split; vm_compute; reflexivity. Qed.

(** A zoned field of 31 digits is rounded to the 28 digits of the
    context by the product with the sign. *)
Example zoned_31_digits_rounded :
  decode_zoned_decimal
    [xf1; xf2; xf3; xf4; xf5; xf6; xf7; xf8; xf9; xf0;
     xf1; xf2; xf3; xf4; xf5; xf6; xf7; xf8; xf9; xf0;
     xf1; xf2; xf3; xf4; xf5; xf6; xf7; xf8; xf9; xf5; xd5] 2 =
  Ok (mkDecimal true "1234567890123456789012345679" 1).
Proof. vm_compute. reflexivity. Qed.

(** ** Closed facts *)

(** C1. The phrase [PIC S9(7)V99 COMP-3] is analysed as a signed packed
    decimal, but the digits after [V] are read as the number 99: the
    description has 7 integer and 99 decimal digits (total 106, scale
    99), a storage width of 54 bytes and the type Decimal(106, 99). *)
Theorem C1_pic_S1_analysis :
  parse_pic_clause "PIC S9(7)V99 COMP-3" =
    Ok (mkParsedPicClause SIGNED_NUMERIC 7 99 COMP_3 54 true) /\
  get_storage_bytes "PIC S9(7)V99 COMP-3" = Ok 54 /\
  convert "PIC S9(7)V99 COMP-3" = Ok (DecimalType 106 99).
Proof. split; [|split]; vm_compute; reflexivity. Qed.

(** C2. For the five-digit packed field [PIC 9(5) COMP-3] the analyzer
    reports 4 storage bytes, where the ceiling of (5+1)/2 is 3. *)
Theorem C2_packed_width_of_five_digits :
  get_storage_bytes "PIC 9(5) COMP-3" = Ok 4 /\ Spec.packed_width 5 = 3.
Proof. split; vm_compute; reflexivity. Qed.

(** C3. On the S4 copybook the parser gives the offsets A=0, B=4, C=4
    and D=12, and the record length 14: the redefining field C takes the
    offset of B, yet the cursor has advanced over it. *)
Theorem C3_redefines_layout_S4 :
  exists fields,
    CopybookParser.parse_content false Spec.S4 = Ok fields /\
    map (fun f => (Field.name f, Field.offset f)) fields =
      [("REC", 0); ("A", 0); ("B", 4); ("C", 4); ("D", 12)]%string /\
    CopybookParser.get_record_length fields = 14.
Proof.
  eexists. split; [vm_compute; reflexivity|].
  split; vm_compute; reflexivity.
Qed.

(** C8. Parsing the S5 statement gives schema S, table T, the columns
    K (INTEGER, not nullable, primary key) and V (DECIMAL(15,2),
    nullable, no key), and the primary key [K]. *)
Theorem C8_ddl_parse_S5 :
  DDLParser.parse_content
    "CREATE TABLE S.T (K INTEGER NOT NULL, V DECIMAL(15,2), PRIMARY KEY(K))" =
  Ok (Table.mk "S" "T"
        [ Column.mk "K" "INTEGER" false None true None;
          Column.mk "V" "DECIMAL(15,2)" true None false None ]
        ["K"%string] ∅).
Proof. vm_compute. reflexivity. Qed.

(** C10. On empty input the packed and the zoned decoder return
    Decimal(0) and the binary decoder returns 0, whatever the scale and
    the signedness. *)
Theorem C10_empty_input_is_zero : forall (scale : Z) (signed : bool),
  decode_packed_decimal [] scale = Ok (mkDecimal false "0" 0) /\
  decode_zoned_decimal [] scale = Ok (mkDecimal false "0" 0) /\
  decode_binary [] signed = 0.
Proof. intros scale signed. split; [|split]; vm_compute; reflexivity. Qed.

(** ** Facts about texts *)

Lemma app_cons (c : ascii) (a b : string) :
  String c a +:+ b = String c (a +:+ b).
Proof. reflexivity. Qed.

Lemma app_nil_l (b : string) : EmptyString +:+ b = b.
Proof. reflexivity. Qed.

Lemma app_nil_r_str (a : string) : a +:+ EmptyString = a.
Proof. induction a as [|c a IH]; [reflexivity|]. rewrite app_cons, IH. reflexivity. Qed.

Section StringFacts.

Variable p : ascii -> bool.

Lemma all_str_app (a b : string) :
  all_str p (a +:+ b) = all_str p a && all_str p b.
Proof.
  induction a as [|c a IH]; [reflexivity|].
  rewrite app_cons. simpl. rewrite IH. destruct (p c); reflexivity.
Qed.

Lemma all_str_take (n : nat) (s : string) :
  all_str p s = true -> all_str p (take_str n s) = true.
Proof.
  revert s. induction n as [|n IH]; intros [|c s]; simpl; try reflexivity.
  intros H. apply andb_true_iff in H as [Hc Hs].
  rewrite Hc. simpl. apply IH, Hs.
Qed.

Lemma all_str_drop (n : nat) (s : string) :
  all_str p s = true -> all_str p (drop_str n s) = true.
Proof.
  revert s. induction n as [|n IH]; intros [|c s]; simpl; try tauto.
  intros H. apply andb_true_iff in H as [_ Hs]. apply IH, Hs.
Qed.

Lemma all_str_repeat (c : ascii) (n : nat) :
  p c = true -> all_str p (repeat_char c n) = true.
Proof.
  intros Hc. induction n as [|n IH]; simpl; [reflexivity|].
  rewrite Hc, IH. reflexivity.
Qed.

End StringFacts.

Lemma all_str_impl (p q : ascii -> bool) (s : string) :
  (forall c, p c = true -> q c = true) ->
  all_str p s = true -> all_str q s = true.
Proof.
  intros Hpq. induction s as [|c s IH]; simpl; [reflexivity|].
  intros H. apply andb_true_iff in H as [Hc Hs].
  rewrite (Hpq _ Hc), (IH Hs). reflexivity.
Qed.

Lemma length_app_str (a b : string) :
  String.length (a +:+ b) = (String.length a + String.length b)%nat.
Proof.
  induction a as [|c a IH]; [reflexivity|].
  rewrite app_cons. simpl. rewrite IH. reflexivity.
Qed.

Lemma length_take_str (n : nat) (s : string) :
  String.length (take_str n s) = Nat.min n (String.length s).
Proof.
  revert s. induction n as [|n IH]; intros [|c s]; simpl; try reflexivity.
  rewrite IH. reflexivity.
Qed.

Lemma length_drop_str (n : nat) (s : string) :
  String.length (drop_str n s) = (String.length s - n)%nat.
Proof.
  revert s. induction n as [|n IH]; intros [|c s]; simpl; try reflexivity.
  apply IH.
Qed.

Lemma length_repeat_char (c : ascii) (n : nat) :
  String.length (repeat_char c n) = n.
Proof. induction n as [|n IH]; simpl; [reflexivity|]. rewrite IH. reflexivity. Qed.

Lemma take_drop_str (n : nat) (s : string) :
  take_str n s +:+ drop_str n s = s.
Proof.
  revert s. induction n as [|n IH]; intros [|c s]; simpl; try reflexivity.
  rewrite app_cons. f_equal. apply IH.
Qed.

Lemma is_empty_length (s : string) :
  is_empty s = false <-> (0 < String.length s)%nat.
Proof. destruct s; simpl; split; intros; try lia; try discriminate; reflexivity. Qed.

Lemma len_nonneg (s : string) : 0 <= len s.
Proof. unfold len. lia. Qed.

(** *** Characters *)

Lemma code_digit_char (d : N) : (d < 10)%N -> code (digit_char d) = (48 + d)%N.
Proof.
  intros Hd. unfold code, digit_char. apply N_ascii_embedding. lia.
Qed.

Lemma is_digit_digit_char (d : N) : (d < 10)%N -> is_digit (digit_char d) = true.
Proof.
  intros Hd. unfold is_digit, in_range. rewrite (code_digit_char d Hd).
  apply andb_true_iff. split; apply N.leb_le; lia.
Qed.

Lemma is_digit_code (c : ascii) :
  is_digit c = true <-> (48 <= code c <= 57)%N.
Proof.
  unfold is_digit, in_range. rewrite andb_true_iff, !N.leb_le. tauto.
Qed.

Lemma digit_not_char (c x : ascii) :
  is_digit c = true -> (code x < 48)%N -> eqc c x = false.
Proof.
  intros Hc Hx. apply is_digit_code in Hc. unfold eqc. apply N.eqb_neq. lia.
Qed.

(** *** Splitting at a character *)

Lemma split_on_acc_none (c : ascii) (s cur : string) :
  all_str (fun a => negb (eqc a c)) s = true ->
  split_on_acc c s cur = [rev_str_acc cur s].
Proof.
  revert cur. induction s as [|a s IH]; intros cur H; simpl in *.
  - reflexivity.
  - apply andb_true_iff in H as [Ha Hs].
    apply negb_true_iff in Ha. rewrite Ha. rewrite (IH _ Hs). reflexivity.
Qed.

Lemma eqc_refl (c : ascii) : eqc c c = true.
Proof. unfold eqc. apply N.eqb_refl. Qed.

Lemma split_on_acc_one (c : ascii) (a b cur : string) :
  all_str (fun x => negb (eqc x c)) a = true ->
  split_on_acc c (a +:+ String c b) cur =
  rev_str_acc cur a :: split_on_acc c b EmptyString.
Proof.
  revert cur. induction a as [|x a IH]; intros cur H;
    [rewrite app_nil_l|rewrite app_cons]; simpl in *.
  - rewrite eqc_refl. reflexivity.
  - apply andb_true_iff in H as [Hx Ha].
    apply negb_true_iff in Hx. rewrite Hx. rewrite (IH _ Ha). reflexivity.
Qed.

Lemma digits_no_point (s : string) :
  all_str is_digit s = true ->
  all_str (fun x => negb (eqc x ".")) s = true.
Proof.
  apply all_str_impl. intros c Hc.
  apply negb_true_iff, digit_not_char; [exact Hc|]. vm_compute. reflexivity.
Qed.

(** ** Facts about [int] and [str] *)

Lemma int_of_digits_bound (s : string) : forall (acc : N),
  all_str is_digit s = true ->
  exists n, int_of_digits s acc = Ok n /\
            (n < (acc + 1) * 10 ^ N.of_nat (String.length s))%N.
Proof.
  induction s as [|c s IH]; intros acc H; simpl in *.
  - exists acc. split; [reflexivity|]. simpl. lia.
  - apply andb_true_iff in H as [Hc Hs]. rewrite Hc.
    destruct (IH (10 * acc + (code c - 48))%N Hs) as (n & Hn & Hb).
    exists n. split; [exact Hn|].
    apply is_digit_code in Hc.
    eapply N.lt_le_trans; [exact Hb|].
    replace (N.of_nat (S (String.length s)))
      with (N.succ (N.of_nat (String.length s))) by lia.
    rewrite N.pow_succ_r'. 
    replace ((acc + 1) * (10 * 10 ^ N.of_nat (String.length s)))%N
      with ((10 * acc + 10) * 10 ^ N.of_nat (String.length s))%N by lia.
    apply N.mul_le_mono_r. lia.
Qed.

Lemma int_digits (s : string) :
  all_str is_digit s = true -> is_empty s = false ->
  exists n, int s = Ok (Z.of_N n) /\ (n < 10 ^ N.of_nat (String.length s))%N.
Proof.
  intros Hd Hne. unfold int. rewrite Hne.
  destruct (int_of_digits_bound s 0%N Hd) as (n & Hn & Hb).
  exists n. rewrite Hn. split; [reflexivity|]. lia.
Qed.

Lemma int_raises_ValueError (s : string) (e : exn) :
  int s = Raise e -> e = ValueError.
Proof.
  unfold int. destruct (is_empty s); [intros [= <-]; reflexivity|].
  generalize 0%N. induction s as [|c s IH]; intros acc; simpl.
  - discriminate.
  - destruct (is_digit c); [apply IH|intros [= <-]; reflexivity].
Qed.

Lemma int_nonneg (s : string) (z : Z) : int s = Ok z -> 0 <= z.
Proof.
  unfold int. destruct (is_empty s); [discriminate|].
  destruct (int_of_digits s 0%N); simpl; [|discriminate].
  intros [= <-]. lia.
Qed.

Lemma str_of_N_aux_digits (fuel : nat) : forall (n : N) (acc : string),
  all_str is_digit acc = true ->
  all_str is_digit (str_of_N_aux fuel n acc) = true.
Proof.
  induction fuel as [|f IH]; intros n acc Hacc; cbn [str_of_N_aux];
    [exact Hacc|].
  assert (Hd : all_str is_digit (String (digit_char (n mod 10)) acc) = true).
  { cbn [all_str]. rewrite Hacc, is_digit_digit_char; [reflexivity|].
    apply N.mod_lt. lia. }
  destruct (n / 10 =? 0)%N; [exact Hd|apply IH, Hd].
Qed.

Lemma str_of_N_aux_length (fuel : nat) : forall (n : N) (acc : string) (L : nat),
  (N.to_nat (N.log2 n) < fuel)%nat -> (1 <= L)%nat ->
  (n < 10 ^ N.of_nat L)%N ->
  (String.length acc < String.length (str_of_N_aux fuel n acc)
   <= L + String.length acc)%nat.
Proof.
  induction fuel as [|f IH]; intros n acc L Hf HL Hn; [lia|].
  cbn [str_of_N_aux].
  destruct (N.eqb_spec (n / 10) 0) as [Hz|Hz]; [simpl String.length; lia|].
  assert (H10 : (10 <= n)%N).
  { destruct (N.lt_ge_cases n 10) as [Hlt|]; [|assumption].
    apply N.div_small in Hlt. contradiction. }
  destruct L as [|[|L]]; [lia| |].
  - change (10 ^ N.of_nat 1)%N with 10%N in Hn. lia.
  - assert (Hq : (n / 10 < 10 ^ N.of_nat (S L))%N).
    { apply N.Div0.div_lt_upper_bound.
      replace (N.of_nat (S (S L))) with (N.succ (N.of_nat (S L))) in Hn by lia.
      rewrite N.pow_succ_r' in Hn. exact Hn. }
    assert (Hlog : (N.log2 (n / 10) < N.log2 n)%N).
    { assert (H2 : (2 * (n / 10) <= n)%N).
      { pose proof (N.Div0.mul_div_le n 10). lia. }
      apply N.log2_le_mono in H2.
      rewrite N.log2_double in H2 by (apply N.neq_0_lt_0; exact Hz).
      lia. }
    specialize (IH (n / 10)%N (String (digit_char (n mod 10)) acc) (S L)).
    simpl String.length in IH.
    assert (N.to_nat (N.log2 (n / 10)) < f)%nat by lia.
    specialize (IH ltac:(assumption) ltac:(lia) Hq). lia.
Qed.

Lemma str_of_N_digits (n : N) : all_str is_digit (str_of_N n) = true.
Proof. apply str_of_N_aux_digits. reflexivity. Qed.

Lemma str_of_N_length (n : N) (L : nat) :
  (1 <= L)%nat -> (n < 10 ^ N.of_nat L)%N ->
  (0 < String.length (str_of_N n) <= L)%nat.
Proof.
  intros HL Hn. unfold str_of_N.
  pose proof (str_of_N_aux_length (S (N.to_nat (N.log2 n))) n EmptyString L
                (Nat.lt_succ_diag_r _) HL Hn) as H.
  change (String.length EmptyString) with 0%nat in H. lia.
Qed.

Lemma str_of_nat_N (n : N) : str (Z.of_N n) = str_of_N n.
Proof.
  unfold str. destruct (Z.ltb_spec (Z.of_N n) 0); [lia|].
  rewrite Zabs2N.id. reflexivity.
Qed.

(** [str(int(s))] of a text of digits is a text of digits, not longer. *)
Lemma normal_int_digits (s : string) :
  all_str is_digit s = true -> is_empty s = false ->
  exists c, Dec.normal_int s = Ok c /\ all_str is_digit c = true /\
            is_empty c = false /\ len c <= len s.
Proof.
  intros Hd Hne. destruct (int_digits s Hd Hne) as (n & Hn & Hb).
  unfold Dec.normal_int. rewrite Hn. simpl.
  exists (str (Z.of_N n)). rewrite str_of_nat_N.
  apply is_empty_length in Hne.
  pose proof (str_of_N_length n (String.length s) ltac:(lia) Hb) as Hl.
  split; [reflexivity|]. split; [apply str_of_N_digits|].
  split; [apply is_empty_length; lia|]. unfold len. lia.
Qed.

(** ** Facts about the Decimal constructor *)

Lemma split_sign_digit (s : string) :
  digit_text s -> Dec.split_sign s = (false, s).
Proof.
  intros [Hd Hne]. destruct s as [|c s]; [discriminate|].
  simpl in Hd. apply andb_true_iff in Hd as [Hc _].
  unfold Dec.split_sign.
  rewrite (digit_not_char c "-" Hc), (digit_not_char c "+" Hc);
    [reflexivity| |]; vm_compute; reflexivity.
Qed.

Lemma split_sign_minus (s : string) : Dec.split_sign (String "-" s) = (true, s).
Proof. reflexivity. Qed.

Lemma number_text_split_sign (s : string) (n k : Z) :
  number_text s n k -> Dec.split_sign s = (false, s).
Proof.
  intros [s' H|ip fp [Hd Hne] Hf].
  - apply split_sign_digit, H.
  - destruct ip as [|c ip]; [discriminate|].
    simpl in Hd. apply andb_true_iff in Hd as [Hc _].
    rewrite app_cons. unfold Dec.split_sign.
    rewrite (digit_not_char c "-" Hc), (digit_not_char c "+" Hc);
      [reflexivity| |]; vm_compute; reflexivity.
Qed.

(** What [Decimal] makes of such a text, after the sign. *)
Lemma of_body (sg : bool) (s : string) (n k : Z) :
  number_text s n k ->
  exists c,
    (let '(intpart, frac) := Dec.split_point s in
     let fracpart := default EmptyString frac in
     if all_str is_digit intpart && all_str is_digit fracpart
        && negb (is_empty (intpart +:+ fracpart))
     then match Dec.normal_int (intpart +:+ fracpart) with
          | Ok coeff => Ok (Dec.mkDecimal sg coeff (- len fracpart))
          | Raise _ => Raise InvalidOperation
          end
     else Raise InvalidOperation)
    = Ok (Dec.mkDecimal sg c (- k)) /\
    digit_text c /\ len c <= n.
Proof.
  intros [s' [Hd Hne]|ip fp [Hd Hne] Hf].
  - unfold Dec.split_point, split_on.
    rewrite (split_on_acc_none "." s' EmptyString (digits_no_point _ Hd)).
    change (rev_str_acc EmptyString s') with s'.
    cbn [default from_option id]. rewrite app_nil_r_str, Hd. cbn [all_str andb].
    rewrite Hne. cbn [negb].
    destruct (normal_int_digits s' Hd Hne) as (c & -> & Hc1 & Hc2 & Hc3).
    exists c. repeat split; assumption.
  - unfold Dec.split_point, split_on.
    rewrite (split_on_acc_one "." ip fp EmptyString (digits_no_point _ Hd)).
    rewrite (split_on_acc_none "." fp EmptyString (digits_no_point _ Hf)).
    change (rev_str_acc EmptyString ip) with ip.
    change (rev_str_acc EmptyString fp) with fp.
    cbn [default from_option id]. rewrite Hd, Hf. cbn [andb].
    assert (Hne' : is_empty (ip +:+ fp) = false).
    { destruct ip; [discriminate|reflexivity]. }
    rewrite Hne'. cbn [negb].
    assert (Hd' : all_str is_digit (ip +:+ fp) = true).
    { rewrite all_str_app, Hd, Hf. reflexivity. }
    destruct (normal_int_digits _ Hd' Hne') as (c & -> & Hc1 & Hc2 & Hc3).
    exists c. split; [reflexivity|]. split; [split; assumption|].
    unfold len in *. rewrite length_app_str in Hc3. lia.
Qed.

Lemma of_str_number (s : string) (n k : Z) :
  number_text s n k ->
  exists c,
    Dec.of_str s = Ok (Dec.mkDecimal false c (- k)) /\
    Dec.of_str (String "-" s) = Ok (Dec.mkDecimal true c (- k)) /\
    digit_text c /\ len c <= n.
Proof.
  intros H.
  destruct (of_body false s n k H) as (c & Hc & Hdc & Hlc).
  destruct (of_body true s n k H) as (c' & Hc' & _).
  assert (c' = c) as ->.
  { destruct (Dec.split_point s) as [ip fr]. cbv zeta in Hc, Hc'.
    destruct (all_str is_digit ip && _ && _); [|discriminate].
    destruct (Dec.normal_int _); [|discriminate].
    congruence. }
  exists c. unfold Dec.of_str.
  rewrite (number_text_split_sign s n k H), split_sign_minus.
  repeat split; try assumption; apply Hdc.
Qed.

(** The text after the point has been inserted. *)
Lemma insert_decimal_point_text (s : string) (scale : Z) :
  digit_text s ->
  exists n k, number_text (insert_decimal_point s scale) n k /\
              n - k <= len s /\ 0 <= k.
Proof.
  intros [Hd Hne]. unfold insert_decimal_point.
  destruct (Z.gtb_spec scale 0) as [Hs|Hs].
  - set (t := if len s <=? scale
              then repeat_char "0" (Z.to_nat (scale - len s + 1)) +:+ s
              else s).
    assert (Ht : all_str is_digit t = true).
    { subst t. destruct (len s <=? scale); [|exact Hd].
      rewrite all_str_app, Hd, all_str_repeat; reflexivity. }
    assert (Hl : scale < len t /\ len t - scale <= len s).
    { apply is_empty_length in Hne.
      subst t. destruct (Z.leb_spec (len s) scale) as [Hle|Hgt].
      - unfold len in *. rewrite length_app_str, length_repeat_char. lia.
      - unfold len in *. lia. }
    unfold slice_upto_neg, slice_from_neg.
    set (m := (String.length t - Z.to_nat scale)%nat).
    exists (len (take_str m t) + len (drop_str m t)), (len (drop_str m t)).
    split; [|split].
    + apply nt_point.
      * split; [apply all_str_take, Ht|].
        apply is_empty_length. rewrite length_take_str.
        unfold len in Hl. lia.
      * apply all_str_drop, Ht.
    + unfold len in *. rewrite length_take_str. lia.
    + apply len_nonneg.
  - exists (len s), 0. split; [apply nt_plain; split; assumption|]. lia.
Qed.

(** ** The packed decimal decoder *)

Lemma join_empty_cons (x : string) (l : list string) :
  join EmptyString (x :: l) = x +:+ join EmptyString l.
Proof.
  destruct l as [|y l]; cbn [join].
  - symmetry. apply app_nil_r_str.
  - reflexivity.
Qed.

Lemma join_digit_text (l : list string) :
  Forall digit_text l -> l <> [] -> digit_text (join EmptyString l).
Proof.
  induction 1 as [|x l [Hx Hne] Hl IH]; intros Hnil; [contradiction|].
  rewrite join_empty_cons. destruct l as [|y l].
  - cbn [join]. rewrite app_nil_r_str. split; assumption.
  - destruct IH as [IH1 IH2]; [discriminate|]. split.
    + rewrite all_str_app, Hx, IH1. reflexivity.
    + destruct x; [discriminate|reflexivity].
Qed.


Lemma hi_nibble_text (b : byte) :
  digit_text (str (hi_nibble b)) /\ len (str (hi_nibble b)) <= 2.
Proof. destruct b; vm_compute; (split; [split; reflexivity|discriminate]). Qed.

Lemma lo_nibble_text (b : byte) :
  digit_text (str (lo_nibble b)) /\ len (str (lo_nibble b)) <= 2.
Proof. destruct b; vm_compute; (split; [split; reflexivity|discriminate]). Qed.

Lemma packed_digits_text (data : list byte) :
  Forall digit_text
    (map str (flat_map (fun b => [hi_nibble b; lo_nibble b]) (removelast data)
              ++ [hi_nibble (List.last data x00)])).
Proof.
  rewrite map_app. apply Forall_app. split.
  - induction (removelast data) as [|b l IH]; cbn; [constructor|].
    constructor; [apply hi_nibble_text|].
    constructor; [apply lo_nibble_text|exact IH].
  - cbn. constructor; [apply hi_nibble_text|constructor].
Qed.

(** C5, as the code has it.  On every non-empty input the packed
    decoder returns a value and raises nothing; the value carries the
    minus sign exactly when the final low nibble is 0xD (it is then
    negative, or the negative zero when all digits are 0); for every
    other final low nibble, 0xB and 0x0-0x9 included, it is
    non-negative. *)
Theorem C5_packed_sign_is_D_only : forall (data : list byte) (scale : Z),
  data <> [] ->
  exists d,
    decode_packed_decimal data scale = Ok d /\
    (is_signed d = true <-> lo_nibble (List.last data x00) = 13) /\
    (lo_nibble (List.last data x00) <> 13 -> ge_zero d = true) /\
    (lt_zero d = true -> lo_nibble (List.last data x00) = 13).
Proof.
  intros data scale Hne.
  unfold decode_packed_decimal.
  destruct data as [|b0 data0] eqn:Edata; [contradiction|]. rewrite <- Edata.
  set (digits := flat_map _ _ ++ _).
  assert (Htext : digit_text (join EmptyString (map str digits))).
  { apply join_digit_text; [apply packed_digits_text|].
    subst digits. rewrite map_app. cbn. intros H.
    apply app_eq_nil in H as [_ H]. discriminate. }
  destruct (insert_decimal_point_text _ scale Htext) as (n & k & Hnt & _).
  destruct (of_str_number _ n k Hnt) as (c & Hpos & Hneg & _).
  destruct (Z.eqb_spec (lo_nibble (List.last data x00)) 13) as [HD|HD].
  - exists (mkDecimal true c (- k)). split; [exact Hneg|].
    unfold is_signed, lt_zero, ge_zero. cbn. split; [tauto|]. split; tauto.
  - exists (mkDecimal false c (- k)). split; [exact Hpos|].
    unfold is_signed, lt_zero, ge_zero. cbn. split; [|split].
    + split; [discriminate|contradiction].
    + intros _. apply orb_true_r.
    + rewrite andb_false_r. discriminate.
Qed.

Lemma C5_packed_sign_is_D_only_witness :
  exists d,
    decode_packed_decimal [x12; x3b] 0 = Ok d /\
    (is_signed d = true <-> lo_nibble (List.last [x12; x3b] x00) = 13) /\
    (lo_nibble (List.last [x12; x3b] x00) <> 13 -> ge_zero d = true) /\
    (lt_zero d = true -> lo_nibble (List.last [x12; x3b] x00) = 13).
Proof. apply (C5_packed_sign_is_D_only [x12; x3b] 0). discriminate. Defined.

(** The sign rule of the specification fails on the one-byte field 1B
    (sign nibble 0xB): the decoder returns +1. *)
Lemma C5_sign_nibble_B_counterexample : ~ Spec.packed_sign_rule [x1b] 0.
Proof.
  intros (_ & HB & _).
  destruct HB as (d & Hd & Hneg); [left; reflexivity|].
  vm_compute in Hd. injection Hd as <-. discriminate Hneg.
Qed.

(** ... and on the field 10 (sign nibble 0x0), where it returns +1
    where the rule asks for an error. *)
Example packed_sign_nibble_0 : ~ Spec.packed_sign_rule [x10] 0.
Proof.
  intros (_ & _ & H0).
  destruct H0 as (e & He); [vm_compute; reflexivity|].
  vm_compute in He. discriminate He.
Qed.

(** ** Rounding to the context, and the zoned decimal decoder *)




Lemma zoned_digits_text (data : list byte) :
  Forall digit_text (map (fun b => str (lo_nibble b)) data) /\
  Forall (fun x => len x <= 2) (map (fun b => str (lo_nibble b)) data).
Proof.
  split; apply Forall_map, Forall_forall; intros b _; apply lo_nibble_text.
Qed.



(** ** The packed decimal encoder *)

Lemma to_byte_val (z : Z) (b : byte) : to_byte z = Ok b -> byte_val b = z.
Proof.
  unfold to_byte, byte_val.
  destruct (Z.leb_spec 0 z); [|discriminate]. cbn [andb].
  destruct (z <? 256); [|discriminate].
  destruct (Byte.of_N (Z.to_N z)) as [b'|] eqn:E; [|discriminate].
  intros [= ->]. apply Byte.to_of_N in E. rewrite E. lia.
Qed.

Lemma low_nibble_of_lor (x sign : Z) :
  Z.land x 15 = 0 -> 0 <= sign < 16 -> Z.land (Z.lor x sign) 15 = sign.
Proof.
  intros Hx Hs. rewrite Z.land_lor_distr_l, Hx, Z.lor_0_l.
  change 15 with (Z.ones 4). rewrite Z.land_ones by lia.
  apply Z.mod_small. change (2 ^ 4) with 16. lia.
Qed.

Lemma shiftl4_low (x : Z) : Z.land (Z.shiftl x 4) 15 = 0.
Proof.
  change 15 with (Z.ones 4). rewrite Z.land_ones by lia.
  rewrite Z.shiftl_mul_pow2 by lia. apply Z.mod_mul. lia.
Qed.

Lemma land240_low (x : Z) : Z.land (Z.land x 240) 15 = 0.
Proof. rewrite <- Z.land_assoc. change (Z.land 240 15) with 0. apply Z.land_0_r. Qed.

(** Whatever it packs, the encoder ends its output with the sign nibble
    0xC for a value [>= 0] and 0xD otherwise. *)
Lemma encode_sign_nibble (v : Decimal) (precision scale : Z) (out : list byte) :
  encode_packed_decimal v precision scale = Ok out ->
  lo_nibble (List.last out x00) = (if ge_zero v then 12 else 13).
Proof.
  unfold encode_packed_decimal.
  set (sign := if ge_zero v then 12 else 13).
  assert (Hsign : 0 <= sign < 16) by (subst sign; destruct (ge_zero v); lia).
  destruct (abs v) as [v1|]; cbn [mbind result_bind]; [|discriminate].
  destruct (if scale >? 0 then mul_int v1 (10 ^ scale) else Ok v1) as [v2|];
    cbn [mbind result_bind]; [|discriminate].
  destruct (to_int v2) as [z|]; cbn [mbind result_bind]; [|discriminate].
  set (digits := zfill (str z) precision).
  destruct (mapM (pack_pair digits) (range2 0 (len digits - 1))) as [res|];
    cbn [mbind result_bind]; [|discriminate].
  destruct (len digits mod 2 =? 0).
  - destruct (str_last digits) as [c|]; cbn [mbind result_bind]; [|discriminate].
    destruct (int_of_char c) as [ld|]; cbn [mbind result_bind]; [|discriminate].
    destruct (to_byte (Z.lor (Z.shiftl ld 4) sign)) as [b|] eqn:Eb;
      cbn [mbind result_bind]; [|discriminate].
    intros [= <-]. rewrite last_last. unfold lo_nibble.
    rewrite (to_byte_val _ _ Eb). apply low_nibble_of_lor; [apply shiftl4_low|lia].
  - destruct res as [|r0 res]; [discriminate|].
    destruct (to_byte _) as [b|] eqn:Eb; cbn [mbind result_bind]; [|discriminate].
    intros [= <-]. rewrite last_last. unfold lo_nibble.
    rewrite (to_byte_val _ _ Eb). apply low_nibble_of_lor; [apply land240_low|lia].
Qed.

(** C6, as the code has it.  The encoder writes the sign nibble 0xC for
    every decoded value [>= 0] and 0xD for every negative one; so the
    bytes that encoding after decoding returns can equal the original
    sequence only when its final low nibble is 0xC or 0xD. *)
Theorem C6_roundtrip_normalises_sign :
  forall (data : list byte) (precision scale : Z) (v : Decimal)
         (out : list byte),
    decode_packed_decimal data scale = Ok v ->
    encode_packed_decimal v precision scale = Ok out ->
    lo_nibble (List.last out x00) = (if ge_zero v then 12 else 13) /\
    (out = data ->
     lo_nibble (List.last data x00) = 12 \/
     lo_nibble (List.last data x00) = 13).
Proof.
  intros data precision scale v out _ Henc.
  pose proof (encode_sign_nibble v precision scale out Henc) as H.
  split; [exact H|]. intros <-. rewrite H.
  destruct (ge_zero v); [left|right]; reflexivity.
Qed.

Lemma C6_roundtrip_normalises_sign_witness :
  lo_nibble (List.last [x00; x0c] x00) = 12 /\
  ([x00; x0c] = [x00; x0c] ->
   lo_nibble (List.last [x00; x0c] x00) = 12 \/
   lo_nibble (List.last [x00; x0c] x00) = 13).
Proof.
  apply (C6_roundtrip_normalises_sign [x00; x0c] 2 0
           (mkDecimal false "0" 0) [x00; x0c]);
    vm_compute; reflexivity.
Defined.

(** The round-trip law fails on 00 0F (the unsigned zero): it decodes to
    0, which is encoded as 00 0C. *)
Lemma C6_unsigned_zero_counterexample : ~ Spec.packed_roundtrip [x00; x0f] 2 0.
Proof.
  intros H. specialize (H (mkDecimal false "0" 0)).
  assert (Hd : decode_packed_decimal [x00; x0f] 0 = Ok (mkDecimal false "0" 0))
    by (vm_compute; reflexivity).
  specialize (H Hd). vm_compute in H. discriminate H.
Qed.

(** On the bytes of scenario S2 the encoder loses the last two digits. *)
Example roundtrip_S2 :
  decode_packed_decimal [x12; x34; x5c] 2 = Ok (mkDecimal false "12345" (-2)) /\
  encode_packed_decimal (mkDecimal false "12345" (-2)) 5 2 = Ok [x12; x3c].
Proof. split; vm_compute; reflexivity. Qed.

(** ** The PIC analyzer *)

Lemma match_pic_raises (s : string) (e : exn) :
  match_pic s = Raise e -> e = ValueError.
Proof.
  unfold match_pic.
  destruct (Re.match_ PIC_PATTERN s) as [m|].
  - destruct (int _) as [i|e1] eqn:E1; cbn [mbind result_bind].
    + destruct (or_else _ _) as [d|].
      * destruct (int d) as [j|e2] eqn:E2; cbn [mbind result_bind];
          [discriminate|].
        intros [= <-]. exact (int_raises_ValueError _ _ E2).
      * discriminate.
    + intros [= <-]. exact (int_raises_ValueError _ _ E1).
  - destruct (Re.match_ PIC_INLINE_PATTERN s); [discriminate|].
    intros [= <-]. reflexivity.
Qed.

Lemma match_pic_nonneg (s : string) sign base i d comp :
  match_pic s = Ok (sign, base, i, d, comp) -> 0 <= i /\ 0 <= d.
Proof.
  unfold match_pic.
  destruct (Re.match_ PIC_PATTERN s) as [m|].
  - destruct (int _) as [i'|] eqn:E1; cbn [mbind result_bind]; [|discriminate].
    destruct (or_else _ _) as [d'|].
    + destruct (int d') as [j|] eqn:E2; cbn [mbind result_bind]; [|discriminate].
      intros [= _ _ <- <- _]. split; eapply int_nonneg; eassumption.
    + cbn [mbind result_bind]. intros [= _ _ <- <- _].
      split; [eapply int_nonneg; eassumption|lia].
  - destruct (Re.match_ PIC_INLINE_PATTERN s) as [m|]; [|discriminate].
    intros [= _ _ <- <- _]. split; [apply len_nonneg|].
    destruct (Re.group m 3); [apply len_nonneg|lia].
Qed.

Lemma parse_pic_clause_raises (s : string) (e : exn) :
  parse_pic_clause s = Raise e -> e = ValueError.
Proof.
  unfold parse_pic_clause.
  destruct (match_pic _) as [[[[[sign base] i] d] comp]|e'] eqn:E;
    cbn [mbind result_bind]; [discriminate|].
  intros [= <-]. exact (match_pic_raises _ _ E).
Qed.

(** The storage length the analyzer computes for a packed field. *)
Lemma packed_storage_formula (s : string) (p : ParsedPicClause) :
  parse_pic_clause s = Ok p -> usage p = COMP_3 ->
  total_length p = (ParsedPic.total_digits p + 1) / 2 + 1.
Proof.
  unfold parse_pic_clause.
  destruct (match_pic _) as [[[[[sign base] i] d] comp]|e'];
    cbn [mbind result_bind]; [|discriminate].
  intros [= <-]. unfold ParsedPic.total_digits. cbn [usage total_length integer_digits decimal_digits].
  intros ->. reflexivity.
Qed.

(** It is one more than the ceiling of [(d+1)/2] whenever [d] is odd. *)
Lemma packed_storage_odd (s : string) (p : ParsedPicClause) :
  parse_pic_clause s = Ok p -> usage p = COMP_3 ->
  Z.odd (ParsedPic.total_digits p) = true ->
  total_length p = Spec.packed_width (ParsedPic.total_digits p) + 1.
Proof.
  intros Hp Hu Hodd. rewrite (packed_storage_formula s p Hp Hu).
  unfold Spec.packed_width.
  rewrite Z.odd_spec in Hodd. destruct Hodd as [k ->].
  replace (2 * k + 1 + 1) with ((k + 1) * 2) by lia.
  replace (2 * k + 1 + 2) with (1 + (k + 1) * 2) by lia.
  rewrite Z.div_mul, Z.div_add by lia. change (1 / 2) with 0. lia.
Qed.

Lemma parse_pic_clause_length_nonneg (s : string) (p : ParsedPicClause) :
  parse_pic_clause s = Ok p -> 0 <= total_length p.
Proof.
  unfold parse_pic_clause.
  destruct (match_pic _) as [[[[[sign base] i] d] comp]|e'] eqn:E;
    cbn [mbind result_bind]; [|discriminate].
  apply match_pic_nonneg in E as [Hi Hd].
  intros [= <-]. cbn [total_length].
  destruct (match comp with Some c => _ | None => DISPLAY end);
    try lia.
  - destruct (i + d <=? 4); [lia|]. destruct (i + d <=? 9); lia.
  - assert (0 <= (i + d + 1) / 2) by (apply Z.div_pos; lia). lia.
  - destruct (i + d <=? 4); [lia|]. destruct (i + d <=? 9); lia.
  - destruct (i + d <=? 4); [lia|]. destruct (i + d <=? 9); lia.
Qed.

(** C9.  [convert] returns a Spark type for every text and raises
    nothing; a text that the analyzer cannot parse (one that neither
    pattern matches, or any other on which it raises) is mapped to
    StringType. *)
Theorem C9_convert_total : forall (s : string),
  exists t,
    convert s = Ok t /\
    (forall e, parse_pic_clause s = Raise e -> t = StringType) /\
    (Re.match_ VSAMTypeConverter.PIC_PATTERN (upper (strip s)) = None ->
     Re.match_ VSAMTypeConverter.PIC_INLINE_PATTERN (upper (strip s)) = None ->
     t = StringType).
Proof.
  intros s. unfold convert.
  destruct (parse_pic_clause s) as [p|e] eqn:E.
  - exists (_map_to_spark_type p). split; [reflexivity|].
    split; [discriminate|].
    intros H1 H2. unfold parse_pic_clause, match_pic in E.
    rewrite H1, H2 in E. discriminate E.
  - rewrite (parse_pic_clause_raises s e E).
    exists StringType. repeat split.
Qed.

Lemma C9_convert_total_witness : convert "PIC ???" = Ok StringType.
Proof.
  destruct (C9_convert_total "PIC ???") as (t & Hc & _ & H).
  rewrite Hc. f_equal. apply H; vm_compute; reflexivity.
Defined.

Example convert_unparseable : convert "PIC ???" = Ok StringType.
Proof. vm_compute. reflexivity. Qed.

(** ** The copybook layout *)

Lemma layout_sum_view (l l' : list CopybookField) :
  map view l = map view l' -> Spec.layout_sum l = Spec.layout_sum l'.
Proof.
  revert l'. induction l as [|f l IH]; intros [|f' l'] H; try discriminate;
    [reflexivity|].
  injection H as He Hr Ho Ht Hl. cbn [Spec.layout_sum foldr].
  fold (Spec.layout_sum l). fold (Spec.layout_sum l'). rewrite (IH l' Hl).
  unfold Spec.counts_in_sum. rewrite He, Hr, Ht. reflexivity.
Qed.

Lemma record_length_view (l l' : list CopybookField) :
  map view l = map view l' -> get_record_length l = get_record_length l'.
Proof.
  unfold get_record_length. generalize 0.
  revert l'. induction l as [|f l IH]; intros [|f' l'] z H; try discriminate;
    [reflexivity|].
  injection H as He Hr Ho Ht Hl. cbn [fold_left].
  rewrite He, Ho, Ht. apply IH, Hl.
Qed.

Lemma no_redefines_view (l l' : list CopybookField) :
  map view l = map view l' -> no_redefines l -> no_redefines l'.
Proof.
  unfold no_redefines.
  revert l'. induction l as [|f l IH]; intros [|f' l'] H; try discriminate;
    [constructor|].
  injection H as He Hr Ho Ht Hl. intros Hn.
  inversion Hn as [|? ? Hf0 Hl0]; subst.
  constructor; [congruence|apply (IH l' Hl Hl0)].
Qed.

Lemma view_append_child_rev (n c : string) (l : list CopybookField) :
  map view (append_child_rev n c l) = map view l.
Proof.
  induction l as [|f l IH]; [reflexivity|]. cbn [append_child_rev].
  destruct (String.eqb (Field.name f) n); cbn [map]; [reflexivity|].
  rewrite IH. reflexivity.
Qed.

Lemma view_append_child_last (n c : string) (l : list CopybookField) :
  map view (append_child_last n c l) = map view l.
Proof.
  unfold append_child_last.
  rewrite map_rev, view_append_child_rev, map_rev, rev_involutive. reflexivity.
Qed.

Lemma layout_sum_snoc (l : list CopybookField) (f : CopybookField) :
  Spec.layout_sum (l ++ [f]) =
  Spec.layout_sum l + (if Spec.counts_in_sum f then Field.total_length f else 0).
Proof.
  induction l as [|g l IH]; cbn [app Spec.layout_sum foldr].
  - destruct (Spec.counts_in_sum f); lia.
  - fold (Spec.layout_sum (l ++ [f])). fold (Spec.layout_sum l).
    rewrite IH. destruct (Spec.counts_in_sum g); lia.
Qed.

Lemma record_length_snoc (l : list CopybookField) (f : CopybookField) :
  get_record_length (l ++ [f]) =
  if Field.is_elementary f
  then Z.max (get_record_length l) (Field.offset f + Field.total_length f)
  else get_record_length l.
Proof. unfold get_record_length. rewrite fold_left_app. reflexivity. Qed.

Lemma calculate_length_nonneg (pic : option string) (l : Z) :
  _calculate_length pic = Ok l -> 0 <= l.
Proof.
  unfold _calculate_length. destruct pic as [p|]; [|intros [= <-]; lia].
  destruct (is_empty p); [intros [= <-]; lia|].
  unfold get_storage_bytes.
  destruct (parse_pic_clause p) as [pp|] eqn:E; cbn [mbind result_bind];
    [|discriminate].
  intros [= <-]. exact (parse_pic_clause_length_nonneg p pp E).
Qed.

Lemma parse_line_occurs (line : string) (f : CopybookField) :
  _parse_line line = Ok (Some f) -> 0 <= Field.occurs f.
Proof.
  unfold _parse_line.
  destruct (Re.match_ LEVEL_PATTERN _) as [m|]; [|discriminate].
  destruct (int _) as [lvl|]; cbn [mbind result_bind]; [|discriminate].
  destruct ((lvl =? 66) || (lvl =? 88)); [discriminate|].
  destruct (Re.search OCCURS_PATTERN _) as [om|].
  - destruct (int _) as [occ|] eqn:E; cbn [mbind result_bind]; [|discriminate].
    intros [= <-]. cbn [Field.occurs]. exact (int_nonneg _ _ E).
  - cbn [mbind result_bind]. intros [= <-]. cbn [Field.occurs]. lia.
Qed.

Lemma place_field_inv (st st' : state) (f : CopybookField) :
  0 <= Field.occurs f ->
  place_field false st f = Ok st' ->
  cursor_inv st -> cursor_inv st'.
Proof.
  intros Hocc Hplace Hinv. unfold place_field in Hplace.
  set (stack := pop_while (Field.level f) (parent_stack st)) in *.
  set (f1 := match stack with
             | (_, pname, _) :: _ =>
                 if Field.is_group (Field.set_parent (Some pname) f)
                 then Field.set_offset (current_offset st)
                        (Field.set_parent (Some pname) f)
                 else Field.set_parent (Some pname) f
             | [] => Field.set_offset (current_offset st) f
             end) in *.
  assert (Hf1 : Field.is_elementary f1 = Field.is_elementary f /\
                Field.redefines f1 = Field.redefines f /\
                Field.occurs f1 = Field.occurs f).
  { subst f1. destruct stack as [|[[? pname] ?] ?]; [repeat split|].
    destruct (Field.is_group _); repeat split. }
  destruct Hf1 as (Hel & Hred & Hocc1).
  set (placed := if Field.is_elementary f1 then _ else _) in Hplace.
  assert (Hplaced :
    match placed with
    | Ok (f2, cur) =>
        Field.is_elementary f2 = Field.is_elementary f1 /\
        Field.redefines f2 = Field.redefines f1 /\
        (Field.is_elementary f1 = true ->
           Field.offset f2 = current_offset st /\
           0 <= Field.total_length f2 /\
           cur = current_offset st + Field.total_length f2) /\
        (Field.is_elementary f1 = false -> cur = current_offset st)
    | Raise _ => True
    end).
  { subst placed. clear Hplace. destruct (Field.is_elementary f1) eqn:E1.
    - destruct (_calculate_length _) as [l|] eqn:El;
        cbn [mbind result_bind]; [|exact I].
      apply calculate_length_nonneg in El.
      split; [exact E1|]. split; [reflexivity|]. split.
      + intros _. split; [reflexivity|]. split; [|reflexivity].
        unfold Field.total_length. cbn [Field.length Field.occurs Field.set_length Field.set_offset].
        rewrite Hocc1. apply Z.mul_nonneg_nonneg; lia.
      + discriminate.
    - split; [exact E1|]. split; [reflexivity|]. split.
      + discriminate.
      + reflexivity. }
  rewrite Hel, Hred in Hplaced.
  destruct placed as [[f2 cur]|]; cbn [mbind result_bind] in Hplace;
    [|discriminate].
  destruct Hplaced as (Hel2 & Hred2 & Helem & Hgroup).
  injection Hplace as <-. unfold cursor_inv in *.
  cbn [fields current_offset andb]. intros Hnone.
  set (f3 := match Field.redefines f2 with
             | Some r => _ | None => f2 end) in *.
  set (fs := match stack with _ :: _ => _ | [] => fields st end) in *.
  assert (Hview : map view fs = map view (fields st)).
  { subst fs. destruct stack as [|[[? pname] ?] ?]; [reflexivity|].
    apply view_append_child_last. }
  apply Forall_app in Hnone as [Hnone Hlast].
  inversion Hlast as [|? ? Hf3 _]; subst.
  assert (Hf3' : f3 = f2).
  { subst f3. destruct (Field.redefines f2) as [r|] eqn:Er; [|reflexivity].
    destruct (is_empty r); [reflexivity|].
    destruct (find_last r (fields st)); [|reflexivity].
    cbn in Hf3. rewrite Er in Hf3. discriminate. }
  rewrite Hf3' in *.
  destruct (Hinv (no_redefines_view _ _ Hview Hnone)) as (Hsum & Hlen & Hpos).
  rewrite layout_sum_snoc, record_length_snoc.
  rewrite (layout_sum_view _ _ Hview), (record_length_view _ _ Hview).
  rewrite Hsum, Hlen. unfold Spec.counts_in_sum. rewrite Hf3, Hel2.
  destruct (Field.is_elementary f) eqn:E.
  - destruct (Helem eq_refl) as (Hoff & Htot & ->). cbn [negb andb bool_decide].
    rewrite Hoff. 
    assert (Hd : bool_decide (is_Some (@None string)) = false) by reflexivity.
    rewrite Hd. cbn [negb]. lia.
  - rewrite (Hgroup eq_refl). cbn [andb]. lia.
Qed.

Lemma parse_lines_inv (lines : list string) : forall (st st' : state),
  parse_lines false st lines = Ok st' -> cursor_inv st -> cursor_inv st'.
Proof.
  induction lines as [|line lines IH]; intros st st' H Hinv; cbn [parse_lines] in H.
  - injection H as <-. exact Hinv.
  - destruct (parse_step false st line) as [st1|] eqn:E;
      cbn [mbind result_bind] in H; [|discriminate].
    apply (IH st1 st' H). unfold parse_step in E.
    destruct (_parse_line line) as [[f|]|] eqn:El; cbn [mbind result_bind] in E;
      [|injection E as <-; exact Hinv|discriminate].
    exact (place_field_inv st st1 f (parse_line_occurs _ _ El) E Hinv).
Qed.

(** C4, as the code has it.  For every field list that a parser which
    keeps the FILLER items produces and in which no field carries
    REDEFINES, the sum over the elementary fields of length times
    occurs equals the record length of the list. *)
Theorem C4_layout_sum_without_redefines :
  forall (content : string) (fields : list CopybookField),
    parse_content false content = Ok fields ->
    Forall (fun f => Field.redefines f = None) fields ->
    Spec.layout_sum fields = get_record_length fields.
Proof.
  intros content fs Hparse Hnone. unfold parse_content in Hparse.
  destruct (parse_lines false _ _) as [st|] eqn:E;
    cbn [mbind result_bind] in Hparse; [|discriminate].
  injection Hparse as <-.
  assert (Hinit : cursor_inv (mkState [] 0 [])).
  { intros _. cbn. repeat split; lia. }
  destruct (parse_lines_inv _ _ _ E Hinit Hnone) as (Hsum & Hlen & _).
  congruence.
Qed.

Lemma C4_layout_sum_without_redefines_witness :
  exists fields,
    parse_content false Spec.filler_first = Ok fields /\
    Spec.layout_sum fields = get_record_length fields.
Proof.
  eexists. split; [vm_compute; reflexivity|].
  apply (C4_layout_sum_without_redefines Spec.filler_first).
  - vm_compute. reflexivity.
  - repeat constructor.
Defined.

(** The law fails for a parser that drops the FILLER items: of the
    record FILLER X(2), A X(4) it keeps A at offset 2, so the sum is 4
    and the record length 6. *)
Lemma C4_dropped_filler_counterexample :
  ~ Spec.layout_sum_law true Spec.filler_first.
Proof.
  intros H.
  assert (Hp : exists fs, parse_content true Spec.filler_first = Ok fs /\
                          Spec.layout_sum fs = 4 /\ get_record_length fs = 6).
  { eexists. split; [vm_compute; reflexivity|]. split; vm_compute; reflexivity. }
  destruct Hp as (fs & Hp & Hs & Hl).
  specialize (H fs Hp). rewrite Hs, Hl in H. discriminate H.
Qed.

(** On the S4 copybook, parsed with the FILLER items kept, the sum is 10
    and the record length 14. *)
Example layout_sum_S4 :
  exists fs, parse_content false Spec.S4 = Ok fs /\
             Spec.layout_sum fs = 10 /\ get_record_length fs = 14.
Proof.
  eexists. split; [vm_compute; reflexivity|]. split; vm_compute; reflexivity.
Qed.

(** An elementary field moves the cursor by its total length, whether
    or not it carries REDEFINES. *)
Lemma place_field_advances (ignore_fillers : bool) (st st' : state)
  (f : CopybookField) :
  place_field ignore_fillers st f = Ok st' ->
  Field.is_elementary f = true ->
  exists l, _calculate_length (Field.pic_clause f) = Ok l /\
            current_offset st' = current_offset st + l * Field.occurs f.
Proof.
  intros Hplace Helem. unfold place_field in Hplace.
  set (stack := pop_while (Field.level f) (parent_stack st)) in *.
  set (f1 := match stack with
             | (_, pname, _) :: _ => _
             | [] => Field.set_offset (current_offset st) f
             end) in *.
  assert (Hf1 : Field.is_elementary f1 = Field.is_elementary f /\
                Field.pic_clause f1 = Field.pic_clause f /\
                Field.occurs f1 = Field.occurs f).
  { subst f1. destruct stack as [|[[? pname] ?] ?]; [repeat split|].
    destruct (Field.is_group _); repeat split. }
  destruct Hf1 as (Hel & Hpic & Hocc). clearbody f1.
  rewrite Hel, Helem in Hplace.
  cbn [Field.pic_clause Field.set_offset] in Hplace. rewrite Hpic in Hplace.
  destruct (_calculate_length (Field.pic_clause f)) as [l|];
    cbn [mbind result_bind] in Hplace; [|discriminate].
  injection Hplace as <-. exists l. split; [reflexivity|].
  cbn [current_offset]. unfold Field.total_length.
  cbn [Field.length Field.occurs Field.set_length Field.set_offset].
  rewrite Hocc. reflexivity.
Qed.

(** A field that redefines an earlier field [g] is stored with the
    offset of [g]. *)
Lemma place_field_redefines (ignore_fillers : bool) (st st' : state)
  (f g : CopybookField) (r : string) :
  place_field ignore_fillers st f = Ok st' ->
  Field.redefines f = Some r -> is_empty r = false ->
  find_last r (fields st) = Some g ->
  ignore_fillers && Field.is_filler f = false ->
  exists f', fields st' = removelast (fields st') ++ [f'] /\
             Field.name f' = Field.name f /\
             Field.offset f' = Field.offset g.
Proof.
  intros Hplace Hred Hne Hfind Hkeep. unfold place_field in Hplace.
  set (stack := pop_while (Field.level f) (parent_stack st)) in *.
  set (f1 := match stack with
             | (_, pname, _) :: _ => _
             | [] => Field.set_offset (current_offset st) f
             end) in *.
  assert (Hf1 : Field.redefines f1 = Field.redefines f /\
                Field.name f1 = Field.name f /\
                Field.is_filler f1 = Field.is_filler f).
  { subst f1. destruct stack as [|[[? pname] ?] ?]; [repeat split|].
    destruct (Field.is_group _); repeat split. }
  destruct Hf1 as (Hr1 & Hn1 & Hfi1). clearbody f1.
  set (placed := if Field.is_elementary f1 then _ else _) in Hplace.
  assert (Hplaced :
    match placed with
    | Ok (f2, _) => Field.redefines f2 = Some r /\
                    Field.name f2 = Field.name f /\
                    Field.is_filler f2 = Field.is_filler f
    | Raise _ => True
    end).
  { subst placed. destruct (Field.is_elementary f1).
    - destruct (_calculate_length _); cbn [mbind result_bind]; [|exact I].
      cbn. rewrite Hr1, Hn1, Hfi1, Hred. repeat split.
    - rewrite Hr1, Hn1, Hfi1, Hred. repeat split. }
  destruct placed as [[f2 cur]|]; cbn [mbind result_bind] in Hplace;
    [|discriminate].
  destruct Hplaced as (Hr2 & Hn2 & Hfi2).
  injection Hplace as <-. cbn [fields].
  rewrite Hr2, Hne, Hfind in *. cbn [Field.is_filler Field.set_offset] in *.
  rewrite Hfi2, Hkeep.
  eexists. rewrite removelast_last. split; [reflexivity|].
  split; [exact Hn2|reflexivity].
Qed.

(** * Further properties of the converters and parsers *)

(** ** Binary integers *)




(** ** The value of a decoded decimal *)

Lemma int_of_digits_app (a b : string) : forall (acc : N),
  int_of_digits (a +:+ b) acc =
  match int_of_digits a acc with
  | Ok m => int_of_digits b m
  | Raise e => Raise e
  end.
Proof.
  induction a as [|c a IH]; intros acc; [reflexivity|].
  rewrite app_cons. cbn [int_of_digits].
  destruct (is_digit c); [apply IH|reflexivity].
Qed.

Lemma int_of_digits_zeros (n : nat) (s : string) :
  int_of_digits (repeat_char "0" n +:+ s) 0 = int_of_digits s 0.
Proof.
  induction n as [|n IH]; [reflexivity|].
  cbn [repeat_char]. rewrite app_cons. cbn [int_of_digits].
  change (is_digit "0") with true. cbn iota.
  change (10 * 0 + (code "0" - 48))%N with 0%N. exact IH.
Qed.

Lemma str_of_digit (d : Z) :
  0 <= d <= 9 -> str d = String (digit_char (Z.to_N d)) EmptyString.
Proof.
  intros H.
  assert (d = 0 \/ d = 1 \/ d = 2 \/ d = 3 \/ d = 4 \/ d = 5 \/ d = 6 \/
          d = 7 \/ d = 8 \/ d = 9) as Hd by lia.
  repeat (destruct Hd as [->|Hd]; [reflexivity|]). subst d. reflexivity.
Qed.

(** Reading back the digits that [str] wrote for each of them. *)
Lemma int_of_digits_join (ds : list Z) : forall (acc : N),
  Forall (fun d => 0 <= d <= 9) ds ->
  int_of_digits (join EmptyString (map str ds)) acc =
  Ok (Z.to_N (fold_left (fun a d => 10 * a + d) ds (Z.of_N acc))).
Proof.
  induction ds as [|d ds IH]; intros acc H.
  - cbn. rewrite N2Z.id. reflexivity.
  - inversion H as [|? ? Hd Hds]; subst. cbv beta in Hd.
    cbn [map]. rewrite join_empty_cons, (str_of_digit d Hd), app_cons.
    change (EmptyString +:+ ?x) with x.
    cbn [int_of_digits fold_left].
    rewrite is_digit_digit_char by lia.
    rewrite code_digit_char by lia.
    rewrite IH by assumption.
    assert (Hacc : Z.of_N (10 * acc + (48 + Z.to_N d - 48)) = 10 * Z.of_N acc + d).
    { rewrite N2Z.inj_add, N2Z.inj_mul.
      replace (48 + Z.to_N d - 48)%N with (Z.to_N d) by lia.
      rewrite Z2N.id by lia. reflexivity. }
    rewrite Hacc. reflexivity.
Qed.

Lemma horner_nonneg (ds : list Z) : forall (acc : Z),
  0 <= acc -> Forall (fun d => 0 <= d <= 9) ds ->
  0 <= fold_left (fun a d => 10 * a + d) ds acc.
Proof.
  induction ds as [|d ds IH]; intros acc Hacc H; [exact Hacc|].
  inversion H; subst. cbn [fold_left]. apply IH; [lia|assumption].
Qed.

Lemma int_join_digits (ds : list Z) :
  ds <> [] -> Forall (fun d => 0 <= d <= 9) ds ->
  int (join EmptyString (map str ds)) = Ok (horner ds).
Proof.
  intros Hne H. unfold int.
  assert (Ht : digit_text (join EmptyString (map str ds))).
  { apply join_digit_text.
    - apply Forall_map. eapply Forall_impl; [exact H|].
      intros d Hd. cbv beta in *. rewrite (str_of_digit d Hd).
      split; [|reflexivity].
      cbn [all_str]. rewrite is_digit_digit_char by lia. reflexivity.
    - destruct ds; [contradiction|discriminate]. }
  destruct Ht as [_ ->].
  rewrite (int_of_digits_join ds 0%N H). cbn [mbind result_bind].
  unfold horner. change (Z.of_N 0) with 0.
  rewrite Z2N.id by (apply horner_nonneg; [lia|exact H]). reflexivity.
Qed.

(** [Decimal] of a text of digits, and of one with a point. *)
Lemma of_str_plain (s : string) (m : Z) :
  digit_text s -> int s = Ok m ->
  of_str s = Ok (mkDecimal false (str m) 0) /\
  of_str (String "-" s) = Ok (mkDecimal true (str m) 0).
Proof.
  intros [Hd Hne] Hm. unfold of_str.
  rewrite (split_sign_digit s (conj Hd Hne)), split_sign_minus.
  unfold split_point, split_on.
  rewrite (split_on_acc_none "." s EmptyString (digits_no_point _ Hd)).
  change (rev_str_acc EmptyString s) with s.
  cbn [default from_option id]. rewrite app_nil_r_str, Hd. cbn [all_str andb].
  rewrite Hne. cbn [negb]. unfold normal_int. rewrite Hm.
  cbn [mbind result_bind]. split; reflexivity.
Qed.

Lemma of_str_point (ip fp : string) (m : Z) :
  digit_text ip -> all_str is_digit fp = true -> int (ip +:+ fp) = Ok m ->
  of_str (ip +:+ String "." fp) = Ok (mkDecimal false (str m) (- len fp)) /\
  of_str (String "-" (ip +:+ String "." fp)) =
    Ok (mkDecimal true (str m) (- len fp)).
Proof.
  intros [Hd Hne] Hf Hm. unfold of_str.
  rewrite (number_text_split_sign _ _ _ (nt_point ip fp (conj Hd Hne) Hf)).
  rewrite split_sign_minus.
  unfold split_point, split_on.
  rewrite (split_on_acc_one "." ip fp EmptyString (digits_no_point _ Hd)).
  rewrite (split_on_acc_none "." fp EmptyString (digits_no_point _ Hf)).
  change (rev_str_acc EmptyString ip) with ip.
  change (rev_str_acc EmptyString fp) with fp.
  cbn [default from_option id]. rewrite Hd, Hf. cbn [andb].
  assert (Hne' : is_empty (ip +:+ fp) = false).
  { destruct ip; [discriminate|reflexivity]. }
  rewrite Hne'. cbn [negb]. unfold normal_int. rewrite Hm.
  cbn [mbind result_bind]. split; reflexivity.
Qed.

Lemma int_leading_zeros (n : nat) (s : string) (m : Z) :
  is_empty s = false -> int s = Ok m -> int (repeat_char "0" n +:+ s) = Ok m.
Proof.
  unfold int. intros Hne. rewrite Hne.
  assert (is_empty (repeat_char "0" n +:+ s) = false) as ->.
  { apply is_empty_length. rewrite length_app_str.
    apply is_empty_length in Hne. lia. }
  rewrite int_of_digits_zeros. tauto.
Qed.

(** The decimal that both decoders build from a text of digits. *)
Lemma decimal_of_text (s : string) (scale m : Z) :
  digit_text s -> int s = Ok m ->
  of_str (insert_decimal_point s scale) =
    Ok (mkDecimal false (str m) (- Z.max scale 0)) /\
  of_str (String "-" (insert_decimal_point s scale)) =
    Ok (mkDecimal true (str m) (- Z.max scale 0)).
Proof.
  intros [Hd Hne] Hm. unfold insert_decimal_point.
  destruct (Z.gtb_spec scale 0) as [Hs|Hs].
  - set (t := if len s <=? scale
              then repeat_char "0" (Z.to_nat (scale - len s + 1)) +:+ s
              else s).
    assert (Ht : all_str is_digit t = true).
    { subst t. destruct (len s <=? scale); [|exact Hd].
      rewrite all_str_app, Hd, all_str_repeat; reflexivity. }
    assert (Hmt : int t = Ok m).
    { subst t. destruct (len s <=? scale); [|exact Hm].
      apply int_leading_zeros; assumption. }
    assert (Hl : scale < len t).
    { apply is_empty_length in Hne.
      subst t. destruct (Z.leb_spec (len s) scale) as [Hle|Hgt].
      - unfold len in *. rewrite length_app_str, length_repeat_char. lia.
      - exact Hgt. }
    unfold slice_upto_neg, slice_from_neg.
    set (k := (String.length t - Z.to_nat scale)%nat).
    assert (Hip : digit_text (take_str k t)).
    { split; [apply all_str_take, Ht|].
      apply is_empty_length. rewrite length_take_str. unfold len in Hl. lia. }
    assert (Hfp : all_str is_digit (drop_str k t) = true)
      by apply all_str_drop, Ht.
    assert (Hlen : len (drop_str k t) = scale).
    { unfold len in *. rewrite length_drop_str. lia. }
    pose proof (of_str_point (take_str k t) (drop_str k t) m Hip Hfp) as H.
    rewrite take_drop_str in H. specialize (H Hmt).
    rewrite Hlen in H. replace (Z.max scale 0) with scale by lia. exact H.
  - replace (Z.max scale 0) with 0 by lia.
    apply of_str_plain; [split|]; assumption.
Qed.

Lemma packed_nibbles_range (data : list byte) :
  Forall (fun d => 0 <= d) (packed_nibbles data).
Proof.
  unfold packed_nibbles. apply Forall_app. split.
  - induction (removelast data) as [|b l IH]; cbn; [constructor|].
    constructor; [destruct b; vm_compute; discriminate|].
    constructor; [destruct b; vm_compute; discriminate|exact IH].
  - constructor; [|constructor].
    destruct (List.last data x00); vm_compute; discriminate.
Qed.

(** X2.  For every non-empty packed field whose digit nibbles are
    decimal digits, [decode_packed_decimal] returns exactly the Decimal
    with the sign of the final low nibble (minus for 0xD), the number
    that the digit nibbles spell as coefficient, and the exponent
    [-scale] (0 when the scale is not positive).  No rounding takes
    place, whatever the number of digits. *)
Theorem X2_decode_packed_decimal_value : forall (data : list byte) (scale : Z),
  data <> [] ->
  Forall (fun d => d <= 9) (packed_nibbles data) ->
  decode_packed_decimal data scale =
  Ok (mkDecimal (lo_nibble (List.last data x00) =? 13)
                (str (horner (packed_nibbles data)))
                (- Z.max scale 0)).
Proof.
  intros data scale Hne Hbcd.
  destruct data as [|b0 data0]; [contradiction|].
  cbv beta iota zeta delta [decode_packed_decimal].
  remember (b0 :: data0) as data eqn:Edata.
  fold (packed_nibbles data).
  assert (Hds : Forall (fun d => 0 <= d <= 9) (packed_nibbles data)).
  { pose proof (packed_nibbles_range data) as Hr.
    rewrite Forall_forall in *. intros d Hd.
    specialize (Hr d Hd). specialize (Hbcd d Hd). cbv beta in *. lia. }
  assert (Hnil : packed_nibbles data <> []).
  { unfold packed_nibbles. intros H. apply app_eq_nil in H as [_ H].
    discriminate. }
  assert (Htext : digit_text (join EmptyString (map str (packed_nibbles data)))).
  { apply join_digit_text; [apply packed_digits_text|].
    destruct (packed_nibbles data); [contradiction|discriminate]. }
  destruct (decimal_of_text _ scale _ Htext (int_join_digits _ Hnil Hds))
    as [Hpos Hneg].
  destruct (lo_nibble (List.last data x00) =? 13); [exact Hneg|exact Hpos].
Qed.

Lemma X2_decode_packed_decimal_value_witness :
  decode_packed_decimal [x00; x12; x3d] 2 =
  Ok (mkDecimal (lo_nibble (List.last [x00; x12; x3d] x00) =? 13)
                (str (horner (packed_nibbles [x00; x12; x3d])))
                (- Z.max 2 0)).
Proof.
  apply (X2_decode_packed_decimal_value [x00; x12; x3d] 2).
  - discriminate.
  - vm_compute. repeat constructor; discriminate.
Defined.
(** ** Zoned decimals of at most 28 digits *)

(** A coefficient within the context precision is not touched. *)
Lemma fix_exact (d : Decimal) :
  len (_int d) <= prec -> Etiny <= _exp d <= 0 -> _fix d = Ok d.
Proof.
  intros Hl He. unfold _fix. destruct d as [sg i e]. cbn [_int _exp _sign] in *.
  unfold nonzero. cbn [_int].
  destruct (String.eqb_spec i "0") as [->|Hnz]; cbn [negb].
  - replace (Z.min (Z.max e Etiny) Emax) with e; [reflexivity|].
    unfold Emax, Etiny, Emin, prec in *. lia.
  - destruct (Z.gtb_spec (len i + e - prec) Etop) as [Hgt|_].
    { unfold Etop, Emax, prec in *. lia. }
    set (e1 := if len i + e - prec <? Etiny then Etiny else len i + e - prec).
    assert (He1 : e1 <= e).
    { subst e1. destruct (len i + e - prec <? Etiny); lia. }
    destruct (Z.ltb_spec e e1); [lia|reflexivity].
Qed.

Lemma mul_sign_exact (a : Decimal) (neg : bool) :
  len (_int a) <= prec -> Etiny <= _exp a <= 0 ->
  mul_int a (if neg then -1 else 1) =
  Ok (mkDecimal (xorb (_sign a) neg) (_int a) (_exp a)).
Proof.
  intros Hl He.
  assert (Hone : of_int (if neg then -1 else 1) = mkDecimal neg "1" 0).
  { destruct neg; reflexivity. }
  unfold mul_int, mul. rewrite Hone. cbn [_sign _int _exp].
  replace (_exp a + 0) with (_exp a) by lia.
  change (nonzero {| _sign := neg; _int := "1"; _exp := 0 |}) with true.
  cbn [negb]. rewrite orb_false_r.
  unfold nonzero.
  destruct (String.eqb_spec (_int a) "0") as [E0|_]; cbn [negb].
  - rewrite E0. apply fix_exact; cbn [_int _exp]; [vm_compute; discriminate|lia].
  - destruct (String.eqb_spec (_int a) "1") as [E1|_].
    + rewrite E1. apply fix_exact; cbn [_int _exp]; [vm_compute; discriminate|lia].
    + change (String.eqb "1" "1") with true. cbn iota.
      apply fix_exact; cbn [_int _exp]; assumption.
Qed.

Lemma str_horner_length (ds : list Z) :
  ds <> [] -> Forall (fun d => 0 <= d <= 9) ds ->
  len (str (horner ds)) <= Z.of_nat (length ds).
Proof.
  intros Hne H.
  assert (Ht : digit_text (join EmptyString (map str ds))).
  { apply join_digit_text.
    - apply Forall_map. eapply Forall_impl; [exact H|].
      intros d Hd. cbv beta in *. rewrite (str_of_digit d Hd).
      split; [|reflexivity].
      cbn [all_str]. rewrite is_digit_digit_char by lia. reflexivity.
    - destruct ds; [contradiction|discriminate]. }
  destruct Ht as [Hd Hn].
  destruct (normal_int_digits _ Hd Hn) as (c & Hc & _ & _ & Hl).
  unfold normal_int in Hc. rewrite (int_join_digits ds Hne H) in Hc.
  cbn [mbind result_bind] in Hc. injection Hc as <-.
  eapply Z.le_trans; [exact Hl|].
  clear -H. induction H as [|d ds Hd _ IH]; [unfold len; cbn; lia|].
  cbn [map]. rewrite join_empty_cons, (str_of_digit d Hd).
  unfold len in *. rewrite length_app_str. cbn [String.length length]. lia.
Qed.

(** X3.  For a non-empty zoned field of at most 28 bytes whose low
    nibbles are decimal digits (and a scale up to 999999),
    [decode_zoned_decimal] returns exactly the Decimal with the sign of
    the last zone (minus for 0xD), the number that the low nibbles
    spell as coefficient, and the exponent [-scale] (0 when the scale is
    not positive): the product with the sign does not round. *)
Theorem X3_decode_zoned_decimal_exact : forall (data : list byte) (scale : Z),
  data <> [] ->
  Z.of_nat (length data) <= 28 ->
  scale <= 999999 ->
  Forall (fun b => lo_nibble b <= 9) data ->
  decode_zoned_decimal data scale =
  Ok (mkDecimal (hi_nibble (List.last data x00) =? 13)
                (str (horner (map lo_nibble data)))
                (- Z.max scale 0)).
Proof.
  intros data scale Hne Hlen Hscale Hbcd.
  destruct data as [|b0 data0]; [contradiction|].
  cbv beta iota zeta delta [decode_zoned_decimal].
  remember (b0 :: data0) as data eqn:Edata.
  assert (Hds : Forall (fun d => 0 <= d <= 9) (map lo_nibble data)).
  { apply Forall_map. eapply Forall_impl; [exact Hbcd|].
    intros b Hb. cbv beta in *. split; [|exact Hb].
    destruct b; vm_compute; discriminate. }
  assert (Hnil : map lo_nibble data <> []) by (subst data; discriminate).
  replace (map (fun b => str (lo_nibble b)) data)
    with (map str (map lo_nibble data)) by (rewrite map_map; reflexivity).
  assert (Htext : digit_text (join EmptyString (map str (map lo_nibble data)))).
  { rewrite map_map. apply join_digit_text; [apply zoned_digits_text|].
    subst data. discriminate. }
  destruct (decimal_of_text _ scale _ Htext (int_join_digits _ Hnil Hds))
    as [-> _].
  cbn [mbind result_bind].
  pose proof (str_horner_length _ Hnil Hds) as Hl. rewrite length_map in Hl.
  rewrite (mul_sign_exact _ (hi_nibble (List.last data x00) =? 13)).
  - reflexivity.
  - cbn [_int]. unfold prec. lia.
  - cbn [_exp]. unfold Etiny, Emin, prec. lia.
Qed.

Lemma X3_decode_zoned_decimal_exact_witness :
  decode_zoned_decimal [xf1; xf2; xd3] 1 =
  Ok (mkDecimal (hi_nibble (List.last [xf1; xf2; xd3] x00) =? 13)
                (str (horner (map lo_nibble [xf1; xf2; xd3])))
                (- Z.max 1 0)).
Proof.
  apply (X3_decode_zoned_decimal_exact [xf1; xf2; xd3] 1).
  - discriminate.
  - vm_compute. discriminate.
  - lia.
  - repeat constructor; vm_compute; discriminate.
Defined.
(** ** Code pages *)



Example unknown_ccsid_falls_back : __init__ "819" = Ok (mkConverter "cp037" (Some 37)).
Proof. vm_compute. reflexivity. Qed.

Example codec_name_is_kept :
  __init__ "latin-1" = Ok (mkConverter "latin-1" None) /\
  __init__ "cp500" = Ok (mkConverter "cp500" (Some 500)).
Proof. split; vm_compute; reflexivity. Qed.
(** ** More on the PIC analyzer *)

Lemma parse_pic_clause_digits_nonneg (s : string) (p : ParsedPicClause) :
  parse_pic_clause s = Ok p ->
  0 <= integer_digits p /\ 0 <= decimal_digits p.
Proof.
  unfold parse_pic_clause.
  destruct (match_pic _) as [[[[[sign base] i] d] comp]|e'] eqn:E;
    cbn [mbind result_bind]; [|discriminate].
  apply match_pic_nonneg in E. intros [= <-]. exact E.
Qed.

(** X5.  [convert] never returns DateType, TimestampType or BinaryType,
    and every DecimalType it returns has a scale between 0 and its
    precision. *)
Theorem X5_convert_range : forall (s : string) (t : DataType),
  convert s = Ok t ->
  t <> DateType /\ t <> TimestampType /\ t <> BinaryType /\
  (forall p sc, t = DecimalType p sc -> 0 <= sc <= p).
Proof.
  intros s t. unfold convert.
  destruct (parse_pic_clause s) as [p|e] eqn:E.
  - apply parse_pic_clause_digits_nonneg in E as [Hi Hd].
    intros [= <-]. unfold _map_to_spark_type, _get_binary_type,
      _get_integer_type, ParsedPic.total_digits.
    destruct (ParsedPic.is_alphanumeric p);
      [do 3 (split; [discriminate|]); discriminate|].
    destruct (usage p);
      repeat match goal with
             | |- context [if ?b then _ else _] => destruct b
             end;
      do 3 (split; [discriminate|]);
      intros prc scl E; try discriminate E; injection E as <- <-; lia.
  - destruct e; intros [= <-]; do 3 (split; [discriminate|]); discriminate.
Qed.

Lemma X5_convert_range_witness :
  DecimalType 106 99 <> DateType /\ DecimalType 106 99 <> TimestampType /\
  DecimalType 106 99 <> BinaryType /\
  (forall p sc, DecimalType 106 99 = DecimalType p sc -> 0 <= sc <= p).
Proof.
  apply (X5_convert_range "PIC S9(7)V99 COMP-3"). vm_compute. reflexivity.
Defined.



(** ** Case and surrounding blanks *)

Lemma app_assoc_str (a b c : string) : (a +:+ b) +:+ c = a +:+ (b +:+ c).
Proof.
  induction a as [|x a IH]; [reflexivity|].
  rewrite !app_cons, IH. reflexivity.
Qed.

Lemma rev_str_acc_app (s : string) : forall (acc : string),
  rev_str_acc s acc = rev_str s +:+ acc.
Proof.
  unfold rev_str. induction s as [|c s IH]; intros acc; [reflexivity|].
  cbn [rev_str_acc]. rewrite (IH (String c acc)), (IH (String c EmptyString)).
  rewrite app_assoc_str. reflexivity.
Qed.

Lemma rev_str_cons (c : ascii) (s : string) :
  rev_str (String c s) = rev_str s +:+ String c EmptyString.
Proof. unfold rev_str at 1. cbn [rev_str_acc]. apply rev_str_acc_app. Qed.

Lemma rev_str_snoc (c : ascii) (s : string) :
  rev_str (s +:+ String c EmptyString) = String c (rev_str s).
Proof.
  induction s as [|x s IH]; [reflexivity|].
  rewrite app_cons, !rev_str_cons, IH. reflexivity.
Qed.

Lemma rev_str_involutive (s : string) : rev_str (rev_str s) = s.
Proof.
  induction s as [|c s IH]; [reflexivity|].
  rewrite rev_str_cons, rev_str_snoc, IH. reflexivity.
Qed.

Lemma is_empty_rev_str (s : string) : is_empty (rev_str s) = is_empty s.
Proof.
  destruct s as [|c s]; [reflexivity|]. rewrite rev_str_cons.
  destruct (rev_str s); reflexivity.
Qed.

Lemma map_str_app (f : ascii -> ascii) (a b : string) :
  map_str f (a +:+ b) = map_str f a +:+ map_str f b.
Proof.
  induction a as [|c a IH]; [reflexivity|].
  rewrite app_cons. cbn [map_str]. rewrite app_cons, IH. reflexivity.
Qed.

Lemma map_str_rev (f : ascii -> ascii) (s : string) :
  rev_str (map_str f s) = map_str f (rev_str s).
Proof.
  induction s as [|c s IH]; [reflexivity|].
  cbn [map_str]. rewrite !rev_str_cons, IH, map_str_app. reflexivity.
Qed.

Section Strip.

Variable p : ascii -> bool.

Lemma lstrip_by_map (f : ascii -> ascii) (s : string) :
  (forall c, p (f c) = p c) ->
  lstrip_by p (map_str f s) = map_str f (lstrip_by p s).
Proof.
  intros Hf. induction s as [|c s IH]; [reflexivity|].
  cbn [map_str lstrip_by]. rewrite Hf. destruct (p c); [exact IH|reflexivity].
Qed.

Lemma rstrip_by_map (f : ascii -> ascii) (s : string) :
  (forall c, p (f c) = p c) ->
  rstrip_by p (map_str f s) = map_str f (rstrip_by p s).
Proof.
  intros Hf. unfold rstrip_by.
  rewrite map_str_rev, (lstrip_by_map f _ Hf), map_str_rev. reflexivity.
Qed.

Lemma lstrip_by_idem (s : string) :
  lstrip_by p (lstrip_by p s) = lstrip_by p s.
Proof.
  induction s as [|c s IH]; [reflexivity|].
  cbn [lstrip_by]. destruct (p c) eqn:E; [exact IH|].
  cbn [lstrip_by]. rewrite E. reflexivity.
Qed.

Lemma lstrip_by_snoc (a : string) (c : ascii) :
  lstrip_by p (a +:+ String c EmptyString) =
  if is_empty (lstrip_by p a)
  then (if p c then EmptyString else String c EmptyString)
  else lstrip_by p a +:+ String c EmptyString.
Proof.
  induction a as [|x a IH].
  - rewrite app_nil_l. cbn [lstrip_by is_empty]. destruct (p c); reflexivity.
  - rewrite app_cons. cbn [lstrip_by]. destruct (p x); [exact IH|].
    cbn [is_empty]. rewrite app_cons. reflexivity.
Qed.

Lemma rstrip_by_cons (c : ascii) (s : string) :
  rstrip_by p (String c s) =
  if is_empty (rstrip_by p s) && p c then EmptyString
  else String c (rstrip_by p s).
Proof.
  unfold rstrip_by. rewrite rev_str_cons, lstrip_by_snoc, is_empty_rev_str.
  destruct (is_empty (lstrip_by p (rev_str s))) eqn:E.
  - destruct (lstrip_by p (rev_str s)); [|discriminate].
    cbn [andb]. destruct (p c); reflexivity.
  - cbn [andb]. apply rev_str_snoc.
Qed.

Lemma rstrip_by_idem (s : string) :
  rstrip_by p (rstrip_by p s) = rstrip_by p s.
Proof.
  unfold rstrip_by. rewrite rev_str_involutive, lstrip_by_idem. reflexivity.
Qed.

(** Stripping on the right keeps a text stripped on the left. *)
Lemma lstrip_by_rstrip_by (s : string) :
  lstrip_by p (rstrip_by p (lstrip_by p s)) = rstrip_by p (lstrip_by p s).
Proof.
  induction s as [|c s IH]; [reflexivity|].
  cbn [lstrip_by]. destruct (p c) eqn:E; [exact IH|].
  rewrite rstrip_by_cons, E, andb_false_r. cbn [lstrip_by]. rewrite E.
  reflexivity.
Qed.

End Strip.

Lemma strip_idem (s : string) : strip (strip s) = strip s.
Proof.
  unfold strip, rstrip, lstrip.
  rewrite lstrip_by_rstrip_by, rstrip_by_idem. reflexivity.
Qed.

Lemma code_upper_char (c : ascii) :
  code (upper_char c) = if is_lower c then (code c - 32)%N else code c.
Proof.
  unfold upper_char. destruct (is_lower c) eqn:E; [|reflexivity].
  unfold code at 1. apply N_ascii_embedding.
  unfold is_lower, in_range in E. apply andb_true_iff in E as [_ E].
  apply N.leb_le in E. lia.
Qed.

Lemma in_range_upper_char (lo hi : N) (c : ascii) :
  (hi < 65 \/ 90 < lo /\ hi < 97)%N ->
  in_range lo hi (upper_char c) = in_range lo hi c.
Proof.
  intros H. unfold in_range. rewrite code_upper_char.
  destruct (is_lower c) eqn:E; [|reflexivity].
  unfold is_lower, in_range in E. apply andb_true_iff in E as [E1 E2].
  apply N.leb_le in E1, E2.
  destruct (N.leb_spec lo (code c - 32)), (N.leb_spec (code c - 32) hi),
    (N.leb_spec lo (code c)), (N.leb_spec (code c) hi); cbn; try reflexivity; lia.
Qed.

Lemma is_space_upper_char (c : ascii) : is_space (upper_char c) = is_space c.
Proof.
  unfold is_space. rewrite !in_range_upper_char by lia. reflexivity.
Qed.

Lemma upper_char_idem (c : ascii) : upper_char (upper_char c) = upper_char c.
Proof.
  unfold upper_char at 1.
  assert (is_lower (upper_char c) = false) as ->; [|reflexivity].
  unfold is_lower, in_range. rewrite code_upper_char.
  destruct (is_lower c) eqn:E.
  - unfold is_lower, in_range in E. apply andb_true_iff in E as [E1 E2].
    apply N.leb_le in E1, E2.
    apply andb_false_iff. left. apply N.leb_gt. lia.
  - exact E.
Qed.

Lemma upper_idem (s : string) : upper (upper s) = upper s.
Proof.
  unfold upper. induction s as [|c s IH]; [reflexivity|].
  cbn [map_str]. rewrite upper_char_idem, IH. reflexivity.
Qed.

Lemma strip_upper (s : string) : strip (upper s) = upper (strip s).
Proof.
  unfold strip, rstrip, lstrip, upper.
  rewrite (lstrip_by_map is_space _ _ is_space_upper_char).
  rewrite (rstrip_by_map is_space _ _ is_space_upper_char). reflexivity.
Qed.

(** X8.  The PIC analyzer does not distinguish upper and lower case and
    ignores blanks around the phrase: [parse_pic_clause], and with it
    [convert] and [get_storage_bytes], give the same result on a
    phrase, on its upper-case form and on its stripped form. *)
Theorem X8_pic_case_and_blank_insensitive : forall (s : string),
  parse_pic_clause (upper s) = parse_pic_clause s /\
  parse_pic_clause (strip s) = parse_pic_clause s /\
  convert (upper (strip s)) = convert s /\
  get_storage_bytes (upper (strip s)) = get_storage_bytes s.
Proof.
  intros s.
  assert (H1 : parse_pic_clause (upper s) = parse_pic_clause s).
  { unfold parse_pic_clause. rewrite strip_upper, upper_idem. reflexivity. }
  assert (H2 : parse_pic_clause (strip s) = parse_pic_clause s).
  { unfold parse_pic_clause. rewrite strip_idem. reflexivity. }
  assert (H3 : parse_pic_clause (upper (strip s)) = parse_pic_clause s).
  { unfold parse_pic_clause.
    rewrite strip_upper, upper_idem, strip_idem. reflexivity. }
  split; [exact H1|]. split; [exact H2|].
  unfold convert, get_storage_bytes. rewrite H3. split; reflexivity.
Qed.

Example pic_lower_case :
  parse_pic_clause "  pic s9(5) comp-3 " = parse_pic_clause "PIC S9(5) COMP-3".
Proof. vm_compute. reflexivity. Qed.
(** ** Record length and elementary fields *)

Lemma record_length_fold (fs : list CopybookField) : forall (acc : Z),
  let r := fold_left
             (fun m f => if Field.is_elementary f
                         then Z.max m (Field.offset f + Field.total_length f)
                         else m) fs acc in
  acc <= r /\
  (forall f, In f fs -> Field.is_elementary f = true ->
             Field.offset f + Field.total_length f <= r) /\
  (r = acc \/
   exists f, In f fs /\ Field.is_elementary f = true /\
             r = Field.offset f + Field.total_length f).
Proof.
  induction fs as [|g fs IH]; intros acc; cbn [fold_left].
  - cbv zeta. split; [lia|]. split; [intros f []|left; reflexivity].
  - set (acc' := if Field.is_elementary g then _ else acc).
    specialize (IH acc'). cbv zeta in *. destruct IH as (H1 & H2 & H3).
    assert (Hacc : acc <= acc') by (subst acc'; destruct (Field.is_elementary g); lia).
    split; [lia|]. split.
    + intros f [<-|Hin] He; [|exact (H2 f Hin He)].
      subst acc'. rewrite He in *. lia.
    + destruct H3 as [H3|(f & Hin & He & H3)].
      * subst acc'. destruct (Field.is_elementary g) eqn:Eg; [|left; exact H3].
        destruct (Z.max_spec acc (Field.offset g + Field.total_length g))
          as [[_ Hm]|[_ Hm]].
        -- right. exists g. split; [left; reflexivity|]. split; [exact Eg|lia].
        -- left. lia.
      * right. exists f. split; [right; exact Hin|]. split; assumption.
Qed.

(** X9.  [get_record_length] is the largest end offset
    [offset + length * occurs] of an elementary field, and 0 when that
    is larger: it is never negative, no elementary field of the list
    ends beyond it, and unless it is 0 some elementary field ends
    exactly there. *)
Theorem X9_record_length_is_max_end : forall (fields : list CopybookField),
  0 <= get_record_length fields /\
  (forall f, In f fields -> Field.is_elementary f = true ->
             Field.offset f + Field.total_length f <= get_record_length fields) /\
  (get_record_length fields = 0 \/
   exists f, In f fields /\ Field.is_elementary f = true /\
             get_record_length fields = Field.offset f + Field.total_length f).
Proof. intros fields. exact (record_length_fold fields 0). Qed.

(** X10.  Every field that [get_elementary_fields] selects is a field
    of the list, is not a FILLER, and carries a PIC clause for which
    [convert] returns a Spark type (it does not raise on it). *)
Theorem X10_elementary_fields_convert :
  forall (fields : list CopybookField) (f : CopybookField),
    In f (get_elementary_fields fields) ->
    In f fields /\ Field.is_filler f = false /\
    exists p t, Field.pic_clause f = Some p /\ convert p = Ok t.
Proof.
  intros fields f Hin. unfold get_elementary_fields in Hin.
  apply list_elem_of_In, list_elem_of_filter in Hin as [Hf Hin].
  apply list_elem_of_In in Hin. apply Is_true_true in Hf.
  apply andb_true_iff in Hf as [He Hfi]. apply negb_true_iff in Hfi.
  split; [exact Hin|]. split; [exact Hfi|].
  unfold Field.is_elementary in He. apply andb_true_iff in He as [He _].
  apply bool_decide_eq_true in He. destruct He as [p Hp].
  exists p. unfold convert.
  destruct (parse_pic_clause p) as [pp|e] eqn:E.
  - eexists. split; [exact Hp|reflexivity].
  - rewrite (parse_pic_clause_raises p e E). eexists. split; [exact Hp|reflexivity].
Qed.

Lemma X10_elementary_fields_convert_witness :
  exists fs f,
    CopybookParser.parse_content false Spec.filler_first = Ok fs /\
    In f fs /\ Field.is_filler f = false /\
    exists p t, Field.pic_clause f = Some p /\ convert p = Ok t.
Proof.
  eexists. eexists. split; [vm_compute; reflexivity|].
  eapply X10_elementary_fields_convert. vm_compute. left. reflexivity.
Defined.
(** ** What the copybook parser keeps *)

Lemma parse_line_shape (line : string) (f : CopybookField) :
  _parse_line line = Ok (Some f) ->
  Field.level f <> 66 /\ Field.level f <> 88 /\
  Field.is_filler f = String.eqb (Field.name f) "FILLER" /\
  0 <= Field.occurs f.
Proof.
  unfold _parse_line.
  destruct (Re.match_ LEVEL_PATTERN _) as [m|]; [|discriminate].
  destruct (int _) as [lvl|]; cbn [mbind result_bind]; [|discriminate].
  destruct (Z.eqb_spec lvl 66) as [|H66]; [discriminate|].
  destruct (Z.eqb_spec lvl 88) as [|H88]; [discriminate|]. cbn [orb].
  destruct (Re.search OCCURS_PATTERN _) as [om|].
  - destruct (int _) as [occ|] eqn:E; cbn [mbind result_bind]; [|discriminate].
    intros [= <-]. cbn. repeat split; try assumption.
    exact (int_nonneg _ _ E).
  - cbn [mbind result_bind]. intros [= <-]. cbn.
    repeat split; try assumption. lia.
Qed.

(** What one pass of the loop body does to the state. *)
Lemma place_field_result (ignore_fillers : bool) (st st' : state)
  (f : CopybookField) :
  place_field ignore_fillers st f = Ok st' ->
  exists f' fs',
    (fs' = fields st \/
     exists n, fs' = append_child_last n (Field.name f') (fields st)) /\
    fields st' = (if ignore_fillers && Field.is_filler f then fs'
                  else fs' ++ [f']) /\
    Field.name f' = Field.name f /\ Field.level f' = Field.level f /\
    Field.is_filler f' = Field.is_filler f /\
    Field.is_elementary f' = Field.is_elementary f /\
    Field.occurs f' = Field.occurs f /\
    Field.redefines f' = Field.redefines f /\
    (if Field.is_elementary f
     then exists l, _calculate_length (Field.pic_clause f) = Ok l /\
                    0 <= l /\ Field.length f' = l /\
                    current_offset st' = current_offset st + l * Field.occurs f /\
                    (Field.redefines f = None ->
                     Field.offset f' = current_offset st)
     else current_offset st' = current_offset st).
Proof.
  intros Hplace. unfold place_field in Hplace.
  set (stack := pop_while (Field.level f) (parent_stack st)) in *.
  set (f1 := match stack with
             | (_, pname, _) :: _ => _
             | [] => Field.set_offset (current_offset st) f
             end) in *.
  assert (Hf1 : Field.name f1 = Field.name f /\ Field.level f1 = Field.level f /\
                Field.is_filler f1 = Field.is_filler f /\
                Field.is_elementary f1 = Field.is_elementary f /\
                Field.occurs f1 = Field.occurs f /\
                Field.redefines f1 = Field.redefines f /\
                Field.pic_clause f1 = Field.pic_clause f).
  { subst f1. destruct stack as [|[[? pname] ?] ?]; [repeat split|].
    destruct (Field.is_group _); repeat split. }
  destruct Hf1 as (Hn1 & Hl1 & Hfi1 & He1 & Ho1 & Hr1 & Hp1). clearbody f1.
  set (placed := if Field.is_elementary f1 then _ else _) in Hplace.
  assert (Hplaced :
    match placed with
    | Ok (f2, cur) =>
        Field.name f2 = Field.name f /\ Field.level f2 = Field.level f /\
        Field.is_filler f2 = Field.is_filler f /\
        Field.is_elementary f2 = Field.is_elementary f /\
        Field.occurs f2 = Field.occurs f /\
        Field.redefines f2 = Field.redefines f /\
        (if Field.is_elementary f
         then exists l, _calculate_length (Field.pic_clause f) = Ok l /\
                        0 <= l /\ Field.length f2 = l /\
                        cur = current_offset st + l * Field.occurs f /\
                        Field.offset f2 = current_offset st
         else cur = current_offset st)
    | Raise _ => True
    end).
  { subst placed. rewrite <- He1. destruct (Field.is_elementary f1) eqn:E.
    - cbn [Field.pic_clause Field.set_offset]. rewrite Hp1.
      destruct (_calculate_length (Field.pic_clause f)) as [l|] eqn:El;
        cbn [mbind result_bind]; [|exact I].
      unfold Field.is_elementary, Field.total_length in *. cbn.
      rewrite Hn1, Hl1, Hfi1, Ho1, Hr1.
      do 3 (split; [reflexivity|]). split; [exact E|].
      do 2 (split; [reflexivity|]).
      exists l. split; [reflexivity|].
      split; [exact (calculate_length_nonneg _ _ El)|]. repeat split.
    - rewrite Hn1, Hl1, Hfi1, Ho1, Hr1. repeat split. exact E. }
  destruct placed as [[f2 cur]|]; cbn [mbind result_bind] in Hplace;
    [|discriminate].
  destruct Hplaced as (Hn2 & Hl2 & Hfi2 & He2 & Ho2 & Hr2 & Hcur).
  injection Hplace as <-. cbn [fields current_offset].
  set (f3 := match Field.redefines f2 with
             | Some r => _ | None => f2 end).
  assert (Hf3 : Field.name f3 = Field.name f /\ Field.level f3 = Field.level f /\
                Field.is_filler f3 = Field.is_filler f /\
                Field.is_elementary f3 = Field.is_elementary f /\
                Field.occurs f3 = Field.occurs f /\
                Field.redefines f3 = Field.redefines f /\
                Field.length f3 = Field.length f2 /\
                (Field.redefines f = None -> f3 = f2)).
  { subst f3. rewrite Hr2. destruct (Field.redefines f) as [r|];
      [|repeat split; assumption].
    destruct (is_empty r); [repeat split; (assumption || discriminate)|].
    destruct (find_last r (fields st));
      repeat split; (assumption || discriminate). }
  destruct Hf3 as (Hn3 & Hl3 & Hfi3 & He3 & Ho3 & Hr3 & Hlen3 & Hsame).
  exists f3.
  exists (match stack with
          | (_, pname, _) :: _ =>
              append_child_last pname (Field.name f3) (fields st)
          | [] => fields st
          end).
  split.
  { destruct stack as [|[[? pname] ?] ?]; [left; reflexivity|].
    right. exists pname. reflexivity. }
  split; [rewrite Hfi3; reflexivity|].
  do 6 (split; [assumption|]).
  destruct (Field.is_elementary f); [|exact Hcur].
  destruct Hcur as (l & Hl & Hpos & Hlen & Hc & Hoff).
  exists l. split; [exact Hl|]. split; [exact Hpos|].
  split; [congruence|]. split; [exact Hc|].
  intros Hnone. rewrite (Hsame Hnone). exact Hoff.
Qed.

Lemma Forall_append_child_last (P : CopybookField -> Prop) (n c : string)
  (fs : list CopybookField) :
  (forall f, P f -> P (Field.append_child c f)) ->
  Forall P fs -> Forall P (append_child_last n c fs).
Proof.
  intros HP H. unfold append_child_last.
  apply Forall_rev. apply Forall_rev in H. revert H.
  induction (rev fs) as [|f l IH]; intros H; [constructor|].
  inversion H as [|? ? Hf Hl]; subst. cbn [append_child_rev].
  destruct (String.eqb (Field.name f) n); constructor; auto.
Qed.

(** An invariant of the fields kept so far that every new field
    establishes and that the bookkeeping of children preserves. *)
Lemma parse_lines_forall (P : CopybookField -> Prop) (ig : bool) :
  (forall f c, P f -> P (Field.append_child c f)) ->
  (forall line f st st' f',
     _parse_line line = Ok (Some f) -> place_field ig st f = Ok st' ->
     ig && Field.is_filler f = false ->
     Field.name f' = Field.name f -> Field.level f' = Field.level f ->
     Field.is_filler f' = Field.is_filler f -> P f') ->
  forall lines st st',
    parse_lines ig st lines = Ok st' ->
    Forall P (fields st) -> Forall P (fields st').
Proof.
  intros Hchild Hnew lines.
  induction lines as [|line lines IH]; intros st st' H Hinv;
    cbn [parse_lines] in H.
  - injection H as <-. exact Hinv.
  - destruct (parse_step ig st line) as [st1|] eqn:E;
      cbn [mbind result_bind] in H; [|discriminate].
    apply (IH st1 st' H). unfold parse_step in E.
    destruct (_parse_line line) as [[f|]|] eqn:El; cbn [mbind result_bind] in E;
      [|injection E as <-; exact Hinv|discriminate].
    destruct (place_field_result ig st st1 f E)
      as (f' & fs' & Hfs & -> & Hn & Hl & Hfi & _).
    assert (Hfs' : Forall P fs').
    { destruct Hfs as [->|[n ->]]; [exact Hinv|].
      apply Forall_append_child_last; [intros g; apply Hchild|exact Hinv]. }
    destruct (ig && Field.is_filler f) eqn:Eig; [exact Hfs'|].
    apply Forall_app. split; [exact Hfs'|].
    constructor; [|constructor].
    exact (Hnew line f st st1 f' El E Eig Hn Hl Hfi).
Qed.

(** X11.  No field returned by [parse_content] has level 66 or 88, and
    a parser built with [ignore_fillers=True] returns no FILLER item. *)
Theorem X11_discarded_items_never_returned :
  forall (ignore_fillers : bool) (content : string)
         (fields : list CopybookField),
    parse_content ignore_fillers content = Ok fields ->
    Forall (fun f =>
              Field.level f <> 66 /\ Field.level f <> 88 /\
              (ignore_fillers = true ->
               Field.is_filler f = false /\ Field.name f <> "FILLER"%string))
           fields.
Proof.
  intros ig content fs Hparse. unfold parse_content in Hparse.
  destruct (parse_lines ig _ _) as [st|] eqn:E;
    cbn [mbind result_bind] in Hparse; [|discriminate].
  injection Hparse as <-.
  refine (parse_lines_forall _ ig _ _ _ _ _ E (List.Forall_nil _)).
  - intros f c H. exact H.
  - intros line f st0 st1 f' Hline _ Hig Hn Hl Hfi.
    destruct (parse_line_shape line f Hline) as (H66 & H88 & Hfil & _).
    rewrite Hl, Hfi, Hn. split; [exact H66|]. split; [exact H88|].
    intros ->. cbn [andb] in Hig. split; [exact Hig|].
    rewrite Hig in Hfil. intros Hname. rewrite Hname in Hfil. discriminate.
Qed.

Lemma X11_discarded_items_never_returned_witness :
  exists fs,
    parse_content true Spec.filler_first = Ok fs /\
    Forall (fun f =>
              Field.level f <> 66 /\ Field.level f <> 88 /\
              (true = true ->
               Field.is_filler f = false /\ Field.name f <> "FILLER"%string))
           fs.
Proof.
  eexists. split; [vm_compute; reflexivity|].
  apply (X11_discarded_items_never_returned true Spec.filler_first).
  vm_compute. reflexivity.
Defined.

(** ** Byte ranges of the fields *)

(** An invariant of the parser state that every loop pass preserves
    holds at the end of the loop. *)
Lemma parse_lines_state_inv (I : state -> Prop) (ig : bool) :
  (forall line f st st',
     _parse_line line = Ok (Some f) -> place_field ig st f = Ok st' ->
     I st -> I st') ->
  forall lines st st', parse_lines ig st lines = Ok st' -> I st -> I st'.
Proof.
  intros Hstep lines.
  induction lines as [|line lines IH]; intros st st' H Hinv;
    cbn [parse_lines] in H.
  - injection H as <-. exact Hinv.
  - destruct (parse_step ig st line) as [st1|] eqn:E;
      cbn [mbind result_bind] in H; [|discriminate].
    apply (IH st1 st' H). unfold parse_step in E.
    destruct (_parse_line line) as [[f|]|] eqn:El; cbn [mbind result_bind] in E;
      [|injection E as <-; exact Hinv|discriminate].
    exact (Hstep line f st st1 El E Hinv).
Qed.

Lemma ForallOrdPairs_map {A B : Type} (g : A -> B) (R : B -> B -> Prop)
  (l : list A) :
  ForallOrdPairs (fun a b => R (g a) (g b)) l ->
  ForallOrdPairs R (map g l).
Proof.
  induction 1 as [|a l Ha _ IH]; cbn [map]; constructor; [|exact IH].
  apply List.Forall_map. exact Ha.
Qed.

Lemma ForallOrdPairs_of_map {A B : Type} (g : A -> B) (R : B -> B -> Prop)
  (l : list A) :
  ForallOrdPairs R (map g l) ->
  ForallOrdPairs (fun a b => R (g a) (g b)) l.
Proof.
  induction l as [|a l IH]; cbn [map]; intros H; [constructor|].
  inversion H as [|? ? Ha Hl]; subst. constructor; [|exact (IH Hl)].
  exact (proj1 (List.Forall_map g (R (g a)) l) Ha).
Qed.

Lemma ForallOrdPairs_snoc {A : Type} (R : A -> A -> Prop) (l : list A) (x : A) :
  ForallOrdPairs R l -> Forall (fun a => R a x) l ->
  ForallOrdPairs R (l ++ [x]).
Proof.
  induction 1 as [|a l Ha _ IH]; intros Hx; cbn [app].
  - constructor; constructor.
  - inversion Hx as [|? ? Hax Hlx]; subst. constructor; [|exact (IH Hlx)].
    apply Forall_app. split; [exact Ha|]. constructor; [exact Hax|constructor].
Qed.

(** The byte range of an elementary field outside REDEFINES, as a
    relation on what [view] shows. *)
Lemma ordered_state (ig : bool) (lines : list string) (st st' : state) :
  let before (v w : bool * option string * Z * Z) :=
    match v, w with
    | (true, None, o1, l1), (true, None, o2, _) => o1 + l1 <= o2
    | _, _ => True
    end in
  let inside (c : Z) (v : bool * option string * Z * Z) :=
    match v with
    | (true, None, o, l) => 0 <= o /\ 0 <= l /\ o + l <= c
    | _ => True
    end in
  parse_lines ig st lines = Ok st' ->
  (ForallOrdPairs before (map view (fields st)) /\
   Forall (inside (current_offset st)) (map view (fields st)) /\
   0 <= current_offset st) ->
  (ForallOrdPairs before (map view (fields st')) /\
   Forall (inside (current_offset st')) (map view (fields st')) /\
   0 <= current_offset st').
Proof.
  intros before inside.
  apply (parse_lines_state_inv
           (fun s => ForallOrdPairs before (map view (fields s)) /\
                     Forall (inside (current_offset s)) (map view (fields s)) /\
                     0 <= current_offset s)).
  clear st st' lines. intros line f st st' Hline Hplace (Hord & Hin & Hcur).
  destruct (parse_line_shape line f Hline) as (_ & _ & _ & Hocc).
  destruct (place_field_result ig st st' f Hplace)
    as (f' & fs' & Hfs & Hfields & _ & _ & _ & He & Ho & Hr & Hpos).
  assert (Hview : map view fs' = map view (fields st)).
  { destruct Hfs as [->|[n ->]]; [reflexivity|apply view_append_child_last]. }
  assert (Hadv : current_offset st <= current_offset st').
  { destruct (Field.is_elementary f); [|lia].
    destruct Hpos as (l & _ & Hl & _ & -> & _). nia. }
  assert (Hin' : Forall (inside (current_offset st')) (map view (fields st))).
  { eapply Forall_impl; [exact Hin|]. intros [[[[] [r|]] o] l]; cbn; try tauto.
    lia. }
  rewrite Hfields.
  destruct (ig && Field.is_filler f).
  - rewrite Hview. split; [exact Hord|]. split; [exact Hin'|lia].
  - rewrite map_app, Hview. cbn [map].
    split; [|split; [|lia]].
    + apply ForallOrdPairs_snoc; [exact Hord|].
      eapply Forall_impl; [exact Hin|].
      intros [[[[] [r|]] o] l]; cbn; try tauto.
      unfold view. rewrite He, Hr.
      destruct (Field.is_elementary f); [|tauto].
      destruct (Field.redefines f); [tauto|].
      destruct Hpos as (l' & _ & _ & _ & _ & Hoff). rewrite (Hoff eq_refl). lia.
    + apply Forall_app. split; [exact Hin'|].
      constructor; [|constructor].
      unfold view, inside. rewrite He, Hr.
      destruct (Field.is_elementary f); [|tauto].
      destruct (Field.redefines f); [tauto|].
      destruct Hpos as (l' & _ & Hl' & Hlen & -> & Hoff).
      rewrite (Hoff eq_refl). unfold Field.total_length. rewrite Hlen, Ho. nia.
Qed.

(** X12.  In the list that [parse_content] returns, the elementary
    fields without REDEFINES occupy byte ranges that do not overlap
    and follow the order of the list: each starts at or after 0, has a
    length that is not negative, and ends at or before the start of
    every later one and at or before the record length. *)
Theorem X12_fields_do_not_overlap :
  forall (ignore_fillers : bool) (content : string)
         (fields : list CopybookField),
    parse_content ignore_fillers content = Ok fields ->
    ForallOrdPairs
      (fun f g =>
         Field.is_elementary f = true -> Field.redefines f = None ->
         Field.is_elementary g = true -> Field.redefines g = None ->
         Field.offset f + Field.total_length f <= Field.offset g) fields /\
    Forall
      (fun f =>
         Field.is_elementary f = true -> Field.redefines f = None ->
         0 <= Field.offset f /\ 0 <= Field.total_length f /\
         Field.offset f + Field.total_length f <= get_record_length fields)
      fields.
Proof.
  intros ig content fs Hparse. unfold parse_content in Hparse.
  destruct (parse_lines ig _ _) as [st|] eqn:E;
    cbn [mbind result_bind] in Hparse; [|discriminate].
  injection Hparse as <-.
  destruct (ordered_state ig _ _ _ E) as (Hord & Hin & _).
  { cbn. split; [constructor|]. split; [constructor|lia]. }
  split.
  - apply ForallOrdPairs_of_map in Hord.
    revert Hord. generalize (fields st). intros l.
    induction 1 as [|a l Ha _ IH]; constructor; [|exact IH].
    eapply Forall_impl; [exact Ha|]. intros b Hab. cbv beta in Hab.
    unfold view in Hab. intros He1 Hr1 He2 Hr2.
    rewrite He1, Hr1, He2, Hr2 in Hab. exact Hab.
  - apply (proj1 (List.Forall_map view _ _)) in Hin. apply Forall_forall. intros f Hf He Hr.
    rewrite Forall_forall in Hin. specialize (Hin f Hf). cbv beta in Hin.
    unfold view in Hin. rewrite He, Hr in Hin.
    destruct Hin as (H0 & Hl & _). split; [exact H0|]. split; [exact Hl|].
    apply list_elem_of_In in Hf.
    exact (proj1 (proj2 (record_length_fold (fields st) 0)) f Hf He).
Qed.

Lemma X12_fields_do_not_overlap_witness :
  exists fs,
    parse_content false Spec.S4 = Ok fs /\
    ForallOrdPairs
      (fun f g =>
         Field.is_elementary f = true -> Field.redefines f = None ->
         Field.is_elementary g = true -> Field.redefines g = None ->
         Field.offset f + Field.total_length f <= Field.offset g) fs /\
    Forall
      (fun f =>
         Field.is_elementary f = true -> Field.redefines f = None ->
         0 <= Field.offset f /\ 0 <= Field.total_length f /\
         Field.offset f + Field.total_length f <= get_record_length fs)
      fs.
Proof.
  eexists. split; [vm_compute; reflexivity|].
  apply (X12_fields_do_not_overlap false Spec.S4).
  vm_compute. reflexivity.
Defined.
(** ** What the DDL parser returns *)

Lemma parse_column_shape (column_def : string) (col : DDLColumn) :
  DDLParser._parse_column column_def = Some col ->
  Column.is_primary_key col = false /\ Column.foreign_key_ref col = None /\
  upper (Column.name col) = Column.name col /\
  upper (Column.data_type col) = Column.data_type col /\
  strip (Column.data_type col) = Column.data_type col.
Proof.
  unfold DDLParser._parse_column.
  destruct (Re.match_ DDLParser.COLUMN_PATTERN column_def) as [m|];
    [|discriminate].
  intros [= <-]. cbn [Column.is_primary_key Column.foreign_key_ref
                      Column.name Column.data_type].
  split; [reflexivity|]. split; [reflexivity|].
  split; [apply upper_idem|]. split; [apply upper_idem|].
  rewrite strip_upper, strip_idem. reflexivity.
Qed.

(** The columns collected by the loop come from [_parse_column]. *)
Lemma part_step_columns (P : DDLColumn -> Prop) :
  (forall d col, DDLParser._parse_column d = Some col -> P col) ->
  forall (parts : list string) (st : DDLParser.state),
    Forall P (DDLParser.columns st) ->
    Forall P (DDLParser.columns (fold_left DDLParser.part_step parts st)).
Proof.
  intros HP parts.
  induction parts as [|part parts IH]; intros st Hst; [exact Hst|].
  cbn [fold_left]. apply IH. unfold DDLParser.part_step.
  destruct (is_empty (strip part)); [exact Hst|].
  destruct (Re.match_ DDLParser.PRIMARY_KEY_PATTERN _); [exact Hst|].
  destruct (Re.match_ DDLParser.FOREIGN_KEY_PATTERN _); [exact Hst|].
  destruct (existsb _ _); [exact Hst|].
  destruct (DDLParser._parse_column (strip part)) as [col|] eqn:E;
    [|exact Hst].
  cbn [DDLParser.columns]. apply Forall_app. split; [exact Hst|].
  constructor; [exact (HP _ _ E)|constructor].
Qed.

Lemma mem_In (x : string) (l : list string) :
  DDLParser.mem x l = true <-> In x l.
Proof.
  unfold DDLParser.mem. rewrite existsb_exists. split.
  - intros (y & Hy & E). apply String.eqb_eq in E. subst y. exact Hy.
  - intros H. exists x. split; [exact H|apply String.eqb_refl].
Qed.

(** X13.  In a table returned by the DDL [parse_content], the key
    flags of every column agree with the table's own key data: a column
    is flagged as primary key exactly when its name is an entry of
    [primary_key], and its [foreign_key_ref] is the entry of
    [foreign_keys] under its name (None when there is none).  Column
    names and data types are in upper case, the data type without
    surrounding blanks; so a key column written in lower case in the
    PRIMARY KEY or FOREIGN KEY clause flags no column. *)
Theorem X13_ddl_key_flags_agree :
  forall (content : string) (t : DDLTable),
    DDLParser.parse_content content = Ok t ->
    Forall (fun col =>
              (Column.is_primary_key col = true <->
               In (Column.name col) (Table.primary_key t)) /\
              Column.foreign_key_ref col =
                Table.foreign_keys t !! Column.name col /\
              upper (Column.name col) = Column.name col /\
              upper (Column.data_type col) = Column.data_type col /\
              strip (Column.data_type col) = Column.data_type col)
           (Table.columns t) /\
    (forall k, upper k <> k ->
       Forall (fun col => Column.name col <> k) (Table.columns t)).
Proof.
  intros content t. unfold DDLParser.parse_content.
  destruct (Re.search DDLParser.CREATE_TABLE_PATTERN _) as [m|];
    [|discriminate].
  intros [= <-]. cbn [Table.columns Table.primary_key Table.foreign_keys].
  set (st := fold_left DDLParser.part_step _ _).
  assert (Hcols : Forall (fun col =>
            Column.is_primary_key col = false /\
            Column.foreign_key_ref col = None /\
            upper (Column.name col) = Column.name col /\
            upper (Column.data_type col) = Column.data_type col /\
            strip (Column.data_type col) = Column.data_type col)
          (DDLParser.columns st)).
  { subst st. apply part_step_columns; [|constructor].
    intros d col. apply parse_column_shape. }
  clearbody st.
  assert (Hall : Forall (fun col =>
              (Column.is_primary_key col = true <->
               In (Column.name col) (DDLParser.primary_key st)) /\
              Column.foreign_key_ref col =
                DDLParser.foreign_keys st !! Column.name col /\
              upper (Column.name col) = Column.name col /\
              upper (Column.data_type col) = Column.data_type col /\
              strip (Column.data_type col) = Column.data_type col)
           (map (DDLParser.flag_column (DDLParser.primary_key st)
                                       (DDLParser.foreign_keys st))
                (DDLParser.columns st))).
  { apply List.Forall_map. eapply Forall_impl; [exact Hcols|].
    intros col (Hpk & Hfk & Hn & Hd & Hs). cbv beta.
    unfold DDLParser.flag_column.
    destruct (DDLParser.mem (Column.name col) (DDLParser.primary_key st))
      eqn:Em.
    - cbn [Column.name Column.set_is_primary_key].
      destruct (DDLParser.foreign_keys st !! Column.name col) eqn:Ef;
        cbn [Column.name Column.set_foreign_key_ref Column.set_is_primary_key
             Column.is_primary_key Column.foreign_key_ref Column.data_type];
        rewrite ?Ef; repeat split; try assumption; try reflexivity;
        try (intros _; apply mem_In; exact Em); try congruence.
    - destruct (DDLParser.foreign_keys st !! Column.name col) eqn:Ef;
        cbn [Column.name Column.set_foreign_key_ref Column.set_is_primary_key
             Column.is_primary_key Column.foreign_key_ref Column.data_type];
        rewrite ?Ef; repeat split; try assumption; try reflexivity;
        try congruence;
        try (intros Hin; apply mem_In in Hin; congruence).
  }
  split; [exact Hall|].
  intros k Hk. eapply Forall_impl; [exact Hall|].
  intros col (_ & _ & Hn & _) E. rewrite E in Hn. exact (Hk Hn).
Qed.

Lemma X13_ddl_key_flags_agree_witness :
  exists t,
    DDLParser.parse_content Spec.S5 = Ok t /\
    Forall (fun col =>
              (Column.is_primary_key col = true <->
               In (Column.name col) (Table.primary_key t)) /\
              Column.foreign_key_ref col =
                Table.foreign_keys t !! Column.name col /\
              upper (Column.name col) = Column.name col /\
              upper (Column.data_type col) = Column.data_type col /\
              strip (Column.data_type col) = Column.data_type col)
           (Table.columns t) /\
    (forall k, upper k <> k ->
       Forall (fun col => Column.name col <> k) (Table.columns t)).
Proof.
  eexists. split; [vm_compute; reflexivity|].
  apply (X13_ddl_key_flags_agree Spec.S5).
  vm_compute. reflexivity.
Defined.
(** ** The lines that [_clean_content] hands to the parser *)

Section StripFacts.

Variable p : ascii -> bool.

Lemma length_lstrip_by (s : string) :
  (String.length (lstrip_by p s) <= String.length s)%nat.
Proof.
  induction s as [|c s IH]; [reflexivity|].
  cbn [lstrip_by]. destruct (p c); cbn [String.length]; lia.
Qed.

Lemma lstrip_by_fixed_head (c : ascii) (s : string) :
  lstrip_by p (String c s) = String c s -> p c = false.
Proof.
  cbn [lstrip_by]. destruct (p c); [|reflexivity].
  intros H. pose proof (length_lstrip_by s) as Hl. rewrite H in Hl.
  cbn [String.length] in Hl. lia.
Qed.

Lemma lstrip_by_app_fixed (a b : string) :
  is_empty a = false -> lstrip_by p a = a ->
  lstrip_by p (a +:+ b) = a +:+ b.
Proof.
  destruct a as [|c a]; [discriminate|]. intros _ H.
  apply lstrip_by_fixed_head in H. rewrite app_cons. cbn [lstrip_by].
  rewrite H. reflexivity.
Qed.

Lemma lstrip_by_rstrip_by_fixed (s : string) :
  lstrip_by p s = s -> lstrip_by p (rstrip_by p s) = rstrip_by p s.
Proof. intros H. rewrite <- H. apply lstrip_by_rstrip_by. Qed.

Variable q : ascii -> bool.

Lemma all_str_rev_acc (s : string) : forall (acc : string),
  all_str q (rev_str_acc s acc) = all_str q s && all_str q acc.
Proof.
  induction s as [|c s IH]; intros acc; [reflexivity|].
  cbn [rev_str_acc all_str]. rewrite IH. cbn [all_str].
  destruct (q c), (all_str q s); reflexivity.
Qed.

Lemma all_str_rev (s : string) : all_str q (rev_str s) = all_str q s.
Proof. unfold rev_str. rewrite all_str_rev_acc. cbn. apply andb_true_r. Qed.

Lemma all_str_lstrip_by (s : string) :
  all_str q s = true -> all_str q (lstrip_by p s) = true.
Proof.
  induction s as [|c s IH]; [reflexivity|].
  cbn [lstrip_by]. destruct (p c); [|tauto].
  cbn [all_str]. intros H. apply andb_true_iff in H as [_ H]. exact (IH H).
Qed.

Lemma all_str_rstrip_by (s : string) :
  all_str q s = true -> all_str q (rstrip_by p s) = true.
Proof.
  intros H. unfold rstrip_by. rewrite all_str_rev.
  apply all_str_lstrip_by. rewrite all_str_rev. exact H.
Qed.

(** The pieces of a split keep what holds of every character. *)
Lemma split_on_acc_keeps (c : ascii) (s : string) : forall (cur : string),
  all_str q s = true -> all_str q cur = true ->
  Forall (fun x => all_str q x = true) (split_on_acc c s cur).
Proof.
  induction s as [|a s IH]; intros cur Hs Hcur; cbn [split_on_acc].
  - constructor; [|constructor]. rewrite all_str_rev. exact Hcur.
  - cbn [all_str] in Hs. apply andb_true_iff in Hs as [Ha Hs].
    destruct (eqc a c).
    + constructor; [rewrite all_str_rev; exact Hcur|].
      apply IH; [exact Hs|reflexivity].
    + apply IH; [exact Hs|]. cbn [all_str]. rewrite Ha, Hcur. reflexivity.
Qed.

End StripFacts.

(** No piece of a split holds the separator. *)
Lemma split_on_acc_pieces (c : ascii) (s : string) : forall (cur : string),
  all_str (fun a => negb (eqc a c)) cur = true ->
  Forall (fun x => all_str (fun a => negb (eqc a c)) x = true)
         (split_on_acc c s cur).
Proof.
  induction s as [|a s IH]; intros cur Hcur; cbn [split_on_acc].
  - constructor; [|constructor]. rewrite all_str_rev. exact Hcur.
  - destruct (eqc a c) eqn:E.
    + constructor; [rewrite all_str_rev; exact Hcur|].
      apply IH. reflexivity.
    + apply IH. cbn [all_str]. rewrite E, Hcur. reflexivity.
Qed.

Lemma split_on_acc_app (c : ascii) (a b : string) : forall (cur : string),
  split_on_acc c (a +:+ String c b) cur =
  split_on_acc c a cur ++ split_on_acc c b EmptyString.
Proof.
  induction a as [|x a IH]; intros cur.
  - rewrite app_nil_l. cbn [split_on_acc]. rewrite eqc_refl. reflexivity.
  - rewrite app_cons. cbn [split_on_acc]. destruct (eqc x c).
    + rewrite IH. reflexivity.
    + apply IH.
Qed.

Lemma lstrip_strip (s : string) : lstrip (strip s) = strip s.
Proof. unfold strip, lstrip, rstrip. apply lstrip_by_rstrip_by. Qed.

Lemma clean_step_inv (st : list string * string) (line : string) :
  let no_nl (s : string) := all_str (fun a => negb (eqc a Re.newline)) s = true in
  let good (s : string) := is_empty s = false /\ lstrip s = s /\ no_nl s in
  no_nl line ->
  Forall good (fst st) /\ lstrip (snd st) = snd st /\ no_nl (snd st) ->
  Forall good (fst (clean_step st line)) /\
  lstrip (snd (clean_step st line)) = snd (clean_step st line) /\
  no_nl (snd (clean_step st line)).
Proof.
  intros no_nl good Hline. destruct st as [lines cur]. cbn [fst snd].
  intros (Hlines & Hcur & Hnl). unfold clean_step.
  destruct (is_empty (strip line)); [cbn [fst snd]; tauto|].
  set (ind := match str_get line 6 with Ok c => Some c | Raise _ => None end).
  match goal with
  | |- context [match ind with Some a => @?f a | None => ?b end] =>
      set (body := b)
  end.
  assert (Hbody : Forall good (fst body) /\ lstrip (snd body) = snd body /\
                  no_nl (snd body)).
  { subst body. cbv zeta.
    set (lc0 := if 7 <=? len line then _ else line).
    assert (H0 : no_nl lc0).
    { subst lc0. destruct (7 <=? len line); [|exact Hline].
      destruct (7 <? len line); [|reflexivity].
      unfold slice. apply all_str_take, all_str_drop. exact Hline. }
    clearbody lc0.
    set (pend := if is_empty cur then (lines, cur)
                 else (lines ++ [cur], EmptyString)).
    assert (Hpend : Forall good (fst pend) /\ lstrip (snd pend) = snd pend /\
                    no_nl (snd pend)).
    { subst pend. destruct (is_empty cur) eqn:Ec; cbn [fst snd].
      - tauto.
      - split; [|split; reflexivity].
        apply Forall_app. split; [exact Hlines|].
        constructor; [|constructor]. split; [exact Ec|]. split; assumption. }
    clearbody pend. destruct pend as [lines1 cur1]. cbn [fst snd] in Hpend.
    destruct Hpend as (Hl1 & Hc1 & Hn1).
    set (lc1 := if existsb _ _ then _ else lc0).
    assert (H1 : no_nl lc1).
    { subst lc1. destruct (existsb _ _); [|exact H0].
      pose proof (split_on_acc_keeps _ "*"%char lc0 EmptyString H0 eq_refl)
        as Hsp.
      unfold split_on. destruct (split_on_acc "*" lc0 EmptyString) as [|h t];
        [reflexivity|].
      inversion Hsp; subst. cbn [head default from_option id]. assumption. }
    clearbody lc1.
    assert (H2 : no_nl (strip lc1)).
    { unfold strip, rstrip, lstrip.
      apply all_str_rstrip_by, all_str_lstrip_by. exact H1. }
    destruct (is_empty (strip lc1)) eqn:Es; [cbn [fst snd]; tauto|].
    destruct (endswith "." (strip lc1)); cbn [fst snd].
    - split; [|tauto]. apply Forall_app. split; [exact Hl1|].
      constructor; [|constructor]. split; [exact Es|].
      split; [apply lstrip_strip|exact H2].
    - split; [exact Hl1|]. split; [apply lstrip_strip|exact H2]. }
  clearbody body.
  assert (Hcont : Forall good lines /\
                  lstrip (rstrip cur +:+ lstrip (drop_str 7 line)) =
                    rstrip cur +:+ lstrip (drop_str 7 line) /\
                  no_nl (rstrip cur +:+ lstrip (drop_str 7 line))).
  { split; [exact Hlines|]. split.
    - destruct (is_empty (rstrip cur)) eqn:Er.
      + destruct (rstrip cur); [|discriminate]. rewrite app_nil_l.
        apply lstrip_by_idem.
      + apply lstrip_by_app_fixed; [exact Er|].
        apply lstrip_by_rstrip_by_fixed. exact Hcur.
    - unfold no_nl. rewrite all_str_app. apply andb_true_iff. split.
      + apply all_str_rstrip_by. exact Hnl.
      + apply all_str_lstrip_by, all_str_drop. exact Hline. }
  destruct ind as [c|]; [|exact Hbody].
  destruct c as [[] [] [] [] [] [] [] []]; try exact Hbody;
    cbn [fst snd]; tauto.
Qed.

(** X14.  Every line that the copybook [_clean_content] returns is
    not empty, does not start with white space and holds no line
    break. *)
Theorem X14_clean_lines_are_statements : forall (content : string),
  Forall (fun line =>
            is_empty line = false /\ lstrip line = line /\
            all_str (fun a => negb (eqc a Re.newline)) line = true)
         (_clean_content content).
Proof.
  intros content. unfold _clean_content.
  set (no_nl := fun s : string =>
                  all_str (fun a => negb (eqc a Re.newline)) s = true).
  set (good := fun s : string =>
                 is_empty s = false /\ lstrip s = s /\ no_nl s).
  assert (Hfold : forall lines st,
    Forall no_nl lines ->
    Forall good (fst st) /\ lstrip (snd st) = snd st /\ no_nl (snd st) ->
    Forall good (fst (fold_left clean_step lines st)) /\
    lstrip (snd (fold_left clean_step lines st)) =
      snd (fold_left clean_step lines st) /\
    no_nl (snd (fold_left clean_step lines st))).
  { induction lines as [|l lines IH]; intros st Hl Hst; [exact Hst|].
    inversion Hl; subst. cbn [fold_left]. apply IH; [assumption|].
    apply clean_step_inv; assumption. }
  specialize (Hfold (split_on Re.newline content) ([], EmptyString)).
  destruct (fold_left clean_step _ _) as [lines cur]. cbn [fst snd] in Hfold.
  destruct Hfold as (Hlines & Hcur & Hnl).
  - apply split_on_acc_pieces. reflexivity.
  - split; [constructor|]. split; reflexivity.
  - destruct (is_empty cur) eqn:E; [exact Hlines|].
    apply Forall_app. split; [exact Hlines|].
    constructor; [|constructor]. split; [exact E|]. split; assumption.
Qed.

(** X15.  A line that is blank, or that has [*] in column 7, can be
    dropped from the copybook text: [_clean_content] returns the same
    lines with and without it. *)
Theorem X15_comment_and_blank_lines_ignored :
  forall (before after line : string),
    all_str (fun a => negb (eqc a Re.newline)) line = true ->
    is_empty (strip line) = true \/ str_get line 6 = Ok "*"%char ->
    _clean_content
      (before +:+ String Re.newline (line +:+ String Re.newline after)) =
    _clean_content (before +:+ String Re.newline after).
Proof.
  intros before after line Hnl Hskip. unfold _clean_content, split_on.
  rewrite !split_on_acc_app, (split_on_acc_none _ line _ Hnl).
  rewrite !fold_left_app. cbn [fold_left rev_str_acc].
  set (st := fold_left clean_step (split_on_acc Re.newline before EmptyString) _).
  replace (clean_step st line) with st; [reflexivity|].
  destruct st as [lines cur]. unfold clean_step.
  destruct (is_empty (strip line)); [reflexivity|].
  destruct Hskip as [H|H]; [discriminate|]. rewrite H. reflexivity.
Qed.

Lemma X15_comment_and_blank_lines_ignored_witness :
  _clean_content
    ("       01 REC." +:+ String Re.newline
       ("      * a comment" +:+ String Re.newline "           05 A PIC X(4).")) =
  _clean_content
    ("       01 REC." +:+ String Re.newline "           05 A PIC X(4).").
Proof.
  apply (X15_comment_and_blank_lines_ignored
           "       01 REC." "           05 A PIC X(4)." "      * a comment").
  - vm_compute. reflexivity.
  - right. vm_compute. reflexivity.
Defined.

(** ** The matcher and its capture groups *)

(** A successful run went through its continuation, and left alone
    every capture group that the pattern does not hold. *)
Lemma run_calls (i : nat) (r : Re.regex) :
  has_group i r = false ->
  forall s p c k res,
    Re.run r s p c k = Some res ->
    exists s' p' c',
      k s' p' c' = Some res /\ Re.lookup_cap i c' = Re.lookup_cap i c.
Proof.
  induction r as [|f|r1 IH1 r2 IH2|r1 IH1 r2 IH2|r IH|r IH|j r IH| | |];
    cbn [has_group]; intros Hg s p c k res H; cbn [Re.run] in H.
  - exists s, p, c. split; [exact H|reflexivity].
  - destruct s as [|a s]; [discriminate|]. destruct (f a); [|discriminate].
    exists s, (S p), c. split; [exact H|reflexivity].
  - apply orb_false_iff in Hg as [Hg1 Hg2].
    destruct (IH1 Hg1 _ _ _ _ _ H) as (s1 & p1 & c1 & H1 & E1).
    destruct (IH2 Hg2 _ _ _ _ _ H1) as (s2 & p2 & c2 & H2 & E2).
    exists s2, p2, c2. split; [exact H2|congruence].
  - apply orb_false_iff in Hg as [Hg1 Hg2].
    destruct (Re.run r1 s p c k) as [x|] eqn:E.
    + injection H as ->. exact (IH1 Hg1 _ _ _ _ _ E).
    + exact (IH2 Hg2 _ _ _ _ _ H).
  - revert H. generalize (String.length s) as n. intros n. revert s p c.
    induction n as [|n IHn]; intros s p c H.
    + exists s, p, c. split; [exact H|reflexivity].
    + match type of H with
      | match ?t with _ => _ end = _ => destruct t as [x|] eqn:E
      end.
      * injection H as ->.
        destruct (IH Hg _ _ _ _ _ E) as (s1 & p1 & c1 & H1 & E1).
        destruct (p <? p1)%nat; [|discriminate].
        destruct (IHn _ _ _ H1) as (s2 & p2 & c2 & H2 & E2).
        exists s2, p2, c2. split; [exact H2|congruence].
      * exists s, p, c. split; [exact H|reflexivity].
  - revert H. generalize (String.length s) as n. intros n. revert s p c.
    induction n as [|n IHn]; intros s p c H.
    + destruct (k s p c) as [x|] eqn:E; [|discriminate].
      exists s, p, c. split; [congruence|reflexivity].
    + destruct (k s p c) as [x|] eqn:E.
      * exists s, p, c. split; [congruence|reflexivity].
      * destruct (IH Hg _ _ _ _ _ H) as (s1 & p1 & c1 & H1 & E1).
        destruct (p <? p1)%nat; [|discriminate].
        destruct (IHn _ _ _ H1) as (s2 & p2 & c2 & H2 & E2).
        exists s2, p2, c2. split; [exact H2|congruence].
  - apply orb_false_iff in Hg as [Hij Hg].
    destruct (IH Hg _ _ _ _ _ H) as (s1 & p1 & c1 & H1 & E1).
    eexists s1, p1, _. split; [exact H1|].
    cbn [Re.lookup_cap]. rewrite Hij. exact E1.
  - destruct (p =? 0)%nat; [|discriminate].
    exists s, p, c. split; [exact H|reflexivity].
  - destruct s as [|a [|b s]]; try discriminate.
    + exists EmptyString, p, c. split; [exact H|reflexivity].
    + destruct (eqc a Re.newline); [|discriminate].
      eexists _, p, c. split; [exact H|reflexivity].
  - destruct s as [|a s].
    + exists EmptyString, p, c. split; [exact H|reflexivity].
    + destruct (eqc a Re.newline); [|discriminate].
      eexists _, p, c. split; [exact H|reflexivity].
Qed.

Lemma run_calls_cat (i : nat) (r1 r2 : Re.regex) s p c k res :
  has_group i r1 = false ->
  Re.run (Re.Cat r1 r2) s p c k = Some res ->
  exists s' p' c',
    Re.run r2 s' p' c' k = Some res /\
    Re.lookup_cap i c' = Re.lookup_cap i c.
Proof. intros Hg H. exact (run_calls i r1 Hg _ _ _ _ _ H). Qed.

(** What a starred character class reads. *)
Lemma run_star_class (f : ascii -> bool) s p c k res :
  Re.run (Re.Star (Re.Cls f)) s p c k = Some res ->
  exists t s',
    all_str f t = true /\ s = t +:+ s' /\
    k s' (p + String.length t)%nat c = Some res.
Proof.
  cbn [Re.run]. generalize (String.length s) as n. intros n. revert s p.
  induction n as [|n IHn]; intros s p H.
  - exists EmptyString, s. rewrite Nat.add_0_r. repeat split. exact H.
  - destruct s as [|a s].
    + exists EmptyString, EmptyString. rewrite Nat.add_0_r. repeat split.
      exact H.
    + cbn [Re.run] in H. destruct (f a) eqn:Ef.
      * assert (Hlt : (p <? S p)%nat = true) by (apply Nat.ltb_lt; lia).
        rewrite Hlt in H.
        match type of H with
        | match ?t with _ => _ end = _ => destruct t as [x|] eqn:E
        end.
        -- injection H as ->. destruct (IHn _ _ E) as (t & s' & Ht & -> & Hk).
           exists (String a t), s'. cbn [all_str String.length].
           rewrite Ef, Ht. split; [reflexivity|]. split; [reflexivity|].
           rewrite <- Hk. f_equal. lia.
        -- exists EmptyString, (String a s). rewrite Nat.add_0_r.
           repeat split. exact H.
      * exists EmptyString, (String a s). rewrite Nat.add_0_r.
        repeat split. exact H.
Qed.

Lemma take_str_app (t s : string) :
  take_str (String.length t) (t +:+ s) = t.
Proof.
  induction t as [|a t IH]; [destruct s; reflexivity|].
  rewrite app_cons. cbn [String.length take_str]. rewrite IH. reflexivity.
Qed.

(** The group [(\d+)] holds a text that [int] reads. *)
Lemma run_group_digits (i : nat) s p c res :
  Re.run (Re.Grp i (Re.plus Re.digit)) s p c
         (fun s' p' c' => Some (s', p', c')) = Some res ->
  exists t, all_str is_digit t = true /\ is_empty t = false /\
            Re.lookup_cap i (snd res) = Some t.
Proof.
  unfold Re.plus, Re.digit. cbn [Re.run].
  destruct s as [|a s]; [discriminate|].
  destruct (is_digit a) eqn:Ea; [|discriminate].
  intros H.
  apply (run_star_class is_digit s (S p) c
           (fun s' p' c' =>
              Some (s', p', (i, take_str (p' - p) (String a s)) :: c')))
    in H as (t & s' & Ht & -> & H).
  injection H as <-. cbn [snd Re.lookup_cap]. rewrite Nat.eqb_refl.
  exists (String a t). cbn [all_str is_empty]. rewrite Ea, Ht.
  split; [reflexivity|]. split; [reflexivity|]. f_equal.
  match goal with
  | |- take_str ?n _ = _ =>
      replace n with (String.length (String a t))
        by (cbn [String.length]; lia)
  end.
  rewrite <- app_cons. apply take_str_app.
Qed.

Lemma search_from_match (r : Re.regex) (s : string) : forall (p : nat) m,
  Re.search_from r s p = Some m ->
  exists s' p', Re.match_at r s' p' = Some m.
Proof.
  induction s as [|a s IH]; intros p m H; cbn [Re.search_from] in H.
  - destruct (Re.match_at r EmptyString p) eqn:E; [|discriminate].
    injection H as ->. eauto.
  - destruct (Re.match_at r (String a s) p) eqn:E.
    + injection H as ->. eauto.
    + exact (IH _ _ H).
Qed.

(** ** The DCLGEN parser *)

Lemma count_group_is_number (content : string) (m : Re.Match) :
  Re.search DCLParser.COLUMN_COUNT_PATTERN content = Some m ->
  exists n, int (default EmptyString (Re.group m 1)) = Ok n /\ 0 <= n.
Proof.
  intros H. apply search_from_match in H as (s & p & H).
  unfold Re.match_at in H.
  destruct (Re.run _ _ _ _ _) as [[[s1 p1] c1]|] eqn:E; [|discriminate].
  injection H as <-. unfold Re.group. cbn [Re.m_caps].
  unfold DCLParser.COLUMN_COUNT_PATTERN in E. cbn [Re.seq] in E.
  repeat match type of E with
  | Re.run (Re.Cat _ _) _ _ _ _ = _ =>
      apply (run_calls_cat 1) in E as (? & ? & ? & E & _); [|reflexivity]
  end.
  apply run_group_digits in E as (t & Ht & Hne & Hc). cbn [snd] in Hc.
  rewrite Hc. cbn [default from_option id].
  destruct (int_digits t Ht Hne) as (n & Hn & _).
  exists (Z.of_N n). split; [exact Hn|lia].
Qed.

Lemma level_group_is_number (line : string) (m : Re.Match) :
  Re.search DCLParser.COBOL_FIELD_PATTERN line = Some m ->
  exists n, int (default EmptyString (Re.group m 1)) = Ok n /\ 0 <= n <= 99.
Proof.
  intros H. apply search_from_match in H as (s & p & H).
  unfold Re.match_at in H.
  destruct (Re.run _ _ _ _ _) as [[[s1 p1] c1]|] eqn:E; [|discriminate].
  injection H as <-. unfold Re.group. cbn [Re.m_caps].
  unfold DCLParser.COBOL_FIELD_PATTERN in E. cbn [Re.seq] in E.
  match type of E with
  | Re.run (Re.Cat _ ?rest) _ _ _ _ = _ =>
      set (R := rest) in E;
      assert (HR : has_group 1 R = false) by reflexivity; clearbody R
  end.
  unfold Re.digit in E. cbn [Re.run] in E.
  destruct s as [|a [|b s]]; try discriminate.
  { destruct (is_digit a); discriminate. }
  destruct (is_digit a) eqn:Ea; [|discriminate].
  destruct (is_digit b) eqn:Eb; [|discriminate].
  apply (run_calls 1 R HR) in E as (s2 & p2 & c2 & E & Hc).
  injection E as _ _ <-.
  cbn [Re.lookup_cap] in Hc. rewrite Nat.eqb_refl in Hc. rewrite Hc.
  replace (S (S p) - p)%nat with 2%nat by lia.
  cbn [take_str default from_option id].
  destruct (int_digits (String a (String b EmptyString))) as (n & Hn & Hb).
  { cbn [all_str]. rewrite Ea, Eb. reflexivity. }
  { reflexivity. }
  exists (Z.of_N n). split; [exact Hn|]. cbn [String.length] in Hb.
  change (10 ^ N.of_nat 2)%N with 100%N in Hb. lia.
Qed.

Lemma startswith_app (p a b : string) :
  startswith p a = true -> startswith p (a +:+ b) = true.
Proof.
  revert a. induction p as [|x p IH]; intros a H; [reflexivity|].
  destruct a as [|y a]; [discriminate|]. cbn [startswith] in H.
  apply andb_true_iff in H as [Hxy Ha].
  rewrite app_cons. cbn [startswith]. rewrite Hxy, (IH _ Ha). reflexivity.
Qed.

Lemma eqc_sym (a b : ascii) : eqc a b = eqc b a.
Proof. unfold eqc. apply N.eqb_sym. Qed.

Lemma split1_acc_found (c : ascii) (s : string) : forall (cur : string),
  existsb (eqc c) (list_ascii_of_string s) = true ->
  exists a b,
    DCLParser.split1_acc c s cur = [rev_str cur +:+ a; b] /\
    s = a +:+ String c b /\
    all_str (fun x => negb (eqc x c)) a = true.
Proof.
  induction s as [|x s IH]; intros cur H; [discriminate|].
  cbn [list_ascii_of_string existsb] in H. cbn [DCLParser.split1_acc].
  rewrite (eqc_sym c x) in H. destruct (eqc x c) eqn:E.
  - exists EmptyString, s. rewrite app_nil_r_str, app_nil_l.
    split; [reflexivity|]. split; [|reflexivity].
    unfold eqc in E. apply N.eqb_eq in E.
    f_equal. rewrite <- (ascii_N_embedding x), <- (ascii_N_embedding c).
    f_equal. exact E.
  - cbn [orb] in H. destruct (IH (String x cur) H) as (a & b & Hs & -> & Ha).
    exists (String x a), b. rewrite Hs, rev_str_cons, app_assoc_str.
    rewrite app_cons, app_nil_l.
    split; [reflexivity|]. split; [reflexivity|].
    cbn [all_str]. rewrite E, Ha. reflexivity.
Qed.

Lemma find_column_spec (n : string) (cols : list DDLColumn) :
  match DCLParser.find_column n cols with
  | Some c => c = n /\ In n (map Column.name cols)
  | None => ~ In n (map Column.name cols)
  end.
Proof.
  induction cols as [|col cols IH]; cbn [DCLParser.find_column map].
  - intros [].
  - destruct (String.eqb_spec (Column.name col) n) as [E|E].
    + split; [exact E|]. left. exact E.
    + destruct (DCLParser.find_column n cols).
      * destruct IH as [-> Hin]. split; [reflexivity|]. right. exact Hin.
      * intros [H|H]; [exact (E H)|exact (IH H)].
Qed.

(** What [_parse_cobol_record] collects, before the columns are linked. *)
Lemma cobol_lines_shape (lines : list string) :
  let collected (v : CobolHostVariable) :=
    HostVariable.level v <> 1 /\ HostVariable.level v <> 49 /\
    0 <= HostVariable.level v <= 99 /\
    upper (HostVariable.name v) = HostVariable.name v /\
    HostVariable.sql_column v = None /\
    match HostVariable.pic_clause v with
    | Some p => startswith "PIC " p = true
    | None => True
    end in
  forall variables,
    Forall collected variables ->
    exists variables',
      DCLParser.cobol_lines variables lines = Ok variables' /\
      Forall collected variables'.
Proof.
  intros collected.
  induction lines as [|line lines IH]; intros vars Hvars;
    cbn [DCLParser.cobol_lines].
  - exists vars. split; [reflexivity|exact Hvars].
  - assert (Hstep : exists vars1,
              DCLParser.cobol_step vars line = Ok vars1 /\
              Forall collected vars1).
    { unfold DCLParser.cobol_step.
      destruct (is_empty (strip line)); [eauto|].
      destruct (Re.search DCLParser.COBOL_FIELD_PATTERN (strip line))
        as [m|] eqn:Em; [|eauto].
      destruct (level_group_is_number _ _ Em) as (lvl & -> & Hlvl).
      cbn [mbind result_bind].
      destruct (Z.eqb_spec lvl 1) as [|H1]; [eauto|].
      destruct (Z.eqb_spec lvl 49) as [|H49]; [eauto|].
      eexists. split; [reflexivity|].
      apply Forall_app. split; [exact Hvars|].
      constructor; [|constructor]. unfold collected.
      cbn [HostVariable.level HostVariable.name HostVariable.sql_column
           HostVariable.pic_clause].
      split; [exact H1|]. split; [exact H49|]. split; [exact Hlvl|].
      split; [apply upper_idem|]. split; [reflexivity|].
      destruct (DCLParser.truthy (Re.group m 3)) as [g3|]; [|exact I].
      assert (Hp : startswith "PIC " ("PIC " +:+ g3) = true).
      { rewrite !app_cons, app_nil_l. cbn [startswith].
        rewrite !eqc_refl. reflexivity. }
      destruct (DCLParser.truthy (Re.group m 4));
        [apply startswith_app; exact Hp|].
      destruct (DCLParser.truthy (Re.group m 5));
        [apply startswith_app; exact Hp|exact Hp]. }
    destruct Hstep as (vars1 & -> & Hvars1). cbn [mbind result_bind].
    exact (IH vars1 Hvars1).
Qed.

Lemma sql_columns_shape (content : string) :
  Forall (fun col =>
            Column.default_value col = None /\
            Column.is_primary_key col = false /\
            Column.foreign_key_ref col = None /\
            upper (Column.name col) = Column.name col /\
            upper (Column.data_type col) = Column.data_type col /\
            strip (Column.data_type col) = Column.data_type col)
         (DCLParser._parse_sql_columns content).
Proof.
  unfold DCLParser._parse_sql_columns.
  generalize (DCLParser._split_by_comma content) as parts.
  assert (H : Forall (fun col =>
            Column.default_value col = None /\
            Column.is_primary_key col = false /\
            Column.foreign_key_ref col = None /\
            upper (Column.name col) = Column.name col /\
            upper (Column.data_type col) = Column.data_type col /\
            strip (Column.data_type col) = Column.data_type col)
            (@nil DDLColumn)) by constructor.
  revert H. generalize (@nil DDLColumn) as cols. intros cols H parts.
  revert cols H. induction parts as [|part parts IH]; intros cols H;
    [exact H|].
  cbn [fold_left]. apply IH. unfold DCLParser.sql_column_step.
  destruct (is_empty (strip part)); [exact H|].
  destruct (Re.match_ DCLParser.SQL_COLUMN_PATTERN _) as [m|]; [|exact H].
  apply Forall_app. split; [exact H|]. constructor; [|constructor].
  cbn [Column.default_value Column.is_primary_key Column.foreign_key_ref
       Column.name Column.data_type].
  do 3 (split; [reflexivity|]). split; [apply upper_idem|].
  split; [apply upper_idem|]. rewrite strip_upper, strip_idem. reflexivity.
Qed.

(** The whole of [parse_content]. *)
Lemma dcl_parse_content_shape (content : string) :
  exists r,
    DCLParser.parse_content content = Ok r /\
    0 <= DCLGen.column_count r /\
    (Re.search DCLParser.COLUMN_COUNT_PATTERN content = None ->
     DCLGen.column_count r = Z.of_nat (length (DCLGen.sql_columns r))) /\
    (if existsb (eqc ".") (list_ascii_of_string (DCLGen.table_name r))
     then DCLGen.table_name r =
            DCLGen.schema r +:+ String "." (DCLGen.table r) /\
          all_str (fun x => negb (eqc x ".")) (DCLGen.schema r) = true
     else DCLGen.schema r = EmptyString /\
          DCLGen.table r = DCLGen.table_name r) /\
    (Re.search DCLParser.DECLARE_PATTERN content = None ->
     DCLGen.table_name r = EmptyString /\ DCLGen.sql_columns r = []) /\
    Forall (fun col =>
              Column.default_value col = None /\
              Column.is_primary_key col = false /\
              Column.foreign_key_ref col = None /\
              upper (Column.name col) = Column.name col /\
              upper (Column.data_type col) = Column.data_type col /\
              strip (Column.data_type col) = Column.data_type col)
           (DCLGen.sql_columns r) /\
    Forall (fun v =>
              HostVariable.level v <> 1 /\ HostVariable.level v <> 49 /\
              0 <= HostVariable.level v <= 99 /\
              upper (HostVariable.name v) = HostVariable.name v /\
              match HostVariable.pic_clause v with
              | Some p => startswith "PIC " p = true
              | None => True
              end /\
              forall c, HostVariable.sql_column v = Some c <->
                        c = DCLParser.sql_name_of v /\
                        In c (map Column.name (DCLGen.sql_columns r)))
           (DCLGen.host_variables r).
Proof.
  unfold DCLParser.parse_content.
  set (decl := match Re.search DCLParser.DECLARE_PATTERN content with
               | Some _ => _ | None => _ end).
  assert (Hdecl : exists tn sc tb cols,
            decl = Ok (tn, sc, tb, cols) /\
            (if existsb (eqc ".") (list_ascii_of_string tn)
             then tn = sc +:+ String "." tb /\
                  all_str (fun x => negb (eqc x ".")) sc = true
             else sc = EmptyString /\ tb = tn) /\
            (Re.search DCLParser.DECLARE_PATTERN content = None ->
             tn = EmptyString /\ cols = []) /\
            Forall (fun col =>
              Column.default_value col = None /\
              Column.is_primary_key col = false /\
              Column.foreign_key_ref col = None /\
              upper (Column.name col) = Column.name col /\
              upper (Column.data_type col) = Column.data_type col /\
              strip (Column.data_type col) = Column.data_type col) cols).
  { subst decl.
    destruct (Re.search DCLParser.DECLARE_PATTERN content) as [m|].
    - set (tn := default EmptyString (Re.group m 1)).
      destruct (existsb (eqc ".") (list_ascii_of_string tn)) eqn:Edot.
      + destruct (split1_acc_found "." tn EmptyString Edot)
          as (a & b & Hs & Htn & Ha).
        unfold DCLParser.split1. rewrite Hs. cbn [mbind result_bind].
        do 4 eexists.
        split; [reflexivity|]. rewrite Edot.
        change (rev_str EmptyString) with EmptyString. rewrite app_nil_l.
        split; [split; assumption|]. split; [discriminate|].
        apply sql_columns_shape.
      + cbn [mbind result_bind]. do 4 eexists.
        split; [reflexivity|]. rewrite Edot.
        split; [split; reflexivity|]. split; [discriminate|].
        apply sql_columns_shape.
    - exists EmptyString, EmptyString, EmptyString, [].
      split; [reflexivity|]. cbn [list_ascii_of_string existsb].
      split; [split; reflexivity|]. split; [split; reflexivity|constructor]. }
  clearbody decl.
  destruct Hdecl as (tn & sc & tb & cols & -> & Hname & Hnone & Hcols).
  cbn [mbind result_bind].
  destruct (cobol_lines_shape (split_on Re.newline content) [])
    as (vars & Hvars & Hshape); [constructor|].
  unfold DCLParser._parse_cobol_record. rewrite Hvars.
  cbn [mbind result_bind].
  assert (Hcount : exists n,
            match Re.search DCLParser.COLUMN_COUNT_PATTERN content with
            | Some count_match =>
                int (default EmptyString (Re.group count_match 1))
            | None => Ok (Z.of_nat (length cols))
            end = Ok n /\ 0 <= n /\
            (Re.search DCLParser.COLUMN_COUNT_PATTERN content = None ->
             n = Z.of_nat (length cols))).
  { destruct (Re.search DCLParser.COLUMN_COUNT_PATTERN content) as [m|] eqn:E.
    - destruct (count_group_is_number _ _ E) as (n & Hn & Hpos).
      exists n. split; [exact Hn|]. split; [exact Hpos|discriminate].
    - eexists. split; [reflexivity|]. split; [lia|reflexivity]. }
  destruct Hcount as (n & -> & Hn & Hlen). cbn [mbind result_bind].
  eexists. split; [reflexivity|].
  cbn [DCLGen.column_count DCLGen.sql_columns DCLGen.table_name
       DCLGen.schema DCLGen.table DCLGen.host_variables].
  split; [exact Hn|]. split; [exact Hlen|]. split; [exact Hname|].
  split; [exact Hnone|]. split; [exact Hcols|].
  unfold DCLParser._map_columns_to_variables. apply List.Forall_map.
  eapply Forall_impl; [exact Hshape|].
  intros v (H1 & H49 & Hl & Hu & Hsql & Hpic). cbv beta.
  unfold DCLParser.map_variable.
  pose proof (find_column_spec (DCLParser.sql_name_of v) cols) as Hfind.
  destruct (DCLParser.find_column (DCLParser.sql_name_of v) cols) as [c0|].
  - destruct Hfind as [-> Hin].
    cbn [HostVariable.set_sql_column HostVariable.level HostVariable.name
         HostVariable.pic_clause HostVariable.sql_column].
    do 5 (split; [assumption|]).
    unfold DCLParser.sql_name_of.
    cbn [HostVariable.set_sql_column HostVariable.name].
    fold (DCLParser.sql_name_of v).
    intros c. split.
    + intros [= <-]. split; [reflexivity|exact Hin].
    + intros [-> _]. reflexivity.
  - do 5 (split; [assumption|]).
    intros c. rewrite Hsql. split; [discriminate|].
    intros [-> Hin]. destruct (Hfind Hin).
Qed.


(** X17.  Every host variable returned by the DCLGEN [parse_content]
    has a level from 0 to 99 other than 1 and 49, an upper-case name,
    and a PIC clause, if any, that starts with PIC; it is linked to a
    SQL column exactly when its name, without the DCL- prefix and with
    underscores for hyphens, is the name of a column of the result, and
    the link is that name. *)
Theorem X17_dcl_host_variables :
  forall (content : string) (r : DCLGenResult),
    DCLParser.parse_content content = Ok r ->
    Forall (fun v =>
              HostVariable.level v <> 1 /\ HostVariable.level v <> 49 /\
              0 <= HostVariable.level v <= 99 /\
              upper (HostVariable.name v) = HostVariable.name v /\
              match HostVariable.pic_clause v with
              | Some p => startswith "PIC " p = true
              | None => True
              end /\
              forall c, HostVariable.sql_column v = Some c <->
                        c = DCLParser.sql_name_of v /\
                        In c (map Column.name (DCLGen.sql_columns r)))
           (DCLGen.host_variables r).
Proof.
  intros content r H.
  destruct (dcl_parse_content_shape content)
    as (r' & Hr & _ & _ & _ & _ & _ & Hv).
  rewrite Hr in H. injection H as <-. exact Hv.
Qed.

(** X18.  The table name of a DCLGEN result and its two parts: when
    the name holds a dot, it is schema, dot, table, and the schema holds
    no dot; otherwise the schema is empty and the table is the name.
    Without a DECLARE statement the name is empty and there are no SQL
    columns. *)
Theorem X18_dcl_table_name_parts :
  forall (content : string) (r : DCLGenResult),
    DCLParser.parse_content content = Ok r ->
    (if existsb (eqc ".") (list_ascii_of_string (DCLGen.table_name r))
     then DCLGen.table_name r =
            DCLGen.schema r +:+ String "." (DCLGen.table r) /\
          all_str (fun x => negb (eqc x ".")) (DCLGen.schema r) = true
     else DCLGen.schema r = EmptyString /\
          DCLGen.table r = DCLGen.table_name r) /\
    (Re.search DCLParser.DECLARE_PATTERN content = None ->
     DCLGen.table_name r = EmptyString /\ DCLGen.sql_columns r = []).
Proof.
  intros content r H.
  destruct (dcl_parse_content_shape content)
    as (r' & Hr & _ & _ & Hn & Hd & _).
  rewrite Hr in H. injection H as <-. split; [exact Hn|exact Hd].
Qed.

(** X19.  The SQL columns of a DCLGEN result carry no default value
    and no key information, and their names and data types are in upper
    case, the data type without surrounding blanks. *)
Theorem X19_dcl_sql_columns :
  forall (content : string) (r : DCLGenResult),
    DCLParser.parse_content content = Ok r ->
    Forall (fun col =>
              Column.default_value col = None /\
              Column.is_primary_key col = false /\
              Column.foreign_key_ref col = None /\
              upper (Column.name col) = Column.name col /\
              upper (Column.data_type col) = Column.data_type col /\
              strip (Column.data_type col) = Column.data_type col)
           (DCLGen.sql_columns r).
Proof.
  intros content r H.
  destruct (dcl_parse_content_shape content)
    as (r' & Hr & _ & _ & _ & _ & Hc & _).
  rewrite Hr in H. injection H as <-. exact Hc.
Qed.

Lemma X17_dcl_host_variables_witness :
  exists r,
    DCLParser.parse_content dclgen_member = Ok r /\
    Forall (fun v =>
              HostVariable.level v <> 1 /\ HostVariable.level v <> 49 /\
              0 <= HostVariable.level v <= 99 /\
              upper (HostVariable.name v) = HostVariable.name v /\
              match HostVariable.pic_clause v with
              | Some p => startswith "PIC " p = true
              | None => True
              end /\
              forall c, HostVariable.sql_column v = Some c <->
                        c = DCLParser.sql_name_of v /\
                        In c (map Column.name (DCLGen.sql_columns r)))
           (DCLGen.host_variables r).
Proof.
  eexists. split; [vm_compute; reflexivity|].
  apply (X17_dcl_host_variables dclgen_member).
  vm_compute. reflexivity.
Defined.

Lemma X18_dcl_table_name_parts_witness :
  exists r,
    DCLParser.parse_content dclgen_member = Ok r /\
    (if existsb (eqc ".") (list_ascii_of_string (DCLGen.table_name r))
     then DCLGen.table_name r =
            DCLGen.schema r +:+ String "." (DCLGen.table r) /\
          all_str (fun x => negb (eqc x ".")) (DCLGen.schema r) = true
     else DCLGen.schema r = EmptyString /\
          DCLGen.table r = DCLGen.table_name r) /\
    (Re.search DCLParser.DECLARE_PATTERN dclgen_member = None ->
     DCLGen.table_name r = EmptyString /\ DCLGen.sql_columns r = []).
Proof.
  eexists. split; [vm_compute; reflexivity|].
  apply (X18_dcl_table_name_parts dclgen_member).
  vm_compute. reflexivity.
Defined.

Lemma X19_dcl_sql_columns_witness :
  exists r,
    DCLParser.parse_content dclgen_member = Ok r /\
    Forall (fun col =>
              Column.default_value col = None /\
              Column.is_primary_key col = false /\
              Column.foreign_key_ref col = None /\
              upper (Column.name col) = Column.name col /\
              upper (Column.data_type col) = Column.data_type col /\
              strip (Column.data_type col) = Column.data_type col)
           (DCLGen.sql_columns r).
Proof.
  eexists. split; [vm_compute; reflexivity|].
  apply (X19_dcl_sql_columns dclgen_member).
  vm_compute. reflexivity.
Defined.

(** A USAGE clause is kept up to its first hyphen: [\w+] reads COMP
    of COMP-3. *)
Example dclgen_member_parsed :
  option_map (fun r => map (fun v => (HostVariable.name v,
                                      HostVariable.pic_clause v,
                                      HostVariable.sql_column v))
                           (DCLGen.host_variables r))
             (match DCLParser.parse_content dclgen_member with
              | Ok r => Some r | Raise _ => None end) =
  Some [ ("DCL-TR-TYPE", Some "PIC X(2)", Some "TR_TYPE");
         ("DCL-TR-DESCRIPTION", None, Some "TR_DESCRIPTION");
         ("DCL-TR-AMOUNT", Some "PIC S9(8)V9(2) COMP", Some "TR_AMOUNT");
         ("OTHER", Some "PIC S9(4) COMP-5", None) ]%string.
Proof. vm_compute. reflexivity. Qed.

(** ** The layout sum and the record length, in general *)

(** X20.  For every list that [parse_content] returns, whatever the
    setting of [ignore_fillers] and with or without REDEFINES, the sum
    over the elementary fields outside REDEFINES of length times occurs
    is at most the record length: dropped FILLER items and redefining
    items only widen the record. *)
Theorem X20_layout_sum_at_most_record_length :
  forall (ignore_fillers : bool) (content : string)
         (fields : list CopybookField),
    parse_content ignore_fillers content = Ok fields ->
    0 <= Spec.layout_sum fields <= get_record_length fields.
Proof.
  intros ig content fs Hparse. unfold parse_content in Hparse.
  destruct (parse_lines ig _ _) as [st|] eqn:E;
    cbn [mbind result_bind] in Hparse; [|discriminate].
  injection Hparse as <-.
  enough (H : 0 <= Spec.layout_sum (fields st) <= current_offset st /\
              Spec.layout_sum (fields st) <= get_record_length (fields st))
    by lia.
  refine (parse_lines_state_inv
            (fun s => 0 <= Spec.layout_sum (fields s) <= current_offset s /\
                      Spec.layout_sum (fields s) <= get_record_length (fields s))
            ig _ _ _ _ E _).
  2:{ cbn. lia. }
  clear. intros line f st st' Hline Hplace (Hcur & Hrl).
  destruct (parse_line_shape line f Hline) as (_ & _ & _ & Hocc).
  destruct (place_field_result ig st st' f Hplace)
    as (f' & fs' & Hfs & Hfields & _ & _ & _ & He & Ho & Hr & Hpos).
  assert (Hview : map view fs' = map view (fields st)).
  { destruct Hfs as [->|[n ->]]; [reflexivity|apply view_append_child_last]. }
  pose proof (layout_sum_view _ _ Hview) as Hs.
  pose proof (record_length_view _ _ Hview) as Hl.
  assert (Hadv : current_offset st <= current_offset st').
  { destruct (Field.is_elementary f); [|lia].
    destruct Hpos as (l & _ & Hl0 & _ & -> & _). nia. }
  rewrite Hfields. destruct (ig && Field.is_filler f).
  - rewrite Hs, Hl. lia.
  - rewrite layout_sum_snoc, record_length_snoc, Hs, Hl.
    unfold Spec.counts_in_sum. rewrite He, Hr.
    destruct (Field.is_elementary f); cbn [andb]; [|lia].
    destruct Hpos as (l & _ & Hl0 & Hlen & -> & Hoff).
    unfold Field.total_length. rewrite Hlen, Ho.
    destruct (Field.redefines f) as [r|].
    + replace (bool_decide (is_Some (Some r))) with true
        by (symmetry; apply bool_decide_eq_true; eauto).
      cbn [negb]. nia.
    + replace (bool_decide (is_Some (@None string))) with false
        by (symmetry; apply bool_decide_eq_false; intros [? [=]]).
      cbn [negb]. rewrite (Hoff eq_refl). nia.
Qed.

Lemma X20_layout_sum_at_most_record_length_witness :
  exists fs,
    parse_content true Spec.S4 = Ok fs /\
    0 <= Spec.layout_sum fs <= get_record_length fs.
Proof.
  eexists. split; [vm_compute; reflexivity|].
  apply (X20_layout_sum_at_most_record_length true Spec.S4).
  vm_compute. reflexivity.
Defined.

(** ** Where the copybook parser could raise *)




(** ** More on the matcher *)





(** ** The PIC analyzer reads every clause that starts like one *)















(** ** The copybook parser and the PIC analyzer *)




Section RstripKeeps.

Variable p : ascii -> bool.



End RstripKeeps.








(** ** Parents and children *)






Section ChildAppended.

Variable T : CopybookField -> bool.
Hypothesis T_append : forall c g, T g = true -> T (Field.append_child c g) = true.



End ChildAppended.






